(** * Branch messaging backend: conversation ownership, priority escalation
      and the websocket control loop.

    Shallow embedding of
      - backend/app/models/models.py          (rows and enums),
      - backend/app/api/conversations.py      (all eight handlers),
      - backend/app/api/external.py           (receive_external_message),
      - backend/app/api/agents.py             (all five handlers),
      - backend/app/api/customers.py          (get_customer_conversations,
                                               send_customer_message),
      - backend/app/api/websocket.py          (websocket_endpoint).

    Tables are finite maps from the integer primary key to the row.  A request
    handler is a state transformer over the committed database and the log of
    calls made to the connection manager; it either returns or raises. *)

From stdpp Require Import base option list gmap strings sorting.
From Stdlib Require Import ZArith Lia.

Local Open Scope Z_scope.

(* ===================================================================== *)
(** ** models.py *)
(* ===================================================================== *)

(** [datetime] values are only stored and compared; they are kept as a
    count of microseconds. *)
Definition datetime : Type := Z.

Inductive MessagePriority : Type := LOW | MEDIUM | HIGH | URGENT.
Inductive MessageStatus : Type := OPEN | IN_PROGRESS | RESOLVED | CLOSED.

#[global] Instance MessagePriority_eq_dec : EqDecision MessagePriority.
Proof. solve_decision. Defined.
#[global] Instance MessageStatus_eq_dec : EqDecision MessageStatus.
Proof. solve_decision. Defined.

(** The [.value] of the two string enums. *)
Definition priority_value (p : MessagePriority) : string :=
  match p with
  | LOW => "low" | MEDIUM => "medium" | HIGH => "high" | URGENT => "urgent"
  end.

Definition status_value (s : MessageStatus) : string :=
  match s with
  | OPEN => "open" | IN_PROGRESS => "in_progress"
  | RESOLVED => "resolved" | CLOSED => "closed"
  end.

(** class Customer.  The float column [loan_amount] is read by none of the
    handlers below and is left out. *)
Module Customer.
Record t : Type := mk {
  id : Z;
  name : string;
  email : option string;
  phone : option string;
  account_status : string;
  loan_status : option string;
  account_created : datetime;
  last_activity : datetime;
  profile_notes : option string
}.
Definition with_last_activity (d : datetime) (c : t) : t :=
  mk (id c) (name c) (email c) (phone c) (account_status c) (loan_status c)
     (account_created c) d (profile_notes c).
End Customer.

(** class Agent. *)
Module Agent.
Record t : Type := mk {
  id : Z;
  name : string;
  email : option string;
  avatar_url : option string;
  is_online : bool;
  created_at : datetime
}.
End Agent.

(** class Conversation. *)
Module Conversation.
Record t : Type := mk {
  id : Z;
  customer_id : Z;
  agent_id : option Z;
  status : MessageStatus;
  priority : MessagePriority;
  subject : option string;
  created_at : datetime;
  updated_at : datetime
}.
Definition with_agent_id (a : option Z) (c : t) : t :=
  mk (id c) (customer_id c) a (status c) (priority c) (subject c)
     (created_at c) (updated_at c).
Definition with_status (s : MessageStatus) (c : t) : t :=
  mk (id c) (customer_id c) (agent_id c) s (priority c) (subject c)
     (created_at c) (updated_at c).
Definition with_priority (p : MessagePriority) (c : t) : t :=
  mk (id c) (customer_id c) (agent_id c) (status c) p (subject c)
     (created_at c) (updated_at c).
Definition with_updated_at (d : datetime) (c : t) : t :=
  mk (id c) (customer_id c) (agent_id c) (status c) (priority c) (subject c)
     (created_at c) d.
End Conversation.

(** class Message. *)
Module Message.
Record t : Type := mk {
  id : Z;
  conversation_id : Z;
  customer_id : option Z;
  agent_id : option Z;
  content : string;
  is_from_customer : bool;
  priority : MessagePriority;
  created_at : datetime;
  read_at : option datetime
}.
End Message.

(** The committed database: one finite map per table, keyed by [id]. *)
Record Database : Type := mkDatabase {
  customers : gmap Z Customer.t;
  agents : gmap Z Agent.t;
  conversations : gmap Z Conversation.t;
  messages : gmap Z Message.t
}.

(** Integer primary keys are handed out by the store: one more than the
    largest key in use (1 on an empty table). *)
Definition next_id {A : Type} (table : gmap Z A) : Z :=
  1 + map_fold (fun k _ acc => Z.max k acc) 0 table.

(* ===================================================================== *)
(** ** services.manager: the calls a handler makes to it *)
(* ===================================================================== *)

(** The payload dictionaries handed to the three broadcast entry points, one
    constructor per entry point and shape of payload. *)
Inductive Broadcast : Type :=
  | broadcast_new_conversation
      (id customer_id : Z) (priority status : string) (subject : option string)
      (customer_name : string) (customer_email : option string)
  | broadcast_new_message_customer
      (id conversation_id customer_id : Z) (content : string) (priority : string)
      (created_at : datetime) (customer_name : string)
      (customer_email : option string)
  | broadcast_new_message_agent
      (id conversation_id agent_id : Z) (content : string) (priority : string)
      (created_at : datetime) (agent_name : string)
  | broadcast_conversation_update
      (id : Z) (agent_id : option Z) (agent_name : option string).

(* ===================================================================== *)
(** ** Handlers as state transformers that may raise *)
(* ===================================================================== *)

(** What a handler raises: fastapi.HTTPException, and the two library errors
    the handlers run into, sqlalchemy's MultipleResultsFound and pydantic's
    ValidationError. *)
Inductive Exception : Type :=
  | HTTPException (status_code : Z) (detail : string)
  | MultipleResultsFound
  | ValidationError.

Inductive Result (A : Type) : Type :=
  | Return (a : A)
  | Raise (e : Exception).
Arguments Return {A} a.
Arguments Raise {A} e.

Record World : Type := mkWorld {
  db : Database;
  sent : list Broadcast
}.

Definition Handler (A : Type) : Type := World -> Result A * World.

#[global] Instance Handler_ret : MRet Handler :=
  fun A a w => (Return a, w).
#[global] Instance Handler_bind : MBind Handler :=
  fun A B f m w =>
    match m w with
    | (Return a, w') => f a w'
    | (Raise e, w') => (Raise e, w')
    end.

Definition raise {A : Type} (e : Exception) : Handler A :=
  fun w => (Raise e, w).

(** Reading the committed state. *)
Definition query {A : Type} (f : Database -> A) : Handler A :=
  fun w => (Return (f (db w)), w).

(** [await db.commit()] of the pending changes [f]. *)
Definition commit (f : Database -> Database) : Handler unit :=
  fun w => (Return tt, mkWorld (f (db w)) (sent w)).

(** Modelled from the spec: [await manager.broadcast_...(payload)].  The
    services module is not part of the sources at hand; a broadcast is kept,
    in the order the manager was asked, with the payload the handler built
    (section 4.3 of the specification: fire-and-forget, order preserved). *)
Definition broadcast (b : Broadcast) : Handler unit :=
  fun w => (Return tt, mkWorld (db w) (sent w ++ [b])).

(** [Result.scalar_one_or_none()]: no row gives None, one row gives it, more
    rows raise [MultipleResultsFound]. *)
Definition scalar_one_or_none {A : Type} (rows : list A) : Handler (option A) :=
  match rows with
  | [] => mret None
  | [r] => mret (Some r)
  | _ :: _ :: _ => raise MultipleResultsFound
  end.

(** The integers the database driver can bind as a statement parameter:
    the signed 64-bit INTEGER of SQLite.  For an integer beyond them the
    driver raises OverflowError before the statement runs; that error is
    left out of the handlers below, and what is stated about an integer that
    need not be a stored key is stated for these. *)
Definition sqlite_integer (z : Z) : Prop := - 2 ^ 63 ≤ z < 2 ^ 63.

#[global] Instance sqlite_integer_dec z : Decision (sqlite_integer z).
Proof. unfold sqlite_integer. apply _. Defined.

(** A select on the primary key has at most one row.  The key is taken to
    be a [sqlite_integer]. *)
Definition select_by_id {A : Type} (table : Database -> gmap Z A) (k : Z)
  : Handler (option A) :=
  row ← query (fun d => table d !! k);
  scalar_one_or_none (option_list row).

Definition put_conversation (c : Conversation.t) (d : Database) : Database :=
  mkDatabase (customers d) (agents d)
             (<[Conversation.id c := c]> (conversations d)) (messages d).
Definition put_customer (c : Customer.t) (d : Database) : Database :=
  mkDatabase (<[Customer.id c := c]> (customers d)) (agents d)
             (conversations d) (messages d).
Definition put_message (m : Message.t) (d : Database) : Database :=
  mkDatabase (customers d) (agents d) (conversations d)
             (<[Message.id m := m]> (messages d)).

(* ===================================================================== *)
(** ** conversations.py *)
(* ===================================================================== *)

(** schemas.AgentMessageSend *)
Record AgentMessageSend : Type := mkAgentMessageSend {
  ams_content : string;
  ams_conversation_id : Z;
  ams_agent_id : Z
}.

(** [conversation.agent_id is not None and conversation.agent_id != agent_id] *)
Definition assigned_to_another (conversation : Conversation.t) (agent_id : Z)
  : bool :=
  match Conversation.agent_id conversation with
  | None => false
  | Some owner => negb (bool_decide (owner = agent_id))
  end.

(** POST /conversations/{conversation_id}/messages.  Every reading of
    [datetime.utcnow()] made while serving one request is the instant [now]. *)
Definition send_agent_message
    (conversation_id : Z) (message : AgentMessageSend) (now : datetime)
  : Handler Message.t :=
  conversation ← select_by_id conversations conversation_id;
  match conversation with
  | None => raise (HTTPException 404 "Conversation not found")
  | Some conversation =>
    if assigned_to_another conversation (ams_agent_id message) then
      raise (HTTPException 403
        "This conversation is assigned to another agent. You cannot send messages here.")
    else
      agent ← select_by_id agents (ams_agent_id message);
      match agent with
      | None => raise (HTTPException 404 "Agent not found")
      | Some agent =>
        mid ← query (fun d => next_id (messages d));
        let db_message :=
          Message.mk mid conversation_id None (Some (ams_agent_id message))
                     (ams_content message) false MEDIUM now None in
        let conversation := Conversation.with_updated_at now conversation in
        let conversation :=
          if decide (Conversation.agent_id conversation = None)
          then Conversation.with_agent_id (Some (ams_agent_id message)) conversation
          else conversation in
        let conversation :=
          if decide (Conversation.status conversation = OPEN)
          then Conversation.with_status IN_PROGRESS conversation
          else conversation in
        commit (fun d => put_conversation conversation (put_message db_message d));;
        broadcast (broadcast_new_message_agent
                     (Message.id db_message) conversation_id
                     (ams_agent_id message) (ams_content message)
                     (priority_value (Message.priority db_message))
                     (Message.created_at db_message) (Agent.name agent));;
        mret db_message
      end
  end.

(** The JSON object returned by assign_conversation. *)
Record AssignResponse : Type := mkAssignResponse {
  ar_success : bool;
  ar_agent_id : Z;
  ar_agent_name : string
}.

Definition conflict_detail (agent_name : string) : string :=
  "This conversation is already assigned to " +:+ agent_name
    +:+ ". Use force=true to reassign.".

(** [conversation.agent_id is not None and conversation.agent_id != agent_id
     and not force]; when it holds, the owner that stands in the way. *)
Definition conflicting_owner
    (conversation : Conversation.t) (agent_id : Z) (force : bool) : option Z :=
  match Conversation.agent_id conversation with
  | Some owner =>
    if negb (bool_decide (owner = agent_id)) && negb force then Some owner
    else None
  | None => None
  end.

(** POST /conversations/{conversation_id}/assign/{agent_id}?force=... *)
Definition assign_conversation
    (conversation_id agent_id : Z) (force : bool) (now : datetime)
  : Handler AssignResponse :=
  conversation ← select_by_id conversations conversation_id;
  match conversation with
  | None => raise (HTTPException 404 "Conversation not found")
  | Some conversation =>
    match conflicting_owner conversation agent_id force with
    | Some owner =>
      current_agent ← select_by_id agents owner;
      let agent_name :=
        match current_agent with
        | Some a => Agent.name a
        | None => "another agent"
        end in
      raise (HTTPException 409 (conflict_detail agent_name))
    | None =>
      agent ← select_by_id agents agent_id;
      match agent with
      | None => raise (HTTPException 404 "Agent not found")
      | Some agent =>
        let conversation :=
          Conversation.with_updated_at now
            (Conversation.with_agent_id (Some agent_id) conversation) in
        commit (put_conversation conversation);;
        broadcast (broadcast_conversation_update
                     (Conversation.id conversation) (Some agent_id)
                     (Some (Agent.name agent)));;
        mret (mkAssignResponse true agent_id (Agent.name agent))
      end
    end
  end.

(** The JSON object returned by release_conversation. *)
Record ReleaseResponse : Type := mkReleaseResponse {
  rr_success : bool;
  rr_message : string
}.

(** POST /conversations/{conversation_id}/release?agent_id=... *)
Definition release_conversation
    (conversation_id agent_id : Z) (now : datetime)
  : Handler ReleaseResponse :=
  conversation ← select_by_id conversations conversation_id;
  match conversation with
  | None => raise (HTTPException 404 "Conversation not found")
  | Some conversation =>
    if decide (Conversation.agent_id conversation ≠ Some agent_id) then
      raise (HTTPException 403
        "You can only release conversations assigned to you")
    else
      let conversation :=
        Conversation.with_updated_at now
          (Conversation.with_agent_id None conversation) in
      commit (put_conversation conversation);;
      broadcast (broadcast_conversation_update
                   (Conversation.id conversation) None None);;
      mret (mkReleaseResponse true "Conversation released")
  end.

(* ===================================================================== *)
(** ** external.py *)
(* ===================================================================== *)

(** schemas.MessageSend *)
Record MessageSend : Type := mkMessageSend {
  ms_content : string;
  ms_customer_email : option string;
  ms_customer_name : option string;
  ms_customer_id : option Z
}.

(** Truth value of an Optional[int] and of an Optional[str] under [if x:]:
    the value when it is neither None nor 0, respectively nor empty. *)
Definition truthy_int (x : option Z) : option Z :=
  match x with
  | Some n => if decide (n = 0) then None else Some n
  | None => None
  end.

Definition truthy_str (x : option string) : option string :=
  match x with
  | Some s => if decide (s = "") then None else Some s
  | None => None
  end.

(** The rows of a table. *)
Definition rows {A : Type} (table : gmap Z A) : list A :=
  (map_to_list table).*2.

(** [select(Customer).where(Customer.email == email)] *)
Definition customers_with_email (email : string) (d : Database)
  : list Customer.t :=
  filter (fun c => Customer.email c = Some email) (rows (customers d)).

(** [select(Conversation).where(Conversation.customer_id == customer_id,
       Conversation.status.in_([OPEN, IN_PROGRESS]))
      .order_by(Conversation.updated_at.desc())] *)
Definition is_open_for (customer_id : Z) (c : Conversation.t) : Prop :=
  Conversation.customer_id c = customer_id
  ∧ Conversation.status c ∈ [OPEN; IN_PROGRESS].

#[global] Instance is_open_for_dec customer_id c
  : Decision (is_open_for customer_id c).
Proof. unfold is_open_for. apply _. Defined.

Definition updated_at_desc (a b : Conversation.t) : Prop :=
  Conversation.updated_at b ≤ Conversation.updated_at a.

#[global] Instance updated_at_desc_dec a b : Decision (updated_at_desc a b).
Proof. unfold updated_at_desc. apply _. Defined.

Definition open_conversations_of (customer_id : Z) (d : Database)
  : list Conversation.t :=
  merge_sort updated_at_desc
    (filter (is_open_for customer_id) (rows (conversations d))).

(** The dictionary [priority_order]; all four levels are keys, so the
    default of [.get(_, 0)] is never taken. *)
Definition priority_order (p : MessagePriority) : Z :=
  match p with
  | LOW => 0 | MEDIUM => 1 | HIGH => 2 | URGENT => 3
  end.

(** A Python [str] is kept as the bytes of its UTF-8 encoding.  [len] and
    slicing count code points; a code point starts at each byte that is not
    a continuation byte (10xxxxxx, that is 128 to 191). *)
Definition is_continuation (a : Ascii.ascii) : bool :=
  (128 <=? Ascii.nat_of_ascii a)%nat && (Ascii.nat_of_ascii a <? 192)%nat.

(** [len(s)] *)
Fixpoint py_len (s : string) : nat :=
  match s with
  | EmptyString => 0%nat
  | String a rest =>
    ((if is_continuation a then 0 else 1) + py_len rest)%nat
  end.

(** [s[:n]]: the first [n] code points, each with all its bytes. *)
Fixpoint py_slice_to (n : nat) (s : string) : string :=
  match s with
  | EmptyString => EmptyString
  | String a rest =>
    if is_continuation a then String a (py_slice_to n rest)
    else match n with
         | O => EmptyString
         | S n' => String a (py_slice_to n' rest)
         end
  end.

(** [message.content[:100] if len(message.content) > 100 else message.content] *)
Definition subject_of (content : string) : string :=
  if decide (100 < py_len content)%nat
  then py_slice_to 100 content
  else content.

Section External.

(** [services.detect_priority] is not part of the sources at hand: it is a
    parameter, a function from the text to a level and a confidence. *)
Context {Confidence : Type}.
Variable detect_priority : string -> MessagePriority * Confidence.

(** The JSON object returned by receive_external_message. *)
Record ExternalResponse : Type := mkExternalResponse {
  er_success : bool;
  er_message_id : Z;
  er_conversation_id : Z;
  er_customer_id : Z;
  er_priority : string;
  er_priority_confidence : Confidence
}.

(** "Find or create customer" (lines 25-55). *)
Definition find_customer (message : MessageSend)
  : Handler (option Customer.t) :=
  customer ←
    match truthy_int (ms_customer_id message) with
    | Some cid => select_by_id customers cid
    | None => mret None
    end;
  match customer, truthy_str (ms_customer_email message) with
  | None, Some email =>
    found ← query (customers_with_email email);
    scalar_one_or_none found
  | _, _ => mret customer
  end.

Definition find_or_create_customer (message : MessageSend) (now : datetime)
  : Handler Customer.t :=
  customer ← find_customer message;
  match customer with
  | Some customer => mret customer
  | None =>
    match truthy_str (ms_customer_email message) with
    | None =>
      raise (HTTPException 400
        "Either customer_id or customer_email is required")
    | Some email =>
      cid ← query (fun d => next_id (customers d));
      let customer :=
        Customer.mk cid
          (default "Unknown Customer" (truthy_str (ms_customer_name message)))
          (Some email) None "active" None now now None in
      commit (put_customer customer);;
      mret customer
    end
  end.

(** POST /external/messages *)
Definition receive_external_message (message : MessageSend) (now : datetime)
  : Handler ExternalResponse :=
  customer ← find_or_create_customer message now;
  let '(priority, confidence) := detect_priority (ms_content message) in
  found ← query (open_conversations_of (Customer.id customer));
  conversation ← scalar_one_or_none found;
  conversation ←
    match conversation with
    | None =>
      cid ← query (fun d => next_id (conversations d));
      let conversation :=
        Conversation.mk cid (Customer.id customer) None OPEN priority
          (Some (subject_of (ms_content message))) now now in
      commit (put_conversation conversation);;
      broadcast (broadcast_new_conversation
                   (Conversation.id conversation)
                   (Conversation.customer_id conversation)
                   (priority_value (Conversation.priority conversation))
                   (status_value (Conversation.status conversation))
                   (Conversation.subject conversation)
                   (Customer.name customer) (Customer.email customer));;
      mret conversation
    | Some conversation =>
      mret (if decide (priority_order (Conversation.priority conversation)
                         < priority_order priority)
            then Conversation.with_priority priority conversation
            else conversation)
    end;
  mid ← query (fun d => next_id (messages d));
  let db_message :=
    Message.mk mid (Conversation.id conversation) (Some (Customer.id customer))
               None (ms_content message) true priority now None in
  let conversation := Conversation.with_updated_at now conversation in
  let customer := Customer.with_last_activity now customer in
  commit (fun d =>
            put_customer customer
              (put_conversation conversation (put_message db_message d)));;
  broadcast (broadcast_new_message_customer
               (Message.id db_message) (Conversation.id conversation)
               (Customer.id customer) (ms_content message)
               (priority_value priority) (Message.created_at db_message)
               (Customer.name customer) (Customer.email customer));;
  mret (mkExternalResponse true (Message.id db_message)
          (Conversation.id conversation) (Customer.id customer)
          (priority_value priority) confidence).

End External.

(* ===================================================================== *)
(** ** Well-keyed databases *)
(* ===================================================================== *)

(** Every row sits under the key held in its [id] column. *)
Definition keyed {A : Type} (key : A -> Z) (table : gmap Z A) : Prop :=
  map_Forall (fun k row => key row = k) table.

Definition well_keyed (d : Database) : Prop :=
  keyed Customer.id (customers d) ∧ keyed Agent.id (agents d)
  ∧ keyed Conversation.id (conversations d) ∧ keyed Message.id (messages d).

#[global] Instance well_keyed_dec d : Decision (well_keyed d).
Proof. unfold well_keyed, keyed. apply _. Defined.

(** A handler that leaves a well-keyed database well-keyed, whether it
    returns or raises. *)
Definition keeps_well_keyed {A : Type} (m : Handler A) : Prop :=
  ∀ w, well_keyed (db w) -> well_keyed (db (m w).2).

(* ===================================================================== *)
(** ** assign_conversation, one transition per await *)
(* ===================================================================== *)

(** Between two [await]s a coroutine runs without interruption; at an
    [await] on the session or on the manager other requests may run.  Each
    request has its own [AsyncSession] (database.get_db), so the
    conversation object it has loaded is a private copy until its commit.
    A task is the point the coroutine has reached together with its locals. *)
Inductive AssignTask : Type :=
  | at_select_conversation
      (* line 283, [await db.execute(select(Conversation)...)] *)
  | at_select_current_agent (conversation : Conversation.t) (owner : Z)
      (* line 294, [await db.execute(select(Agent)...)] of the owner *)
  | at_select_agent (conversation : Conversation.t)
      (* line 305, [await db.execute(select(Agent)...)] of the claimant *)
  | at_commit (loaded conversation : Conversation.t) (agent : Agent.t)
      (* line 316, [await db.commit()] *)
  | at_broadcast (conversation : Conversation.t) (agent : Agent.t)
      (* line 319, [await manager.broadcast_conversation_update(...)] *)
  | at_done (r : Result AssignResponse).

(** The unit of work flushes an UPDATE of the attributes whose value differs
    from the loaded one, on the row with the object's primary key. *)
Definition changed {A : Type} `{EqDecision A} (loaded current stored : A) : A :=
  if decide (current = loaded) then stored else current.

Definition flush_row (loaded current stored : Conversation.t) : Conversation.t :=
  Conversation.mk
    (Conversation.id stored)
    (changed (Conversation.customer_id loaded) (Conversation.customer_id current)
             (Conversation.customer_id stored))
    (changed (Conversation.agent_id loaded) (Conversation.agent_id current)
             (Conversation.agent_id stored))
    (changed (Conversation.status loaded) (Conversation.status current)
             (Conversation.status stored))
    (changed (Conversation.priority loaded) (Conversation.priority current)
             (Conversation.priority stored))
    (changed (Conversation.subject loaded) (Conversation.subject current)
             (Conversation.subject stored))
    (changed (Conversation.created_at loaded) (Conversation.created_at current)
             (Conversation.created_at stored))
    (changed (Conversation.updated_at loaded) (Conversation.updated_at current)
             (Conversation.updated_at stored)).

Definition flush_conversation (loaded current : Conversation.t) (d : Database)
  : Database :=
  mkDatabase (customers d) (agents d)
             (alter (flush_row loaded current) (Conversation.id loaded)
                    (conversations d))
             (messages d).

Definition assign_step
    (conversation_id agent_id : Z) (force : bool) (now : datetime)
    (t : AssignTask) (w : World) : AssignTask * World :=
  match t with
  | at_select_conversation =>
    match conversations (db w) !! conversation_id with
    | None =>
      (at_done (Raise (HTTPException 404 "Conversation not found")), w)
    | Some conversation =>
      match conflicting_owner conversation agent_id force with
      | Some owner => (at_select_current_agent conversation owner, w)
      | None => (at_select_agent conversation, w)
      end
    end
  | at_select_current_agent conversation owner =>
    let agent_name :=
      match agents (db w) !! owner with
      | Some a => Agent.name a
      | None => "another agent"
      end in
    (at_done (Raise (HTTPException 409 (conflict_detail agent_name))), w)
  | at_select_agent conversation =>
    match agents (db w) !! agent_id with
    | None => (at_done (Raise (HTTPException 404 "Agent not found")), w)
    | Some agent =>
      (at_commit conversation
         (Conversation.with_updated_at now
            (Conversation.with_agent_id (Some agent_id) conversation))
         agent, w)
    end
  | at_commit loaded conversation agent =>
    (at_broadcast conversation agent,
     mkWorld (flush_conversation loaded conversation (db w)) (sent w))
  | at_broadcast conversation agent =>
    (at_done (Return (mkAssignResponse true agent_id (Agent.name agent))),
     mkWorld (db w)
             (sent w ++ [broadcast_conversation_update
                           (Conversation.id conversation) (Some agent_id)
                           (Some (Agent.name agent))]))
  | at_done r => (at_done r, w)
  end.

(** A request served alone: the task is stepped until it is done (five
    transitions at most). *)
Definition assign_alone
    (conversation_id agent_id : Z) (force : bool) (now : datetime) (w : World)
  : AssignTask * World :=
  Nat.iter 5 (fun s => assign_step conversation_id agent_id force now s.1 s.2)
           (at_select_conversation, w).

(** Two claims without force on one conversation, by agents [X] and [Y].
    The schedule says whose coroutine the event loop resumes next. *)
Inductive Turn : Type := turn_X | turn_Y.

Record Race : Type := mkRace {
  task_X : AssignTask;
  task_Y : AssignTask;
  world : World
}.

Definition race_step (conversation_id X Y : Z) (now_X now_Y : datetime)
    (s : Race) (t : Turn) : Race :=
  match t with
  | turn_X =>
    let '(tx, w) :=
      assign_step conversation_id X false now_X (task_X s) (world s) in
    mkRace tx (task_Y s) w
  | turn_Y =>
    let '(ty, w) :=
      assign_step conversation_id Y false now_Y (task_Y s) (world s) in
    mkRace (task_X s) ty w
  end.

Definition race (conversation_id X Y : Z) (now_X now_Y : datetime)
    (schedule : list Turn) (w : World) : Race :=
  fold_left (race_step conversation_id X Y now_X now_Y) schedule
            (mkRace at_select_conversation at_select_conversation w).

(** The owner column of a stored conversation. *)
Definition owner_of (conversation_id : Z) (w : World) : option Z :=
  c ← conversations (db w) !! conversation_id; Conversation.agent_id c.

Definition succeeded (t : AssignTask) : Prop :=
  ∃ resp, t = at_done (Return resp) ∧ ar_success resp = true.

Definition conflict_naming (winner : Z) (w : World) (t : AssignTask) : Prop :=
  ∃ a, agents (db w) !! winner = Some a
       ∧ t = at_done (Raise (HTTPException 409 (conflict_detail (Agent.name a)))).

(** "Exactly one succeeds, the other receives Conflict naming the winner, and
    the conversation ends owned by the winner." *)
Definition one_winner (conversation_id X Y : Z) (s : Race) : Prop :=
  (succeeded (task_X s) ∧ conflict_naming X (world s) (task_Y s)
   ∧ owner_of conversation_id (world s) = Some X)
  ∨ (succeeded (task_Y s) ∧ conflict_naming Y (world s) (task_X s)
     ∧ owner_of conversation_id (world s) = Some Y).

Definition finished (s : Race) : Prop :=
  (∃ r, task_X s = at_done r) ∧ (∃ r, task_Y s = at_done r).

(** The race property as the specification words it: whatever the
    interleaving, a finished race has one winner. *)
Definition claim_is_atomic (conversation_id X Y : Z) (now_X now_Y : datetime)
    (w : World) : Prop :=
  ∀ schedule,
    finished (race conversation_id X Y now_X now_Y schedule w) ->
    one_winner conversation_id X Y
               (race conversation_id X Y now_X now_Y schedule w).

(** What the code gives under every interleaving. *)
Definition both_or_one_winner (conversation_id X Y : Z) (s : Race) : Prop :=
  one_winner conversation_id X Y s
  ∨ (succeeded (task_X s) ∧ succeeded (task_Y s)
     ∧ (owner_of conversation_id (world s) = Some X
        ∨ owner_of conversation_id (world s) = Some Y)).

(** The schedule in which X's request is served to the end before Y's
    starts. *)
Definition serial_X_then_Y : list Turn :=
  replicate 5 turn_X ++ replicate 5 turn_Y.

(** A store with one unowned conversation and two agents. *)
Definition alice : Agent.t := Agent.mk 1 "Alice" None None false 0.
Definition bob : Agent.t := Agent.mk 2 "Bob" None None false 0.
Definition carol : Customer.t :=
  Customer.mk 7 "Carol" (Some "carol@example.com") None "active" None 0 0 None.
Definition unowned_conversation : Conversation.t :=
  Conversation.mk 1 7 None OPEN LOW (Some "hello") 0 0.

Definition small_db (c : Conversation.t) : Database :=
  mkDatabase {[ 7 := carol ]} (<[ 1 := alice ]> {[ 2 := bob ]})
             {[ Conversation.id c := c ]} ∅.

Definition unowned_world : World := mkWorld (small_db unowned_conversation) [].

(** Both coroutines load the row before either commits. *)
Definition interleaved : list Turn :=
  [turn_X; turn_Y; turn_X; turn_Y; turn_X; turn_Y; turn_X; turn_Y].

(* ===================================================================== *)
(** ** websocket.py *)
(* ===================================================================== *)

#[local] Set Warnings "-register-all".

(** What [json.loads] yields.  Numbers are kept as integers: the endpoint
    only tests them for truth and hands them on. *)
Inductive JSON : Type :=
  | JNull
  | JBool (b : bool)
  | JNumber (n : Z)
  | JString (s : string)
  | JArray (items : list JSON)
  | JObject (members : list (string * JSON)).

(** [obj.get(key, default)]: the value under [key], or [default]; on anything
    but a dict the attribute lookup fails (AttributeError), rendered None. *)
Fixpoint member (key : string) (members : list (string * JSON)) : option JSON :=
  match members with
  | [] => None
  | (k, v) :: rest => if decide (k = key) then Some v else member key rest
  end.

Definition py_get (key : string) (dflt : JSON) (obj : JSON) : option JSON :=
  match obj with
  | JObject members => Some (default dflt (member key members))
  | _ => None
  end.

(** Truth value of a parsed value under [if x and ...]. *)
Definition truthy (v : JSON) : bool :=
  match v with
  | JNull => false
  | JBool b => b
  | JNumber n => negb (bool_decide (n = 0))
  | JString s => negb (bool_decide (s = ""))
  | JArray items => negb (bool_decide (items = []))
  | JObject members => negb (bool_decide (members = []))
  end.

Fixpoint json_eqb (a b : JSON) : bool :=
  match a, b with
  | JNull, JNull => true
  | JBool x, JBool y => bool_decide (x = y)
  | JNumber x, JNumber y => bool_decide (x = y)
  | JString x, JString y => bool_decide (x = y)
  | JArray xs, JArray ys =>
    (fix go (xs ys : list JSON) : bool :=
       match xs, ys with
       | [], [] => true
       | x :: xs', y :: ys' => json_eqb x y && go xs' ys'
       | _, _ => false
       end) xs ys
  | JObject xs, JObject ys =>
    (fix go (xs ys : list (string * JSON)) : bool :=
       match xs, ys with
       | [], [] => true
       | (k, x) :: xs', (l, y) :: ys' =>
         bool_decide (k = l) && json_eqb x y && go xs' ys'
       | _, _ => false
       end) xs ys
  | _, _ => false
  end.

(** [value == "text"] for a parsed value and a string literal. *)
Definition py_eq_str (v : JSON) (text : string) : bool :=
  match v with
  | JString s => bool_decide (s = text)
  | _ => false
  end.

(** A transport channel handle. *)
Definition WebSocket : Type := Z.

(** Hub to client events: the three dictionaries websocket.py sends, and
    the typing relay of the manager. *)
Inductive ServerEvent : Type :=
  | ev_connected (agent_id : option Z) (message : string)
  | ev_pong
  | ev_error (message : string)
  | ev_agent_typing (conversation_id : JSON) (agent_id : Z) (is_typing : JSON).

(** Modelled from the spec: the connection manager of the services module,
    which is not part of the sources at hand (sections 4.2 and 4.3 of the
    specification).  Per agent identity: the open connection handles, the
    viewing set and the online flag; per channel: the events delivered to
    it, oldest first. *)
Record PresenceEntry : Type := mkPresenceEntry {
  handles : list WebSocket;
  viewing : list JSON;
  online : bool
}.

(** Modelled from the spec: the state of the manager.  [anonymous] holds the
    channels opened without an agent identity. *)
Record Manager : Type := mkManager {
  registry : gmap Z PresenceEntry;
  anonymous : list WebSocket;
  delivered : gmap WebSocket (list ServerEvent)
}.

(** Modelled from the spec: the entry of an agent, empty and offline for an
    agent never seen. *)
Definition entry_of (agent_id : Z) (m : Manager) : PresenceEntry :=
  default (mkPresenceEntry [] [] false) (registry m !! agent_id).

(** Modelled from the spec: registerConnection adds the handle and sets
    online, whatever the agent identity; a connection opened without an
    agent identity is a live channel of no agent. *)
Definition connect (websocket : WebSocket) (agent_id : option Z) (m : Manager)
  : Manager :=
  match agent_id with
  | Some a =>
    let e := entry_of a m in
    mkManager
      (<[a := mkPresenceEntry (websocket :: handles e) (viewing e) true]>
         (registry m))
      (anonymous m)
      (<[websocket := []]> (delivered m))
  | None =>
    mkManager (registry m) (websocket :: anonymous m)
              (<[websocket := []]> (delivered m))
  end.

(** Modelled from the spec: unregisterConnection removes the handle, clears
    online with the last handle, and is a no-op on an absent handle. *)
Definition disconnect (websocket : WebSocket) (agent_id : option Z)
    (m : Manager) : Manager :=
  let without := filter (fun h => h ≠ websocket) in
  match agent_id with
  | Some a =>
    mkManager
      (alter (fun e =>
                mkPresenceEntry (without (handles e)) (viewing e)
                  (negb (bool_decide (without (handles e) = []))))
             a (registry m))
      (anonymous m)
      (delete websocket (delivered m))
  | None =>
    mkManager (registry m) (without (anonymous m))
              (delete websocket (delivered m))
  end.

(** Modelled from the spec: a targeted send reaches the one channel; a
    channel that is not live drops the event. *)
Definition send_personal_message (event : ServerEvent) (websocket : WebSocket)
    (m : Manager) : Manager :=
  mkManager (registry m) (anonymous m)
            (alter (fun q => q ++ [event]) websocket (delivered m)).

(** Modelled from the spec: membership in a viewing set. *)
Definition is_viewing (conversation_id : JSON) (e : PresenceEntry) : bool :=
  existsb (json_eqb conversation_id) (viewing e).

(** Modelled from the spec: viewersOf, as the live channels of the agents
    viewing the conversation. *)
Definition viewer_channels (conversation_id : JSON) (m : Manager)
  : list WebSocket :=
  concat (handles <$> filter (fun e => is_viewing conversation_id e = true)
                             (map_to_list (registry m)).*2).

(** Modelled from the spec: the typing relay reaches every live channel of
    the agents viewing the conversation, and no one else. *)
Definition notify_agent_typing (conversation_id : JSON) (agent_id : Z)
    (is_typing : JSON) (m : Manager) : Manager :=
  foldr (send_personal_message
           (ev_agent_typing conversation_id agent_id is_typing))
        m (viewer_channels conversation_id m).

(** Modelled from the spec: setViewing changes the viewing set of a known
    agent and does nothing for an unknown one. *)
Definition set_agent_viewing (agent_id : Z) (conversation_id : JSON)
    (m : Manager) : Manager :=
  mkManager
    (alter (fun e =>
              if is_viewing conversation_id e then e
              else mkPresenceEntry (handles e) (conversation_id :: viewing e)
                                   (online e))
           agent_id (registry m))
    (anonymous m) (delivered m).

(** Modelled from the spec: clearViewing; clearing an absent conversation is
    a no-op. *)
Definition remove_agent_viewing (agent_id : Z) (conversation_id : JSON)
    (m : Manager) : Manager :=
  mkManager
    (alter (fun e =>
              mkPresenceEntry
                (handles e)
                (filter (fun c => json_eqb conversation_id c = false) (viewing e))
                (online e))
           agent_id (registry m))
    (anonymous m) (delivered m).

(** What [json.loads] does with a text: it returns the parsed value, raises
    JSONDecodeError, or raises another exception (RecursionError on deeply
    nested brackets, a plain ValueError on an integer literal with more
    digits than the interpreter converts). *)
Inductive Loads : Type :=
  | parsed (value : JSON)
  | JSONDecodeError
  | other_error.

Section Websocket.

(** [json.loads] of the standard library is a parameter. *)
Variable json_loads : string -> Loads.

(** How the body of the [while True] loop ends for one received text. *)
Inductive Iteration : Type :=
  | next_frame (m : Manager)
      (* the loop goes on to the next [receive_text] *)
  | escaped (m : Manager)
      (* an exception left the inner [try]; [except Exception] takes it *).

(** [message.get("data", {}).get(key, dflt)] *)
Definition data_get (key : string) (dflt : JSON) (message : JSON)
  : option JSON :=
  data ← py_get "data" (JObject []) message;
  py_get key dflt data.

(** Lines 30-67: the inner [try] with its [except json.JSONDecodeError]. *)
Definition on_text (websocket : WebSocket) (agent_id : option Z)
    (data : string) (m : Manager) : Iteration :=
  match json_loads data with
  | JSONDecodeError =>
    next_frame (send_personal_message (ev_error "Invalid JSON format")
                                      websocket m)
  | other_error => escaped m
  | parsed message =>
    match py_get "type" JNull message with
    | None => escaped m
    | Some message_type =>
      if py_eq_str message_type "ping" then
        next_frame (send_personal_message ev_pong websocket m)
      else if py_eq_str message_type "typing" then
        match data_get "conversation_id" JNull message with
        | None => escaped m
        | Some conversation_id =>
          match data_get "is_typing" (JBool false) message with
          | None => escaped m
          | Some is_typing =>
            match truthy conversation_id, truthy_int agent_id with
            | true, Some a =>
              next_frame (notify_agent_typing conversation_id a is_typing m)
            | _, _ => next_frame m
            end
          end
        end
      else if py_eq_str message_type "viewing" then
        match data_get "conversation_id" JNull message with
        | None => escaped m
        | Some conversation_id =>
          match truthy conversation_id, truthy_int agent_id with
          | true, Some a =>
            next_frame (set_agent_viewing a conversation_id m)
          | _, _ => next_frame m
          end
        end
      else if py_eq_str message_type "stop_viewing" then
        match data_get "conversation_id" JNull message with
        | None => escaped m
        | Some conversation_id =>
          match truthy conversation_id, truthy_int agent_id with
          | true, Some a =>
            next_frame (remove_agent_viewing a conversation_id m)
          | _, _ => next_frame m
          end
        end
      else next_frame m
    end
  end.

(** Lines 26-67: the [while True] loop over the texts the client sends, up
    to the exception that ends it: one that left the inner [try], or the
    WebSocketDisconnect that [receive_text] raises when the client has gone.
    The result is the state of the manager when that exception is raised. *)
Fixpoint while_true (websocket : WebSocket) (agent_id : option Z)
    (frames : list string) (m : Manager) : Manager :=
  match frames with
  | [] => m
  | data :: later =>
    match on_text websocket agent_id data m with
    | next_frame m' => while_true websocket agent_id later m'
    | escaped m' => m'
    end
  end.

(** Lines 19-73: the outer [try]; both of its handlers disconnect. *)
Definition receive_loop (websocket : WebSocket) (agent_id : option Z)
    (frames : list string) (m : Manager) : Manager :=
  disconnect websocket agent_id (while_true websocket agent_id frames m).

(** GET /ws?agent_id=... *)
Definition websocket_endpoint (websocket : WebSocket) (agent_id : option Z)
    (frames : list string) (m : Manager) : Manager :=
  let m := connect websocket agent_id m in
  let m :=
    send_personal_message
      (ev_connected agent_id "Connected to messaging server") websocket m in
  receive_loop websocket agent_id frames m.

(** A [type] the endpoint has no branch for. *)
Definition unrecognized (message_type : JSON) : Prop :=
  message_type ≠ JString "ping" ∧ message_type ≠ JString "typing"
  ∧ message_type ≠ JString "viewing" ∧ message_type ≠ JString "stop_viewing".

End Websocket.
(* ===================================================================== *)
(** ** Concrete stores and the properties stated about them *)
(* ===================================================================== *)

(** The store after Alice has claimed the unowned conversation once. *)
Definition claimed_once : World :=
  (assign_conversation 1 1 false 4 unowned_world).2.

(** "A claim by the current owner is a no-op success: no Conflict, the same
    owner, and no ConversationUpdated broadcast beyond the first claim's." *)
Definition silent_self_claim
    (conversation_id agent_id : Z) (now : datetime) (w : World) : Prop :=
  ∃ resp w',
    assign_conversation conversation_id agent_id false now w = (Return resp, w')
    ∧ owner_of conversation_id w' = owner_of conversation_id w
    ∧ sent w' = sent w.

(** A classifier that answers the same level for every text. *)
Definition constant_classifier (p : MessagePriority)
  : string -> MessagePriority * unit :=
  fun _ => (p, tt).

(** Carol's only conversation is RESOLVED. *)
Definition resolved_world : World :=
  mkWorld (small_db (Conversation.mk 1 7 (Some 1) RESOLVED LOW
                                     (Some "hello") 0 4)) [].

(** Carol has two conversations that count as open. *)
Definition two_open_world : World :=
  mkWorld
    (mkDatabase {[ 7 := carol ]} (<[ 1 := alice ]> {[ 2 := bob ]})
       (<[ 2 := Conversation.mk 2 7 None OPEN LOW (Some "hello") 0 3 ]>
          {[ 3 := Conversation.mk 3 7 (Some 1) IN_PROGRESS HIGH
                                  (Some "again") 1 4 ]})
       ∅) [].



Definition at_most (a b : MessagePriority) : Prop :=
  match a, b with
  | LOW, _ => True
  | MEDIUM, LOW => False
  | MEDIUM, _ => True
  | HIGH, HIGH | HIGH, URGENT => True
  | HIGH, _ => False
  | URGENT, URGENT => True
  | URGENT, _ => False
  end.

(** A stand-in for [json.loads] on the texts of the examples: the empty
    object, an object whose type the endpoint has no branch for, and a ping
    are parsed; a text of a hundred thousand opening brackets exceeds the
    recursion limit (RecursionError); the rest is refused with
    JSONDecodeError. *)
Definition dquote : string := String (Ascii.ascii_of_nat 34) EmptyString.

Definition typed_text (kind : string) : string :=
  "{" +:+ dquote +:+ "type" +:+ dquote +:+ ": "
      +:+ dquote +:+ kind +:+ dquote +:+ "}".

Definition dance_text : string := typed_text "dance".

Definition ping_text : string := typed_text "ping".

Fixpoint brackets (n : nat) : string :=
  match n with
  | O => EmptyString
  | S n' => "[" +:+ brackets n'
  end.

Definition deep_text : string := brackets (Z.to_nat 100000).

Definition example_loads (data : string) : Loads :=
  if decide (data = "{}") then parsed (JObject [])
  else if decide (data = dance_text)
       then parsed (JObject [("type", JString "dance")])
  else if decide (data = ping_text)
       then parsed (JObject [("type", JString "ping")])
  else if decide (data = deep_text) then other_error
  else JSONDecodeError.

(** Two agents connected, one channel each. *)
Definition two_channels : Manager :=
  connect 20 (Some 2) (connect 10 (Some 1) (mkManager ∅ [] ∅)).

(* ===================================================================== *)
(** ** The invariant of a race between two claims *)
(* ===================================================================== *)

(** The coroutine is past its commit. *)
Definition committed (t : AssignTask) : bool :=
  match t with
  | at_broadcast _ _ | at_done (Return _) => true
  | _ => false
  end.

(** What holds of the task of agent [me] racing agent [other], given the
    owner [o] now stored and whether the other task is past its commit. *)
Definition task_ok (conversation_id me other : Z) (a_me a_other : Agent.t)
    (t : AssignTask) (other_committed : bool) (o : option Z) : Prop :=
  match t with
  | at_select_conversation => True
  | at_select_current_agent _ owner =>
    owner = other ∧ o = Some other ∧ other_committed = true
  | at_select_agent loaded =>
    Conversation.id loaded = conversation_id
    ∧ Conversation.agent_id loaded = None
  | at_commit loaded conversation agent =>
    Conversation.id loaded = conversation_id
    ∧ Conversation.agent_id loaded = None
    ∧ Conversation.agent_id conversation = Some me
    ∧ agent = a_me
  | at_broadcast _ agent =>
    agent = a_me
    ∧ (o = Some me ∨ (o = Some other ∧ other_committed = true))
  | at_done (Return resp) =>
    resp = mkAssignResponse true me (Agent.name a_me)
    ∧ (o = Some me ∨ (o = Some other ∧ other_committed = true))
  | at_done (Raise e) =>
    e = HTTPException 409 (conflict_detail (Agent.name a_other))
    ∧ o = Some other ∧ other_committed = true
  end.

(** A stored owner is an agent whose task is past its commit. *)
Definition owner_committed (me other : Z) (t t_other : AssignTask)
    (o : option Z) : Prop :=
  ∀ a, o = Some a ->
       (a = me ∧ committed t = true) ∨ (a = other ∧ committed t_other = true).

Definition race_inv (conversation_id X Y : Z) (a_X a_Y : Agent.t)
    (s : Race) : Prop :=
  agents (db (world s)) !! X = Some a_X
  ∧ agents (db (world s)) !! Y = Some a_Y
  ∧ ∃ c, conversations (db (world s)) !! conversation_id = Some c
         ∧ Conversation.id c = conversation_id
         ∧ task_ok conversation_id X Y a_X a_Y (task_X s)
                   (committed (task_Y s)) (Conversation.agent_id c)
         ∧ task_ok conversation_id Y X a_Y a_X (task_Y s)
                   (committed (task_X s)) (Conversation.agent_id c)
         ∧ owner_committed X Y (task_X s) (task_Y s) (Conversation.agent_id c).

(* ===================================================================== *)
(** ** agents.py *)
(* ===================================================================== *)

(** schemas.AgentCreate *)
Record AgentCreate : Type := mkAgentCreate {
  ac_name : string;
  ac_email : string;
  ac_avatar_url : option string
}.

Definition agent_with_is_online (b : bool) (a : Agent.t) : Agent.t :=
  Agent.mk (Agent.id a) (Agent.name a) (Agent.email a) (Agent.avatar_url a) b
           (Agent.created_at a).

Definition put_agent (a : Agent.t) (d : Database) : Database :=
  mkDatabase (customers d) (<[Agent.id a := a]> (agents d))
             (conversations d) (messages d).

(** [select(Agent).where(Agent.email == email)] *)
Definition agents_with_email (email : string) (d : Database) : list Agent.t :=
  filter (fun a => Agent.email a = Some email) (rows (agents d)).

(** GET /agents/ *)
Definition get_agents : Handler (list Agent.t) :=
  query (fun d => rows (agents d)).

(** GET /agents/{agent_id} *)
Definition get_agent (agent_id : Z) : Handler Agent.t :=
  agent ← select_by_id agents agent_id;
  match agent with
  | None => raise (HTTPException 404 "Agent not found")
  | Some agent => mret agent
  end.

(** POST /agents/.  The new row takes the column defaults: offline, created
    now. *)
Definition create_agent (agent : AgentCreate) (now : datetime)
  : Handler Agent.t :=
  found ← query (agents_with_email (ac_email agent));
  existing ← scalar_one_or_none found;
  match existing with
  | Some _ =>
    raise (HTTPException 400 "Agent with this email already exists")
  | None =>
    aid ← query (fun d => next_id (agents d));
    let db_agent :=
      Agent.mk aid (ac_name agent) (Some (ac_email agent))
               (ac_avatar_url agent) false now in
    commit (put_agent db_agent);;
    mret db_agent
  end.

(** PUT /agents/{agent_id}/online and PUT /agents/{agent_id}/offline differ
    in the flag they store. *)
Definition set_agent_is_online (flag : bool) (agent_id : Z) : Handler Agent.t :=
  agent ← select_by_id agents agent_id;
  match agent with
  | None => raise (HTTPException 404 "Agent not found")
  | Some agent =>
    let agent := agent_with_is_online flag agent in
    commit (put_agent agent);;
    mret agent
  end.

Definition set_agent_online : Z -> Handler Agent.t := set_agent_is_online true.
Definition set_agent_offline : Z -> Handler Agent.t := set_agent_is_online false.

(** No two agents are stored with the same email (the column is unique). *)
Definition agent_emails_unique (d : Database) : Prop :=
  ∀ k1 k2 a1 a2 email,
    agents d !! k1 = Some a1 -> agents d !! k2 = Some a2 ->
    Agent.email a1 = Some email -> Agent.email a2 = Some email -> k1 = k2.

(** No two customers are stored with the same email (the column is unique). *)
Definition customer_emails_unique (d : Database) : Prop :=
  ∀ k1 k2 c1 c2 email,
    customers d !! k1 = Some c1 -> customers d !! k2 = Some c2 ->
    Customer.email c1 = Some email -> Customer.email c2 = Some email ->
    k1 = k2.

(* ===================================================================== *)
(** ** conversations.py: reading, listing, statistics, marking read *)
(* ===================================================================== *)

Definition message_with_read_at (r : option datetime) (m : Message.t)
  : Message.t :=
  Message.mk (Message.id m) (Message.conversation_id m) (Message.customer_id m)
             (Message.agent_id m) (Message.content m)
             (Message.is_from_customer m) (Message.priority m)
             (Message.created_at m) r.

(** The relationship [Conversation.messages]: the messages of the
    conversation, ordered by created_at. *)
Definition created_at_asc (a b : Message.t) : Prop :=
  Message.created_at a ≤ Message.created_at b.

#[global] Instance created_at_asc_dec a b : Decision (created_at_asc a b).
Proof. unfold created_at_asc. apply _. Defined.

Definition messages_of (conversation_id : Z) (d : Database) : list Message.t :=
  merge_sort created_at_asc
    (filter (fun m => Message.conversation_id m = conversation_id)
            (rows (messages d))).

(** [m.is_from_customer and not m.read_at] *)
Definition is_unread (m : Message.t) : Prop :=
  Message.is_from_customer m = true ∧ Message.read_at m = None.

#[global] Instance is_unread_dec m : Decision (is_unread m).
Proof. unfold is_unread. apply _. Defined.

(** [sum(1 for m in conv.messages if m.is_from_customer and not m.read_at)] *)
Definition unread_count (msgs : list Message.t) : Z :=
  Z.of_nat (length (filter is_unread msgs)).

(** schemas.ConversationListResponse: the columns of the conversation, the
    two related rows, the last message and the unread count. *)
Record ConversationListResponse : Type := mkConversationListResponse {
  clr_conversation : Conversation.t;
  clr_customer : option Customer.t;
  clr_assigned_agent : option Agent.t;
  clr_last_message : option Message.t;
  clr_unread_count : Z
}.

(** The body of the [for conv in conversations] loop, with the relationships
    the query loads. *)
Definition list_item (d : Database) (conv : Conversation.t)
  : ConversationListResponse :=
  let msgs := messages_of (Conversation.id conv) d in
  mkConversationListResponse
    conv
    (customers d !! Conversation.customer_id conv)
    (a ← Conversation.agent_id conv; agents d !! a)
    (last msgs)
    (unread_count msgs).

(** The four optional filters of get_conversations, each under its [if]. *)
Definition listing_filter
    (status : option MessageStatus) (priority : option MessagePriority)
    (agent_id : option Z) (unassigned : bool) (c : Conversation.t) : Prop :=
  (∀ s, status = Some s -> Conversation.status c = s)
  ∧ (∀ p, priority = Some p -> Conversation.priority c = p)
  ∧ (∀ a, truthy_int agent_id = Some a -> Conversation.agent_id c = Some a)
  ∧ (unassigned = true -> Conversation.agent_id c = None).

#[global] Instance listing_filter_dec status priority agent_id unassigned c
  : Decision (listing_filter status priority agent_id unassigned c).
Proof.
  unfold listing_filter.
  destruct status, priority, (truthy_int agent_id), unassigned;
    (apply and_dec; [|apply and_dec; [|apply and_dec]]);
    first
      [ solve [left; intros; congruence]
      | match goal with
        | |- Decision (∀ x, Some ?v = Some x -> ?P = x) =>
          destruct (decide (P = v));
            [left; intros ? [= <-]; assumption
            |right; intros H; apply n; exact (H _ eq_refl)]
        | |- Decision (∀ x, Some ?v = Some x -> ?P = Some x) =>
          destruct (decide (P = Some v));
            [left; intros ? [= <-]; assumption
            |right; intros H; apply n; exact (H _ eq_refl)]
        | |- Decision (true = true -> ?P) =>
          destruct (decide P);
            [left; intros _; assumption
            |right; intros H; apply n; exact (H eq_refl)]
        end ].
Defined.

(** The ORDER BY of get_conversations:
    [desc(priority == URGENT), desc(priority == HIGH),
     desc(priority == MEDIUM), desc(updated_at)]. *)
Definition listing_key (c : Conversation.t) : list Z :=
  [ if decide (Conversation.priority c = URGENT) then 1 else 0;
    if decide (Conversation.priority c = HIGH) then 1 else 0;
    if decide (Conversation.priority c = MEDIUM) then 1 else 0;
    Conversation.updated_at c ].

Fixpoint lex_geb (xs ys : list Z) : bool :=
  match xs, ys with
  | x :: xs', y :: ys' =>
    if decide (y < x) then true
    else if decide (x = y) then lex_geb xs' ys' else false
  | _, _ => true
  end.

Definition listed_before (a b : Conversation.t) : Prop :=
  lex_geb (listing_key a) (listing_key b) = true.

#[global] Instance listed_before_dec a b : Decision (listed_before a b).
Proof. unfold listed_before. apply _. Defined.

(** OFFSET and LIMIT as the default engine of database.py (SQLite) takes
    them: a negative offset skips nothing, a negative limit does not bound. *)
Definition sql_offset {A : Type} (skip : Z) (l : list A) : list A :=
  drop (Z.to_nat skip) l.

Definition sql_limit {A : Type} (limit : Z) (l : list A) : list A :=
  if decide (limit < 0) then l else take (Z.to_nat limit) l.

(** The rows get_conversations selects, in order. *)
Definition listed_conversations
    (skip limit : Z) (status : option MessageStatus)
    (priority : option MessagePriority) (agent_id : option Z)
    (unassigned : bool) (d : Database) : list Conversation.t :=
  sql_limit limit
    (sql_offset skip
       (merge_sort listed_before
          (filter (listing_filter status priority agent_id unassigned)
                  (rows (conversations d))))).

(** [ConversationListResponse(...)] validates what it is given: the related
    customer against CustomerResponse and the related agent against
    AgentResponse, whose [email: str] refuses the None of a NULL column with
    a ValidationError.  Their other required fields, and those of the
    conversation and of the last message, are columns the rows here always
    hold. *)
Definition item_validates (item : ConversationListResponse) : bool :=
  match clr_customer item with
  | Some c => bool_decide (is_Some (Customer.email c))
  | None => true
  end
  && match clr_assigned_agent item with
     | Some a => bool_decide (is_Some (Agent.email a))
     | None => true
     end.

(** The [for conv in conversations] loop: the items in the order of the
    rows, or the ValidationError of the first item that is refused. *)
Definition list_items (d : Database) (listed : list Conversation.t)
  : Handler (list ConversationListResponse) :=
  let response := list_item d <$> listed in
  if forallb item_validates response then mret response
  else raise ValidationError.

(** The related customer and agent of a conversation, where stored, have an
    email. *)
Definition related_emails (d : Database) (c : Conversation.t) : Prop :=
  (∀ customer,
     customers d !! Conversation.customer_id c = Some customer ->
     is_Some (Customer.email customer))
  ∧ (∀ a agent,
       Conversation.agent_id c = Some a -> agents d !! a = Some agent ->
       is_Some (Agent.email agent)).

(** GET /conversations/.  skip, limit and agent_id are bound into the
    statement and taken to be [sqlite_integer]s. *)
Definition get_conversations
    (skip limit : Z) (status : option MessageStatus)
    (priority : option MessagePriority) (agent_id : option Z)
    (unassigned : bool) : Handler (list ConversationListResponse) :=
  listed ← query (listed_conversations skip limit status priority agent_id
                                       unassigned);
  d ← query id;
  list_items d listed.

(** GET /conversations/stats *)
Record Stats : Type := mkStats {
  st_by_status : gmap string Z;
  st_by_priority : gmap string Z;
  st_unassigned : Z
}.

Definition count_rows {A : Type} (P : A -> Prop) `{∀ x, Decision (P x)}
    (l : list A) : Z :=
  Z.of_nat (length (filter P l)).

(** [select(col, func.count(id)).group_by(col)] turned into a dictionary
    keyed by [str(value)]: one entry per value that occurs. *)
Definition group_counts {K : Type} `{EqDecision K} (value : K -> string)
    (all : list K) (col : Conversation.t -> K) (l : list Conversation.t)
  : gmap string Z :=
  list_to_map
    ((fun g => (value g, count_rows (fun c => col c = g) l))
       <$> filter (fun g => count_rows (fun c => col c = g) l ≠ 0) all).

Definition is_unassigned_open (c : Conversation.t) : Prop :=
  Conversation.agent_id c = None
  ∧ Conversation.status c ∈ [OPEN; IN_PROGRESS].

#[global] Instance is_unassigned_open_dec c : Decision (is_unassigned_open c).
Proof. unfold is_unassigned_open. apply _. Defined.

Definition get_conversation_stats : Handler Stats :=
  query (fun d =>
           let l := rows (conversations d) in
           mkStats
             (group_counts status_value [OPEN; IN_PROGRESS; RESOLVED; CLOSED]
                           Conversation.status l)
             (group_counts priority_value [LOW; MEDIUM; HIGH; URGENT]
                           Conversation.priority l)
             (count_rows is_unassigned_open l)).

(** schemas.ConversationResponse: the conversation with its customer, its
    agent and its messages, as the query of get_conversation loads them. *)
Record ConversationResponse : Type := mkConversationResponse {
  cr_conversation : Conversation.t;
  cr_customer : option Customer.t;
  cr_assigned_agent : option Agent.t;
  cr_messages : list Message.t
}.

(** GET /conversations/{conversation_id} *)
Definition get_conversation (conversation_id : Z)
  : Handler ConversationResponse :=
  conversation ← select_by_id conversations conversation_id;
  match conversation with
  | None => raise (HTTPException 404 "Conversation not found")
  | Some conversation =>
    query (fun d =>
             mkConversationResponse
               conversation
               (customers d !! Conversation.customer_id conversation)
               (a ← Conversation.agent_id conversation; agents d !! a)
               (messages_of (Conversation.id conversation) d))
  end.

(** The WHERE of mark_messages_read. *)
Definition unread_in (conversation_id : Z) (m : Message.t) : Prop :=
  Message.conversation_id m = conversation_id
  ∧ Message.is_from_customer m = true
  ∧ Message.read_at m = None.

#[global] Instance unread_in_dec conversation_id m
  : Decision (unread_in conversation_id m).
Proof. unfold unread_in. apply _. Defined.

(** The JSON object returned by mark_messages_read. *)
Record MarkReadResponse : Type := mkMarkReadResponse {
  mr_marked_read : Z
}.

(** The [for msg in messages: msg.read_at = now] loop, as flushed. *)
Definition mark_all (now : datetime) (found : list Message.t) (d : Database)
  : Database :=
  foldr (fun m => put_message (message_with_read_at (Some now) m)) d found.

(** POST /conversations/{conversation_id}/read *)
Definition mark_messages_read (conversation_id : Z) (now : datetime)
  : Handler MarkReadResponse :=
  found ← query (fun d => filter (unread_in conversation_id)
                                 (rows (messages d)));
  commit (mark_all now found);;
  mret (mkMarkReadResponse (Z.of_nat (length found))).

(** [select(Conversation).where(Conversation.customer_id == customer_id)
      .order_by(desc(Conversation.updated_at))] *)
Definition conversations_of (customer_id : Z) (d : Database)
  : list Conversation.t :=
  merge_sort updated_at_desc
    (filter (fun c => Conversation.customer_id c = customer_id)
            (rows (conversations d))).

(** GET /customers/{customer_id}/conversations.  customer_id is bound into
    the statement and taken to be a [sqlite_integer]. *)
Definition get_customer_conversations (customer_id : Z)
  : Handler (list ConversationListResponse) :=
  listed ← query (conversations_of customer_id);
  d ← query id;
  list_items d listed.

(* ===================================================================== *)
(** ** Handlers whose broadcast payloads have their own shape *)
(* ===================================================================== *)

(** A handler over the committed database and the payloads of type [E] it
    hands to the manager. *)
Definition HandlerOf (E A : Type) : Type :=
  Database * list E -> Result A * (Database * list E).

#[global] Instance HandlerOf_ret E : MRet (HandlerOf E) :=
  fun A a s => (Return a, s).
#[global] Instance HandlerOf_bind E : MBind (HandlerOf E) :=
  fun A B f m s =>
    match m s with
    | (Return a, s') => f a s'
    | (Raise e, s') => (Raise e, s')
    end.

(** A step that makes no broadcast, run on the database. *)
Definition on_db {E A : Type} (m : Handler A) : HandlerOf E A :=
  fun s => let '(r, w) := m (mkWorld s.1 []) in (r, (db w, s.2)).

(** Modelled from the spec: [await manager.broadcast_...(payload)], kept in
    the order asked, as [broadcast] above. *)
Definition emit {E : Type} (payload : E) : HandlerOf E unit :=
  fun s => (Return tt, (s.1, s.2 ++ [payload])).

(** schemas.ConversationUpdate with [model_dump(exclude_unset=True)]: a field
    is absent (None here) or set, and a field that is set holds a value or
    null. *)
Record ConversationUpdate : Type := mkConversationUpdate {
  cu_status : option (option MessageStatus);
  cu_priority : option (option MessagePriority);
  cu_agent_id : option (option Z)
}.

(** The payload update_conversation broadcasts. *)
Inductive UpdateBroadcast : Type :=
  | update_payload (id : Z) (status priority : string) (agent_id : option Z).

(** [for field, value in update_data.items(): setattr(conversation, field,
    value)].  The columns status and priority are nullable, so a null given
    for one of them is stored as well; the row this leaves is not a
    [Conversation.t], and there is then no result. *)
Definition apply_update (update : ConversationUpdate) (c : Conversation.t)
  : option Conversation.t :=
  c ← match cu_status update with
      | Some (Some s) => Some (Conversation.with_status s c)
      | Some None => None
      | None => Some c
      end;
  c ← match cu_priority update with
      | Some (Some p) => Some (Conversation.with_priority p c)
      | Some None => None
      | None => Some c
      end;
  Some (match cu_agent_id update with
        | Some a => Conversation.with_agent_id a c
        | None => c
        end).

(** The handler after the row is found and changed. *)
Definition store_update (conversation : Conversation.t)
  : HandlerOf UpdateBroadcast Conversation.t :=
  on_db (commit (put_conversation conversation));;
  emit (update_payload (Conversation.id conversation)
                       (status_value (Conversation.status conversation))
                       (priority_value (Conversation.priority conversation))
                       (Conversation.agent_id conversation));;
  mret conversation.

(** PUT /conversations/{conversation_id}.  The handler returns the stored
    row; the related objects of the response are not modelled.  The ids it
    binds, conversation_id and an agent_id that is set, are taken to be
    [sqlite_integer]s.  A request that sets status or priority to null on a
    stored conversation commits the NULL and then fails on
    [conversation.status.value]: it leaves a store that [Database] cannot
    hold and has no outcome here (None). *)
Definition update_conversation
    (conversation_id : Z) (update : ConversationUpdate) (now : datetime)
    (s : Database * list UpdateBroadcast)
  : option (Result Conversation.t * (Database * list UpdateBroadcast)) :=
  match on_db (select_by_id conversations conversation_id) s with
  | (Raise e, s) => Some (Raise e, s)
  | (Return None, s) =>
    Some (Raise (HTTPException 404 "Conversation not found"), s)
  | (Return (Some conversation), s) =>
    conversation ← apply_update update conversation;
    Some (store_update (Conversation.with_updated_at now conversation) s)
  end.

(* ===================================================================== *)
(** ** customers.py: send_customer_message *)
(* ===================================================================== *)

(** The payloads send_customer_message broadcasts: the new conversation as in
    external.py, the new message without the customer's email. *)
Inductive CustomerRouteBroadcast : Type :=
  | route_new_conversation
      (id customer_id : Z) (priority status : string) (subject : option string)
      (customer_name : string) (customer_email : option string)
  | route_new_message
      (id conversation_id customer_id : Z) (content : string) (priority : string)
      (created_at : datetime) (customer_name : string).

Section CustomerRoute.

Context {Confidence : Type}.
Variable detect_priority : string -> MessagePriority * Confidence.

(** [priority.value > conversation.priority.value]: the values are strings. *)
Definition value_greater (priority current : MessagePriority) : bool :=
  String.ltb (priority_value current) (priority_value priority).

(** POST /customers/{customer_id}/messages *)
Definition send_customer_message
    (customer_id : Z) (message : MessageSend) (now : datetime)
  : HandlerOf CustomerRouteBroadcast Message.t :=
  customer ← on_db (select_by_id customers customer_id);
  match customer with
  | None => on_db (raise (HTTPException 404 "Customer not found"))
  | Some customer =>
    let '(priority, confidence) := detect_priority (ms_content message) in
    found ← on_db (query (open_conversations_of customer_id));
    conversation ← on_db (scalar_one_or_none found);
    conversation ←
      match conversation with
      | None =>
        cid ← on_db (query (fun d => next_id (conversations d)));
        let conversation :=
          Conversation.mk cid customer_id None OPEN priority
            (Some (subject_of (ms_content message))) now now in
        on_db (commit (put_conversation conversation));;
        emit (route_new_conversation
                (Conversation.id conversation)
                (Conversation.customer_id conversation)
                (priority_value (Conversation.priority conversation))
                (status_value (Conversation.status conversation))
                (Conversation.subject conversation)
                (Customer.name customer) (Customer.email customer));;
        mret conversation
      | Some conversation =>
        mret (if value_greater priority (Conversation.priority conversation)
              then Conversation.with_priority priority conversation
              else conversation)
      end;
    mid ← on_db (query (fun d => next_id (messages d)));
    let db_message :=
      Message.mk mid (Conversation.id conversation) (Some customer_id) None
                 (ms_content message) true priority now None in
    let conversation := Conversation.with_updated_at now conversation in
    let customer := Customer.with_last_activity now customer in
    on_db (commit (fun d =>
                     put_customer customer
                       (put_conversation conversation
                          (put_message db_message d))));;
    emit (route_new_message
            (Message.id db_message) (Conversation.id conversation) customer_id
            (ms_content message) (priority_value priority)
            (Message.created_at db_message) (Customer.name customer));;
    mret db_message
  end.

End CustomerRoute.

(** The order of the levels by their value strings. *)
Definition value_rank (p : MessagePriority) : Z :=
  match p with
  | HIGH => 0 | LOW => 1 | MEDIUM => 2 | URGENT => 3
  end.

(** A store for the examples: Carol's HIGH conversation with two messages
    from her, one read, and one from Alice. *)
Definition busy_db : Database :=
  mkDatabase {[ 7 := carol ]} (<[ 1 := alice ]> {[ 2 := bob ]})
    (<[ 1 := Conversation.mk 1 7 (Some 1) IN_PROGRESS HIGH (Some "hello") 0 6 ]>
       {[ 2 := Conversation.mk 2 8 None OPEN URGENT (Some "fire") 1 2 ]})
    (<[ 1 := Message.mk 1 1 (Some 7) None "hello" true HIGH 1 (Some 2) ]>
       (<[ 2 := Message.mk 2 1 None (Some 1) "hi Carol" false MEDIUM 3 None ]>
          (<[ 3 := Message.mk 3 1 (Some 7) None "any news?" true LOW 5 None ]>
             {[ 4 := Message.mk 4 2 (Some 8) None "fire" true URGENT 2 None ]}))).

Definition busy_world : World := mkWorld busy_db [].

(** A store for the examples in which every agent and customer has an
    email: Carol's three conversations, one of them Dana's. *)
Definition dana : Agent.t :=
  Agent.mk 1 "Dana" (Some "dana@example.com") None true 0.
Definition erin : Agent.t :=
  Agent.mk 2 "Erin" (Some "erin@example.com") None false 0.

Definition tidy_db : Database :=
  mkDatabase {[ 7 := carol ]} (<[ 1 := dana ]> {[ 2 := erin ]})
    (<[ 1 := Conversation.mk 1 7 (Some 1) IN_PROGRESS HIGH (Some "hello") 0 6 ]>
       (<[ 2 := Conversation.mk 2 7 None OPEN URGENT (Some "fire") 1 2 ]>
          {[ 3 := Conversation.mk 3 7 None RESOLVED HIGH (Some "old") 0 9 ]}))
    (<[ 1 := Message.mk 1 1 (Some 7) None "hello" true HIGH 1 (Some 2) ]>
       {[ 2 := Message.mk 2 2 (Some 7) None "fire" true URGENT 2 None ]}).

Definition tidy_world : World := mkWorld tidy_db [].

(* ===================================================================== *)
(** ** websocket.py: the frames that carry a conversation_id *)
(* ===================================================================== *)

(** The three frame types that carry a conversation_id. *)
Definition presence_kind (kind : string) : Prop :=
  kind = "typing" ∨ kind = "viewing" ∨ kind = "stop_viewing".

(** A stand-in for [json.loads] on three texts of the examples. *)
Definition viewing_text : string :=
  "{" +:+ dquote +:+ "type" +:+ dquote +:+ ": "
      +:+ dquote +:+ "viewing" +:+ dquote +:+ "}".

Definition three_texts_loads (data : string) : Loads :=
  if decide (data = "42") then parsed (JNumber 42)
  else if decide (data = viewing_text)
       then parsed (JObject [("type", JString "viewing")])
       else JSONDecodeError.

(* ===================================================================== *)
(** ** Keys *)
(* ===================================================================== *)

Lemma keyed_lookup {A : Type} (key : A -> Z) (table : gmap Z A) k row :
  keyed key table -> table !! k = Some row -> key row = k.
Proof. intros Hk Hl. exact (Hk k row Hl). Qed.

Lemma keyed_insert {A : Type} (key : A -> Z) (table : gmap Z A) row :
  keyed key table -> keyed key (<[key row := row]> table).
Proof. intros Hk. apply map_Forall_insert_2; [reflexivity | exact Hk]. Qed.

Lemma max_key_bound {A : Type} (table : gmap Z A) k :
  is_Some (table !! k) ->
  k ≤ map_fold (fun k _ acc => Z.max k acc) 0 table.
Proof.
  revert k.
  apply (map_fold_weak_ind
           (fun acc (m : gmap Z A) => ∀ k, is_Some (m !! k) -> k ≤ acc)).
  - intros k [x Hx]. rewrite lookup_empty in Hx. discriminate.
  - intros i x m r Hi IH k Hk.
    destruct (decide (i = k)) as [->|Hne].
    + lia.
    + rewrite lookup_insert_ne in Hk by exact Hne.
      specialize (IH k Hk). lia.
Qed.

Lemma next_id_fresh {A : Type} (table : gmap Z A) :
  table !! next_id table = None.
Proof.
  destruct (table !! next_id table) as [x|] eqn:E; [|reflexivity].
  exfalso. pose proof (max_key_bound table (next_id table)) as Hb.
  rewrite E in Hb. specialize (Hb (mk_is_Some _ _ eq_refl)).
  unfold next_id in Hb. lia.
Qed.

(* ===================================================================== *)
(** ** Running the handler combinators *)
(* ===================================================================== *)

Lemma select_by_id_run {A : Type} (table : Database -> gmap Z A) k w :
  select_by_id table k w = (Return (table (db w) !! k), w).
Proof.
  unfold select_by_id, query, mbind, Handler_bind.
  destruct (table (db w) !! k); reflexivity.
Qed.

Lemma bind_run {A B : Type} (m : Handler A) (f : A -> Handler B) w a w' :
  m w = (Return a, w') -> (m ≫= f) w = f a w'.
Proof. intros H. unfold mbind, Handler_bind. rewrite H. reflexivity. Qed.

Ltac run_handler :=
  repeat first
    [ rewrite select_by_id_run
    | progress (unfold mbind, Handler_bind, mret, Handler_ret, raise, query,
                commit, broadcast; simpl) ].

Lemma assigned_to_another_true conversation agent_id :
  assigned_to_another conversation agent_id = true <->
  ∃ owner, Conversation.agent_id conversation = Some owner ∧ owner ≠ agent_id.
Proof.
  unfold assigned_to_another.
  destruct (Conversation.agent_id conversation) as [o|].
  - rewrite negb_true_iff, bool_decide_eq_false. split.
    + intros H. exists o. split; [reflexivity | exact H].
    + intros (o' & Ho & Hne). congruence.
  - split; [discriminate|]. intros (o' & Ho & _). discriminate.
Qed.

Lemma assigned_to_another_false conversation agent_id :
  assigned_to_another conversation agent_id = false <->
  Conversation.agent_id conversation = None
  ∨ Conversation.agent_id conversation = Some agent_id.
Proof.
  unfold assigned_to_another.
  destruct (Conversation.agent_id conversation) as [o|].
  - rewrite negb_false_iff, bool_decide_eq_true. split.
    + intros ->. right. reflexivity.
    + intros [H|H]; congruence.
  - split; [intros _; left; reflexivity | reflexivity].
Qed.

(* ===================================================================== *)
(** ** Every handler keeps the database well-keyed *)
(* ===================================================================== *)

Lemma keeps_ret {A : Type} (a : A) : keeps_well_keyed (mret a).
Proof. intros w H. exact H. Qed.

Lemma keeps_raise {A : Type} (e : Exception) : keeps_well_keyed (@raise A e).
Proof. intros w H. exact H. Qed.

Lemma keeps_query {A : Type} (f : Database -> A) : keeps_well_keyed (query f).
Proof. intros w H. exact H. Qed.

Lemma keeps_broadcast b : keeps_well_keyed (broadcast b).
Proof. intros w H. exact H. Qed.

Lemma keeps_bind {A B : Type} (m : Handler A) (f : A -> Handler B) :
  keeps_well_keyed m -> (∀ a, keeps_well_keyed (f a)) ->
  keeps_well_keyed (m ≫= f).
Proof.
  intros Hm Hf w Hw. unfold mbind, Handler_bind.
  specialize (Hm w Hw). destruct (m w) as [[a|e] w1]; simpl in *.
  - exact (Hf a w1 Hm).
  - exact Hm.
Qed.

Lemma keeps_commit (f : Database -> Database) :
  (∀ d, well_keyed d -> well_keyed (f d)) -> keeps_well_keyed (commit f).
Proof. intros Hf w Hw. exact (Hf (db w) Hw). Qed.

Lemma keeps_scalar_one_or_none {A : Type} (found : list A) :
  keeps_well_keyed (scalar_one_or_none found).
Proof. destruct found as [|? [|? ?]]; intros w H; exact H. Qed.

Lemma keeps_select_by_id {A : Type} (table : Database -> gmap Z A) k :
  keeps_well_keyed (select_by_id table k).
Proof. intros w H. rewrite select_by_id_run. exact H. Qed.

Lemma empty_database_well_keyed : well_keyed (mkDatabase ∅ ∅ ∅ ∅).
Proof. unfold well_keyed, keyed. simpl. split_and!; apply map_Forall_empty. Qed.

Lemma put_conversation_well_keyed c d :
  well_keyed d -> well_keyed (put_conversation c d).
Proof.
  intros (H1 & H2 & H3 & H4). unfold well_keyed, put_conversation. simpl.
  split_and!; try assumption. apply keyed_insert. exact H3.
Qed.

Lemma put_message_well_keyed m d :
  well_keyed d -> well_keyed (put_message m d).
Proof.
  intros (H1 & H2 & H3 & H4). unfold well_keyed, put_message. simpl.
  split_and!; try assumption. apply keyed_insert. exact H4.
Qed.

Lemma put_customer_well_keyed c d :
  well_keyed d -> well_keyed (put_customer c d).
Proof.
  intros (H1 & H2 & H3 & H4). unfold well_keyed, put_customer. simpl.
  split_and!; try assumption. apply keyed_insert. exact H1.
Qed.

Create HintDb keeps.

#[local] Hint Resolve keeps_ret keeps_raise keeps_query keeps_broadcast
  keeps_scalar_one_or_none keeps_select_by_id
  put_conversation_well_keyed put_message_well_keyed put_customer_well_keyed
  : keeps.

Ltac keeps_step :=
  match goal with
  | |- keeps_well_keyed (_ ≫= _) => apply keeps_bind; [|intros ?]
  | |- keeps_well_keyed (commit _) => apply keeps_commit; intros ? ?
  | |- keeps_well_keyed (match ?x with _ => _ end) => destruct x
  | |- keeps_well_keyed (let '(_, _) := ?x in _) => destruct x
  | |- keeps_well_keyed _ => solve [eauto with keeps]
  | |- well_keyed _ => solve [eauto 6 with keeps]
  end.

Lemma send_agent_message_keeps conversation_id message now :
  keeps_well_keyed (send_agent_message conversation_id message now).
Proof. unfold send_agent_message. repeat keeps_step. Qed.

Lemma assign_conversation_keeps conversation_id agent_id force now :
  keeps_well_keyed (assign_conversation conversation_id agent_id force now).
Proof. unfold assign_conversation. repeat keeps_step. Qed.

Lemma release_conversation_keeps conversation_id agent_id now :
  keeps_well_keyed (release_conversation conversation_id agent_id now).
Proof. unfold release_conversation. repeat keeps_step. Qed.


Lemma receive_external_message_keeps {Confidence : Type}
    (detect_priority : string -> MessagePriority * Confidence) message now :
  keeps_well_keyed (receive_external_message detect_priority message now).
Proof.
  unfold receive_external_message, find_or_create_customer, find_customer.
  repeat keeps_step.
Qed.

(* ===================================================================== *)
(** ** Ownership: agent messages, claim and release *)
(* ===================================================================== *)

Ltac by_evaluation := apply (bool_decide_unpack _); vm_compute; exact I.

Lemma well_keyed_conversation d k c :
  well_keyed d -> conversations d !! k = Some c -> Conversation.id c = k.
Proof. intros (_ & _ & Hk & _) Hl. exact (keyed_lookup _ _ _ _ Hk Hl). Qed.

Lemma owner_of_put w s c :
  owner_of (Conversation.id c) (mkWorld (put_conversation c (db w)) s)
  = Conversation.agent_id c.
Proof.
  unfold owner_of, put_conversation. simpl.
  rewrite lookup_insert_eq. reflexivity.
Qed.

Lemma send_agent_message_rejected w conversation_id message now conversation :
  conversations (db w) !! conversation_id = Some conversation ->
  assigned_to_another conversation (ams_agent_id message) = true ->
  send_agent_message conversation_id message now w
  = (Raise (HTTPException 403
      "This conversation is assigned to another agent. You cannot send messages here."),
     w).
Proof.
  intros Hc Ha. unfold send_agent_message. run_handler.
  rewrite Hc. simpl. rewrite Ha. reflexivity.
Qed.

Lemma send_agent_message_accepted w conversation_id message now conversation
    agent :
  conversations (db w) !! conversation_id = Some conversation ->
  assigned_to_another conversation (ams_agent_id message) = false ->
  agents (db w) !! ams_agent_id message = Some agent ->
  let db_message :=
    Message.mk (next_id (messages (db w))) conversation_id None
               (Some (ams_agent_id message)) (ams_content message) false
               MEDIUM now None in
  let conversation' :=
    Conversation.mk
      (Conversation.id conversation) (Conversation.customer_id conversation)
      (Some (ams_agent_id message))
      (if decide (Conversation.status conversation = OPEN) then IN_PROGRESS
       else Conversation.status conversation)
      (Conversation.priority conversation) (Conversation.subject conversation)
      (Conversation.created_at conversation) now in
  send_agent_message conversation_id message now w
  = (Return db_message,
     mkWorld
       (put_conversation conversation' (put_message db_message (db w)))
       (sent w ++ [broadcast_new_message_agent
                     (Message.id db_message) conversation_id
                     (ams_agent_id message) (ams_content message) "medium" now
                     (Agent.name agent)])).
Proof.
  intros Hc Ha Hg. unfold send_agent_message. run_handler.
  rewrite Hc. simpl. rewrite Ha. run_handler. rewrite Hg. simpl.
  apply assigned_to_another_false in Ha.
  destruct conversation as [i cu o st pr su cr up]; simpl in *.
  destruct Ha as [-> | ->]; simpl; destruct st; reflexivity.
Qed.

(** C3. An agent message on a conversation owned by another agent is rejected
    with HTTP 403 and nothing is stored; on an unowned conversation or one
    owned by the sender it is accepted and stored, the conversation is then
    owned by the sender, and status OPEN has become IN_PROGRESS (any other
    status is kept). *)
Theorem send_agent_message_ownership
    (w : World) (conversation_id : Z) (message : AgentMessageSend)
    (now : datetime) (conversation : Conversation.t) (agent : Agent.t) :
  well_keyed (db w) ->
  conversations (db w) !! conversation_id = Some conversation ->
  agents (db w) !! ams_agent_id message = Some agent ->
  ((∃ owner, Conversation.agent_id conversation = Some owner
             ∧ owner ≠ ams_agent_id message) ->
   send_agent_message conversation_id message now w
   = (Raise (HTTPException 403
        "This conversation is assigned to another agent. You cannot send messages here."),
      w))
  ∧ ((Conversation.agent_id conversation = None
      ∨ Conversation.agent_id conversation = Some (ams_agent_id message)) ->
     ∃ db_message w' conversation',
       send_agent_message conversation_id message now w = (Return db_message, w')
       ∧ Message.conversation_id db_message = conversation_id
       ∧ Message.agent_id db_message = Some (ams_agent_id message)
       ∧ Message.content db_message = ams_content message
       ∧ messages (db w) !! Message.id db_message = None
       ∧ messages (db w') !! Message.id db_message = Some db_message
       ∧ conversations (db w') !! conversation_id = Some conversation'
       ∧ Conversation.agent_id conversation' = Some (ams_agent_id message)
       ∧ (Conversation.status conversation = OPEN ->
          Conversation.status conversation' = IN_PROGRESS)
       ∧ (Conversation.status conversation ≠ OPEN ->
          Conversation.status conversation' = Conversation.status conversation)).
Proof.
  intros Hwk Hc Hg. split.
  - intros Hother. apply assigned_to_another_true in Hother.
    exact (send_agent_message_rejected _ _ _ _ _ Hc Hother).
  - intros Hmine. apply assigned_to_another_false in Hmine.
    pose proof (send_agent_message_accepted _ _ _ now _ _ Hc Hmine Hg) as Hrun.
    simpl in Hrun.
    pose proof (well_keyed_conversation _ _ _ Hwk Hc) as Hid.
    match type of Hrun with
    | _ = (Return ?m, mkWorld (put_conversation ?c ?d) ?s) =>
      exists m, (mkWorld (put_conversation c d) s), c
    end.
    split; [exact Hrun|]. simpl. rewrite Hid.
    split_and!; try reflexivity.
    + apply next_id_fresh.
    + apply lookup_insert_eq.
    + apply lookup_insert_eq.
    + intros ->. reflexivity.
    + intros Hne. destruct (decide _); [contradiction | reflexivity].
Qed.

Lemma send_agent_message_ownership_witness :
  well_keyed (db unowned_world)
  ∧ conversations (db unowned_world) !! 1 = Some unowned_conversation
  ∧ agents (db unowned_world) !! 2 = Some bob
  ∧ ∃ db_message w',
      send_agent_message 1 (mkAgentMessageSend "on it" 1 2) 9 unowned_world
      = (Return db_message, w')
      ∧ owner_of 1 w' = Some 2.
Proof.
  assert (Hwk : well_keyed (db unowned_world)) by by_evaluation.
  assert (Hc : conversations (db unowned_world) !! 1 = Some unowned_conversation)
    by reflexivity.
  assert (Hg : agents (db unowned_world) !! 2 = Some bob) by reflexivity.
  split; [exact Hwk|]. split; [exact Hc|]. split; [exact Hg|].
  destruct (send_agent_message_ownership unowned_world 1
              (mkAgentMessageSend "on it" 1 2) 9 unowned_conversation bob
              Hwk Hc Hg) as [_ Hacc].
  destruct (Hacc (or_introl eq_refl))
    as (m & w' & c' & Hrun & _ & _ & _ & _ & _ & Hc' & Ho & _).
  exists m, w'. split; [exact Hrun|].
  unfold owner_of. rewrite Hc'. exact Ho.
Defined.

Lemma assign_conversation_conflict w conversation_id agent_id force now
    conversation owner :
  conversations (db w) !! conversation_id = Some conversation ->
  conflicting_owner conversation agent_id force = Some owner ->
  assign_conversation conversation_id agent_id force now w
  = (Raise (HTTPException 409
       (conflict_detail
          (match agents (db w) !! owner with
           | Some a => Agent.name a
           | None => "another agent"
           end))), w).
Proof.
  intros Hc Ho. unfold assign_conversation. run_handler.
  rewrite Hc. simpl. rewrite Ho. run_handler.
  destruct (agents (db w) !! owner); reflexivity.
Qed.

Lemma assign_conversation_granted w conversation_id agent_id force now
    conversation agent :
  conversations (db w) !! conversation_id = Some conversation ->
  conflicting_owner conversation agent_id force = None ->
  agents (db w) !! agent_id = Some agent ->
  assign_conversation conversation_id agent_id force now w
  = (Return (mkAssignResponse true agent_id (Agent.name agent)),
     mkWorld
       (put_conversation
          (Conversation.with_updated_at now
             (Conversation.with_agent_id (Some agent_id) conversation))
          (db w))
       (sent w ++ [broadcast_conversation_update
                     (Conversation.id conversation) (Some agent_id)
                     (Some (Agent.name agent))])).
Proof.
  intros Hc Ho Hg. unfold assign_conversation. run_handler.
  rewrite Hc. simpl. rewrite Ho. run_handler. rewrite Hg. reflexivity.
Qed.

Lemma conflicting_owner_other conversation owner agent_id :
  Conversation.agent_id conversation = Some owner -> owner ≠ agent_id ->
  conflicting_owner conversation agent_id false = Some owner
  ∧ conflicting_owner conversation agent_id true = None.
Proof.
  intros Ho Hne. unfold conflicting_owner. rewrite Ho.
  rewrite bool_decide_eq_false_2 by exact Hne. split; reflexivity.
Qed.

Lemma conflicting_owner_unowned conversation agent_id force :
  Conversation.agent_id conversation = None ->
  conflicting_owner conversation agent_id force = None.
Proof. intros Ho. unfold conflicting_owner. rewrite Ho. reflexivity. Qed.

Lemma conflicting_owner_self conversation agent_id force :
  Conversation.agent_id conversation = Some agent_id ->
  conflicting_owner conversation agent_id force = None.
Proof.
  intros Ho. unfold conflicting_owner. rewrite Ho.
  rewrite bool_decide_eq_true_2 by reflexivity. reflexivity.
Qed.

Lemma owner_after_grant w conversation_id agent_id now conversation s :
  well_keyed (db w) ->
  conversations (db w) !! conversation_id = Some conversation ->
  owner_of conversation_id
    (mkWorld
       (put_conversation
          (Conversation.with_updated_at now
             (Conversation.with_agent_id (Some agent_id) conversation))
          (db w)) s)
  = Some agent_id.
Proof.
  intros Hwk Hc. rewrite <- (well_keyed_conversation _ _ _ Hwk Hc).
  exact (owner_of_put w s
           (Conversation.with_updated_at now
              (Conversation.with_agent_id (Some agent_id) conversation))).
Qed.

(** C4. On a conversation owned by agent A, a claim by another agent B
    without force is rejected with HTTP 409, the detail reads
    "This conversation is already assigned to <A's display name>. Use
    force=true to reassign." and the store is unchanged; with force it
    succeeds and B owns the conversation.  A claim on an unowned
    conversation succeeds, forced or not, and the claimant owns it. *)
Theorem assign_conversation_claim
    (w : World) (conversation_id A B : Z) (now : datetime)
    (conversation : Conversation.t) (agent_B : Agent.t) :
  well_keyed (db w) ->
  conversations (db w) !! conversation_id = Some conversation ->
  agents (db w) !! B = Some agent_B ->
  (∀ agent_A,
     Conversation.agent_id conversation = Some A -> A ≠ B ->
     agents (db w) !! A = Some agent_A ->
     assign_conversation conversation_id B false now w
     = (Raise (HTTPException 409
          ("This conversation is already assigned to "
             +:+ Agent.name agent_A +:+ ". Use force=true to reassign.")),
        w)
     ∧ owner_of conversation_id w = Some A)
  ∧ (Conversation.agent_id conversation = Some A -> A ≠ B ->
     ∃ w', assign_conversation conversation_id B true now w
           = (Return (mkAssignResponse true B (Agent.name agent_B)), w')
           ∧ owner_of conversation_id w' = Some B)
  ∧ (Conversation.agent_id conversation = None ->
     ∀ force,
       ∃ w', assign_conversation conversation_id B force now w
             = (Return (mkAssignResponse true B (Agent.name agent_B)), w')
             ∧ owner_of conversation_id w' = Some B).
Proof.
  intros Hwk Hc Hg. split_and!.
  - intros agent_A Ho Hne HA.
    destruct (conflicting_owner_other _ _ _ Ho Hne) as [Hconf _].
    rewrite (assign_conversation_conflict _ _ _ _ now _ _ Hc Hconf).
    rewrite HA. split; [reflexivity|].
    unfold owner_of. rewrite Hc. exact Ho.
  - intros Ho Hne.
    destruct (conflicting_owner_other _ _ _ Ho Hne) as [_ Hfree].
    eexists. split.
    + exact (assign_conversation_granted _ _ _ _ now _ _ Hc Hfree Hg).
    + exact (owner_after_grant _ _ _ _ _ _ Hwk Hc).
  - intros Ho force.
    pose proof (conflicting_owner_unowned _ B force Ho) as Hfree.
    eexists. split.
    + exact (assign_conversation_granted _ _ _ _ now _ _ Hc Hfree Hg).
    + exact (owner_after_grant _ _ _ _ _ _ Hwk Hc).
Qed.

Lemma assign_conversation_claim_witness :
  well_keyed (db claimed_once)
  ∧ conversations (db claimed_once) !! 1
    = Some (Conversation.mk 1 7 (Some 1) OPEN LOW (Some "hello") 0 4)
  ∧ agents (db claimed_once) !! 2 = Some bob
  ∧ assign_conversation 1 2 false 5 claimed_once
    = (Raise (HTTPException 409
         "This conversation is already assigned to Alice. Use force=true to reassign."),
       claimed_once)
  ∧ ∃ w', assign_conversation 1 2 true 5 claimed_once
          = (Return (mkAssignResponse true 2 "Bob"), w')
          ∧ owner_of 1 w' = Some 2.
Proof.
  assert (Hwk : well_keyed (db claimed_once)) by by_evaluation.
  assert (Hc : conversations (db claimed_once) !! 1
               = Some (Conversation.mk 1 7 (Some 1) OPEN LOW (Some "hello") 0 4))
    by (vm_compute; reflexivity).
  assert (Hg : agents (db claimed_once) !! 2 = Some bob)
    by (vm_compute; reflexivity).
  split; [exact Hwk|]. split; [exact Hc|]. split; [exact Hg|].
  destruct (assign_conversation_claim claimed_once 1 1 2 5 _ bob Hwk Hc Hg)
    as (Hrej & Hforce & _).
  split.
  - destruct (Hrej alice) as [Hrefused _];
      [reflexivity | lia | vm_compute; reflexivity |].
    exact Hrefused.
  - apply Hforce; [reflexivity | lia].
Defined.

(** C5. A release asked by anyone but the current owner is rejected with HTTP
    403 and the store, hence agent_id, is unchanged; asked by the owner it
    succeeds, agent_id becomes None and the status is kept. *)
Theorem release_conversation_owner_only
    (w : World) (conversation_id agent_id : Z) (now : datetime)
    (conversation : Conversation.t) :
  well_keyed (db w) ->
  conversations (db w) !! conversation_id = Some conversation ->
  (Conversation.agent_id conversation ≠ Some agent_id ->
   release_conversation conversation_id agent_id now w
   = (Raise (HTTPException 403
        "You can only release conversations assigned to you"), w))
  ∧ (Conversation.agent_id conversation = Some agent_id ->
     ∃ w' conversation',
       release_conversation conversation_id agent_id now w
       = (Return (mkReleaseResponse true "Conversation released"), w')
       ∧ conversations (db w') !! conversation_id = Some conversation'
       ∧ Conversation.agent_id conversation' = None
       ∧ Conversation.status conversation' = Conversation.status conversation).
Proof.
  intros Hwk Hc. split.
  - intros Hne. unfold release_conversation. run_handler.
    rewrite Hc. simpl. destruct (decide _); [reflexivity | contradiction].
  - intros Ho. unfold release_conversation. run_handler.
    rewrite Hc. simpl. destruct (decide _) as [Hne|_]; [contradiction|].
    eexists _, _. split; [reflexivity|]. simpl.
    rewrite (well_keyed_conversation _ _ _ Hwk Hc).
    rewrite lookup_insert_eq. split_and!; reflexivity.
Qed.

Lemma release_conversation_owner_only_witness :
  well_keyed (db claimed_once)
  ∧ conversations (db claimed_once) !! 1
    = Some (Conversation.mk 1 7 (Some 1) OPEN LOW (Some "hello") 0 4)
  ∧ release_conversation 1 2 5 claimed_once
    = (Raise (HTTPException 403
         "You can only release conversations assigned to you"), claimed_once)
  ∧ ∃ w', release_conversation 1 1 5 claimed_once
          = (Return (mkReleaseResponse true "Conversation released"), w')
          ∧ owner_of 1 w' = None.
Proof.
  assert (Hwk : well_keyed (db claimed_once)) by by_evaluation.
  assert (Hc : conversations (db claimed_once) !! 1
               = Some (Conversation.mk 1 7 (Some 1) OPEN LOW (Some "hello") 0 4))
    by (vm_compute; reflexivity).
  split; [exact Hwk|]. split; [exact Hc|].
  split.
  - apply (release_conversation_owner_only claimed_once 1 2 5 _ Hwk Hc).
    simpl. intros [=].
  - destruct (release_conversation_owner_only claimed_once 1 1 5 _ Hwk Hc)
      as [_ Hrel].
    destruct (Hrel eq_refl) as (w' & c' & Hrun & Hc' & Ho & _).
    exists w'. split; [exact Hrun|]. unfold owner_of. rewrite Hc'. exact Ho.
Defined.

(** C6, as the code has it.  A claim by the agent that already owns the
    conversation succeeds, forced or not: no Conflict, and the stored row is
    the old one except for updated_at.  Like every successful claim it is
    followed by one ConversationUpdated broadcast, with the payload the first
    claim had. *)
Theorem assign_conversation_self_claim
    (w : World) (conversation_id agent_id : Z) (force : bool) (now : datetime)
    (conversation : Conversation.t) (agent : Agent.t) :
  well_keyed (db w) ->
  conversations (db w) !! conversation_id = Some conversation ->
  Conversation.agent_id conversation = Some agent_id ->
  agents (db w) !! agent_id = Some agent ->
  ∃ w',
    assign_conversation conversation_id agent_id force now w
    = (Return (mkAssignResponse true agent_id (Agent.name agent)), w')
    ∧ conversations (db w') !! conversation_id
      = Some (Conversation.with_updated_at now conversation)
    ∧ (∀ k, k ≠ conversation_id ->
            conversations (db w') !! k = conversations (db w) !! k)
    ∧ sent w' = sent w ++ [broadcast_conversation_update
                            conversation_id (Some agent_id)
                            (Some (Agent.name agent))].
Proof.
  intros Hwk Hc Ho Hg.
  pose proof (conflicting_owner_self _ _ force Ho) as Hfree.
  pose proof (well_keyed_conversation _ _ _ Hwk Hc) as Hid.
  eexists. split.
  - exact (assign_conversation_granted _ _ _ _ now _ _ Hc Hfree Hg).
  - simpl. rewrite Hid. split_and!.
    + rewrite lookup_insert_eq. f_equal.
      destruct conversation; simpl in *. subst. reflexivity.
    + intros k Hk. rewrite lookup_insert_ne by congruence. reflexivity.
    + reflexivity.
Qed.

Lemma assign_conversation_self_claim_witness :
  well_keyed (db claimed_once)
  ∧ conversations (db claimed_once) !! 1
    = Some (Conversation.mk 1 7 (Some 1) OPEN LOW (Some "hello") 0 4)
  ∧ agents (db claimed_once) !! 1 = Some alice
  ∧ ∃ w', assign_conversation 1 1 false 5 claimed_once
          = (Return (mkAssignResponse true 1 "Alice"), w')
          ∧ sent w' = [broadcast_conversation_update 1 (Some 1) (Some "Alice");
                       broadcast_conversation_update 1 (Some 1) (Some "Alice")].
Proof.
  assert (Hwk : well_keyed (db claimed_once)) by by_evaluation.
  assert (Hc : conversations (db claimed_once) !! 1
               = Some (Conversation.mk 1 7 (Some 1) OPEN LOW (Some "hello") 0 4))
    by (vm_compute; reflexivity).
  assert (Hg : agents (db claimed_once) !! 1 = Some alice)
    by (vm_compute; reflexivity).
  split; [exact Hwk|]. split; [exact Hc|]. split; [exact Hg|].
  destruct (assign_conversation_self_claim claimed_once 1 1 false 5 _ alice
              Hwk Hc eq_refl Hg) as (w' & Hrun & _ & _ & Hsent).
  exists w'. split; [exact Hrun | exact Hsent].
Defined.

(** C6, as stated, fails: Alice claims the unowned conversation, then claims
    it again; the second claim broadcasts ConversationUpdated once more. *)
Lemma self_claim_broadcasts_again : ¬ silent_self_claim 1 1 5 claimed_once.
Proof.
  intros (resp & w' & Hrun & _ & Hsent).
  vm_compute in Hrun. injection Hrun as _ Hw. subst w'.
  vm_compute in Hsent. discriminate Hsent.
Qed.

(** C10. An accepted agent message is stored with priority MEDIUM whatever
    its text, and of the conversations it touches only the addressed row, and
    there only agent_id, status and updated_at: priority, id, customer_id,
    subject and created_at are kept. *)
Theorem send_agent_message_frame
    (w : World) (conversation_id : Z) (message : AgentMessageSend)
    (now : datetime) (conversation : Conversation.t) (agent : Agent.t) :
  well_keyed (db w) ->
  conversations (db w) !! conversation_id = Some conversation ->
  assigned_to_another conversation (ams_agent_id message) = false ->
  agents (db w) !! ams_agent_id message = Some agent ->
  ∃ db_message w' conversation',
    send_agent_message conversation_id message now w = (Return db_message, w')
    ∧ Message.priority db_message = MEDIUM
    ∧ Message.content db_message = ams_content message
    ∧ messages (db w') !! Message.id db_message = Some db_message
    ∧ conversations (db w') !! conversation_id = Some conversation'
    ∧ Conversation.priority conversation' = Conversation.priority conversation
    ∧ Conversation.id conversation' = Conversation.id conversation
    ∧ Conversation.customer_id conversation'
      = Conversation.customer_id conversation
    ∧ Conversation.subject conversation' = Conversation.subject conversation
    ∧ Conversation.created_at conversation'
      = Conversation.created_at conversation
    ∧ (∀ k, k ≠ conversation_id ->
            conversations (db w') !! k = conversations (db w) !! k).
Proof.
  intros Hwk Hc Hmine Hg.
  pose proof (send_agent_message_accepted _ _ _ now _ _ Hc Hmine Hg) as Hrun.
  simpl in Hrun.
  pose proof (well_keyed_conversation _ _ _ Hwk Hc) as Hid.
  match type of Hrun with
  | _ = (Return ?m, mkWorld (put_conversation ?c ?d) ?s) =>
    exists m, (mkWorld (put_conversation c d) s), c
  end.
  split; [exact Hrun|]. simpl. rewrite Hid.
  split_and!; try reflexivity.
  - apply lookup_insert_eq.
  - apply lookup_insert_eq.
  - intros k Hk. rewrite lookup_insert_ne by congruence. reflexivity.
Qed.

Lemma send_agent_message_frame_witness :
  well_keyed (db unowned_world)
  ∧ conversations (db unowned_world) !! 1 = Some unowned_conversation
  ∧ assigned_to_another unowned_conversation 2 = false
  ∧ agents (db unowned_world) !! 2 = Some bob
  ∧ ∃ db_message w' conversation',
      send_agent_message 1 (mkAgentMessageSend "URGENT emergency" 1 2) 9
                         unowned_world = (Return db_message, w')
      ∧ Message.priority db_message = MEDIUM
      ∧ conversations (db w') !! 1 = Some conversation'
      ∧ Conversation.priority conversation' = LOW.
Proof.
  assert (Hwk : well_keyed (db unowned_world)) by by_evaluation.
  assert (Hc : conversations (db unowned_world) !! 1 = Some unowned_conversation)
    by reflexivity.
  assert (Hg : agents (db unowned_world) !! 2 = Some bob) by reflexivity.
  split; [exact Hwk|]. split; [exact Hc|]. split; [reflexivity|].
  split; [exact Hg|].
  destruct (send_agent_message_frame unowned_world 1
              (mkAgentMessageSend "URGENT emergency" 1 2) 9
              unowned_conversation bob Hwk Hc eq_refl Hg)
    as (m & w' & c' & Hrun & Hp & _ & _ & Hc' & Hpr & _).
  exists m, w', c'. split_and!; [exact Hrun | exact Hp | exact Hc' | exact Hpr].
Defined.

(* ===================================================================== *)
(** ** Inbound customer messages *)
(* ===================================================================== *)

Lemma open_conversations_elem customer_id d c :
  c ∈ open_conversations_of customer_id d <->
  (∃ k, conversations d !! k = Some c) ∧ is_open_for customer_id c.
Proof.
  unfold open_conversations_of, rows.
  rewrite merge_sort_Permutation, list_elem_of_filter, list_elem_of_fmap.
  split.
  - intros [Hopen ([k c'] & -> & Hin)]. split; [|exact Hopen].
    exists k. apply elem_of_map_to_list. exact Hin.
  - intros [[k Hk] Hopen]. split; [exact Hopen|].
    exists (k, c). split; [reflexivity|]. apply elem_of_map_to_list. exact Hk.
Qed.

Lemma open_conversation_stored customer_id d c :
  well_keyed d -> c ∈ open_conversations_of customer_id d ->
  conversations d !! Conversation.id c = Some c.
Proof.
  intros Hwk Hin. apply open_conversations_elem in Hin as [[k Hk] _].
  rewrite (well_keyed_conversation _ _ _ Hwk Hk). exact Hk.
Qed.

Lemma find_customer_reads message w :
  (find_customer message w).2 = w.
Proof.
  unfold find_customer. run_handler.
  destruct (truthy_int (ms_customer_id message)) as [cid|]; run_handler.
  - destruct (customers (db w) !! cid); simpl; [reflexivity|].
    destruct (truthy_str (ms_customer_email message)); [|reflexivity].
    destruct (customers_with_email _ _) as [|? [|? ?]]; reflexivity.
  - destruct (truthy_str (ms_customer_email message)); [|reflexivity].
    destruct (customers_with_email _ _) as [|? [|? ?]]; reflexivity.
Qed.

(** Finding or creating the customer touches the customers table only. *)
Lemma find_or_create_customer_cases message now w :
  (∃ e, find_or_create_customer message now w = (Raise e, w))
  ∨ (∃ customer w1,
       find_or_create_customer message now w = (Return customer, w1)
       ∧ conversations (db w1) = conversations (db w)
       ∧ messages (db w1) = messages (db w)
       ∧ agents (db w1) = agents (db w)
       ∧ sent w1 = sent w).
Proof.
  unfold find_or_create_customer.
  pose proof (find_customer_reads message w) as Hreads.
  unfold mbind, Handler_bind.
  destruct (find_customer message w) as [[[customer|]|e] w1];
    simpl in Hreads; subst w1.
  - right. exists customer, w. split_and!; reflexivity.
  - destruct (truthy_str (ms_customer_email message)) as [email|].
    + right. run_handler. eexists _, _. split; [reflexivity|].
      split_and!; reflexivity.
    + left. eexists. reflexivity.
  - left. eexists. reflexivity.
Qed.

Section ExternalFacts.

Context {Confidence : Type}.
Variable detect_priority : string -> MessagePriority * Confidence.

Lemma find_or_create_customer_found message now w customer :
  find_customer message w = (Return (Some customer), w) ->
  find_or_create_customer message now w = (Return customer, w).
Proof.
  intros H. unfold find_or_create_customer.
  rewrite (bind_run _ _ _ _ _ H). reflexivity.
Qed.

Lemma receive_external_message_raised message now w e w1 :
  find_or_create_customer message now w = (Raise e, w1) ->
  receive_external_message detect_priority message now w = (Raise e, w1).
Proof.
  intros H. unfold receive_external_message.
  unfold mbind at 1. unfold Handler_bind. rewrite H. reflexivity.
Qed.

Lemma receive_external_message_many_open message now w customer w1 c1 c2 more :
  find_or_create_customer message now w = (Return customer, w1) ->
  open_conversations_of (Customer.id customer) (db w1) = c1 :: c2 :: more ->
  receive_external_message detect_priority message now w
  = (Raise MultipleResultsFound, w1).
Proof.
  intros Hcust Hopen. unfold receive_external_message.
  rewrite (bind_run _ _ _ _ _ Hcust).
  destruct (detect_priority (ms_content message)) as [p conf].
  run_handler. rewrite Hopen. reflexivity.
Qed.

Lemma receive_external_message_one_open message now w customer w1 conversation :
  find_or_create_customer message now w = (Return customer, w1) ->
  open_conversations_of (Customer.id customer) (db w1) = [conversation] ->
  let priority := (detect_priority (ms_content message)).1 in
  let raised :=
    if decide (priority_order (Conversation.priority conversation)
               < priority_order priority)
    then Conversation.with_priority priority conversation
    else conversation in
  let db_message :=
    Message.mk (next_id (messages (db w1))) (Conversation.id conversation)
               (Some (Customer.id customer)) None (ms_content message) true
               priority now None in
  ∃ log,
    receive_external_message detect_priority message now w
    = (Return (mkExternalResponse true (Message.id db_message)
                 (Conversation.id conversation) (Customer.id customer)
                 (priority_value priority)
                 (detect_priority (ms_content message)).2),
       mkWorld
         (put_customer (Customer.with_last_activity now customer)
            (put_conversation (Conversation.with_updated_at now raised)
               (put_message db_message (db w1))))
         log).
Proof.
  intros Hcust Hopen. unfold receive_external_message.
  rewrite (bind_run _ _ _ _ _ Hcust).
  destruct (detect_priority (ms_content message)) as [p conf].
  run_handler. rewrite Hopen. simpl.
  destruct (decide _); simpl; eexists; reflexivity.
Qed.

Lemma receive_external_message_none_open message now w customer w1 :
  find_or_create_customer message now w = (Return customer, w1) ->
  open_conversations_of (Customer.id customer) (db w1) = [] ->
  let priority := (detect_priority (ms_content message)).1 in
  let created :=
    Conversation.mk (next_id (conversations (db w1))) (Customer.id customer)
                    None OPEN priority
                    (Some (subject_of (ms_content message))) now now in
  let db_message :=
    Message.mk (next_id (messages (db w1))) (Conversation.id created)
               (Some (Customer.id customer)) None (ms_content message) true
               priority now None in
  receive_external_message detect_priority message now w
  = (Return (mkExternalResponse true (Message.id db_message)
               (Conversation.id created) (Customer.id customer)
               (priority_value priority)
               (detect_priority (ms_content message)).2),
     mkWorld
       (put_customer (Customer.with_last_activity now customer)
          (put_conversation (Conversation.with_updated_at now created)
             (put_message db_message (put_conversation created (db w1)))))
       (sent w1 ++
        [broadcast_new_conversation
           (Conversation.id created) (Customer.id customer)
           (priority_value priority) "open"
           (Some (subject_of (ms_content message)))
           (Customer.name customer) (Customer.email customer)] ++
        [broadcast_new_message_customer
           (Message.id db_message) (Conversation.id created)
           (Customer.id customer) (ms_content message)
           (priority_value priority) now
           (Customer.name customer) (Customer.email customer)])).
Proof.
  intros Hcust Hopen. unfold receive_external_message.
  rewrite (bind_run _ _ _ _ _ Hcust).
  destruct (detect_priority (ms_content message)) as [p conf].
  run_handler. rewrite Hopen. simpl.
  rewrite <- app_assoc. reflexivity.
Qed.


End ExternalFacts.


Lemma at_most_priority_order a b :
  at_most a b <-> priority_order a ≤ priority_order b.
Proof. destruct a, b; simpl; split; intros H; try exact I; lia. Qed.



(** C7, at the failing input: Carol has an OPEN and an IN_PROGRESS
    conversation; her next message is not attached to the more recently
    updated one: the request ends in MultipleResultsFound and nothing is
    stored, whatever the classifier. *)
Theorem receive_external_message_two_open_raises :
  ∀ (Confidence : Type)
    (detect_priority : string -> MessagePriority * Confidence),
    open_conversations_of 7 (db two_open_world)
    = [Conversation.mk 3 7 (Some 1) IN_PROGRESS HIGH (Some "again") 1 4;
       Conversation.mk 2 7 None OPEN LOW (Some "hello") 0 3]
    ∧ receive_external_message detect_priority
        (mkMessageSend "any news?" None None (Some 7)) 9 two_open_world
      = (Raise MultipleResultsFound, two_open_world).
Proof.
  intros Confidence detect_priority.
  assert (Hopen : open_conversations_of 7 (db two_open_world)
    = [Conversation.mk 3 7 (Some 1) IN_PROGRESS HIGH (Some "again") 1 4;
       Conversation.mk 2 7 None OPEN LOW (Some "hello") 0 3])
    by (vm_compute; reflexivity).
  split; [exact Hopen|].
  eapply (receive_external_message_many_open detect_priority _ 9 _ carol).
  - apply find_or_create_customer_found. vm_compute. reflexivity.
  - exact Hopen.
Qed.




(* ===================================================================== *)
(** ** The websocket control loop *)
(* ===================================================================== *)

Lemma py_eq_str_false v text : v ≠ JString text -> py_eq_str v text = false.
Proof.
  intros Hne. destruct v; simpl; try reflexivity.
  apply bool_decide_eq_false. intros ->. apply Hne. reflexivity.
Qed.

Lemma send_personal_message_elsewhere event websocket other m :
  other ≠ websocket ->
  delivered (send_personal_message event websocket m) !! other
  = delivered m !! other.
Proof.
  intros Hne. unfold send_personal_message. simpl.
  rewrite lookup_alter_ne by congruence. reflexivity.
Qed.

Lemma send_personal_message_here event websocket m :
  delivered (send_personal_message event websocket m) !! websocket
  = (fun q => q ++ [event]) <$> delivered m !! websocket.
Proof. unfold send_personal_message. simpl. apply lookup_alter_eq. Qed.

Section WebsocketFacts.

Variable json_loads : string -> Loads.

(** C9. A text on which json.loads raises JSONDecodeError makes the endpoint
    send one error event on the sender's own channel and go on with the
    texts that follow; every other channel and the presence registry are as
    before.  A JSON object whose type is none of ping, typing, viewing,
    stop_viewing changes nothing at all, and the loop goes on.  A text on
    which json.loads raises any other exception gets no error event: the
    exception leaves the loop, the texts that follow are not read, and the
    endpoint disconnects the sender. *)
Theorem websocket_bad_frame
    (websocket : WebSocket) (agent_id : option Z) (data : string)
    (later : list string) (m : Manager) :
  (json_loads data = JSONDecodeError ->
   let m' := send_personal_message (ev_error "Invalid JSON format")
                                   websocket m in
   on_text json_loads websocket agent_id data m = next_frame m'
   ∧ while_true json_loads websocket agent_id (data :: later) m
     = while_true json_loads websocket agent_id later m'
   ∧ delivered m' !! websocket
     = (fun q => q ++ [ev_error "Invalid JSON format"])
         <$> delivered m !! websocket
   ∧ (∀ other, other ≠ websocket ->
               delivered m' !! other = delivered m !! other)
   ∧ registry m' = registry m
   ∧ anonymous m' = anonymous m)
  ∧ (∀ members,
       json_loads data = parsed (JObject members) ->
       unrecognized (default JNull (member "type" members)) ->
       on_text json_loads websocket agent_id data m = next_frame m
       ∧ while_true json_loads websocket agent_id (data :: later) m
         = while_true json_loads websocket agent_id later m)
  ∧ (json_loads data = other_error ->
     on_text json_loads websocket agent_id data m = escaped m
     ∧ while_true json_loads websocket agent_id (data :: later) m = m
     ∧ receive_loop json_loads websocket agent_id (data :: later) m
       = disconnect websocket agent_id m).
Proof.
  split_and!.
  - intros Hbad m'.
    assert (Hstep : on_text json_loads websocket agent_id data m = next_frame m').
    { unfold on_text. rewrite Hbad. reflexivity. }
    split; [exact Hstep|].
    split; [simpl; rewrite Hstep; reflexivity|].
    split; [apply send_personal_message_here|].
    split; [|split; reflexivity].
    intros other Hne. apply send_personal_message_elsewhere. exact Hne.
  - intros members Hobj (Hping & Htyping & Hviewing & Hstop).
    assert (Hstep : on_text json_loads websocket agent_id data m = next_frame m).
    { unfold on_text. rewrite Hobj. simpl.
      rewrite !py_eq_str_false by assumption. reflexivity. }
    split; [exact Hstep|]. simpl. rewrite Hstep. reflexivity.
  - intros Hother.
    assert (Hstep : on_text json_loads websocket agent_id data m = escaped m).
    { unfold on_text. rewrite Hother. reflexivity. }
    split; [exact Hstep|].
    assert (Hloop : while_true json_loads websocket agent_id (data :: later) m
                    = m)
      by (simpl; rewrite Hstep; reflexivity).
    split; [exact Hloop|]. unfold receive_loop. rewrite Hloop. reflexivity.
Qed.

(** A JSON text that is not an object has no [get]: the AttributeError
    leaves the inner try and the outer handler disconnects the sender. *)
Lemma websocket_non_object_disconnects
    (websocket : WebSocket) (agent_id : option Z) (data : string)
    (later : list string) (m : Manager) (v : JSON) :
  json_loads data = parsed v ->
  (∀ members, v ≠ JObject members) ->
  receive_loop json_loads websocket agent_id (data :: later) m
  = disconnect websocket agent_id m.
Proof.
  intros Hv Hnot. unfold receive_loop. f_equal. simpl. unfold on_text.
  rewrite Hv.
  destruct v; simpl; try reflexivity.
  exfalso. exact (Hnot _ eq_refl).
Qed.

End WebsocketFacts.

Lemma websocket_bad_frame_witness :
  example_loads "{not json" = JSONDecodeError
  ∧ example_loads dance_text = parsed (JObject [("type", JString "dance")])
  ∧ unrecognized (default JNull (member "type" [("type", JString "dance")]))
  ∧ example_loads deep_text = other_error
  ∧ while_true example_loads 10 (Some 1) ["{not json"; dance_text; ping_text]
               two_channels
    = send_personal_message ev_pong 10
        (send_personal_message (ev_error "Invalid JSON format") 10
                               two_channels)
  ∧ delivered
      (while_true example_loads 10 (Some 1)
                  ["{not json"; dance_text; ping_text] two_channels) !! 10
    = Some [ev_error "Invalid JSON format"; ev_pong]
  ∧ delivered
      (while_true example_loads 10 (Some 1)
                  ["{not json"; dance_text; ping_text] two_channels) !! 20
    = Some []
  ∧ receive_loop example_loads 10 (Some 1) [deep_text; ping_text] two_channels
    = disconnect 10 (Some 1) two_channels.
Proof.
  assert (Hbad : example_loads "{not json" = JSONDecodeError)
    by (vm_compute; reflexivity).
  assert (Hobj : example_loads dance_text
                 = parsed (JObject [("type", JString "dance")]))
    by (vm_compute; reflexivity).
  assert (Hping : example_loads ping_text
                  = parsed (JObject [("type", JString "ping")]))
    by (vm_compute; reflexivity).
  assert (Hdeep : example_loads deep_text = other_error)
    by (vm_compute; reflexivity).
  assert (Hun : unrecognized
                  (default JNull (member "type" [("type", JString "dance")]))).
  { simpl. unfold unrecognized. split_and!; discriminate. }
  split; [exact Hbad|]. split; [exact Hobj|]. split; [exact Hun|].
  split; [exact Hdeep|].
  destruct (websocket_bad_frame example_loads 10 (Some 1) "{not json"
              [dance_text; ping_text] two_channels) as (Hmal & _ & _).
  pose proof (Hmal Hbad) as Hsent. cbv zeta in Hsent.
  destruct Hsent as (_ & Hloop & _).
  destruct (websocket_bad_frame example_loads 10 (Some 1) dance_text
              [ping_text]
              (send_personal_message (ev_error "Invalid JSON format") 10
                                     two_channels)) as (_ & Hign & _).
  destruct (Hign _ Hobj Hun) as [_ Hloop2].
  assert (Hrun : while_true example_loads 10 (Some 1)
                            ["{not json"; dance_text; ping_text] two_channels
                 = send_personal_message ev_pong 10
                     (send_personal_message (ev_error "Invalid JSON format") 10
                                            two_channels)).
  { rewrite Hloop, Hloop2. cbn [while_true]. unfold on_text.
    rewrite Hping. reflexivity. }
  split; [exact Hrun|]. rewrite Hrun.
  split; [vm_compute; reflexivity|]. split; [vm_compute; reflexivity|].
  destruct (websocket_bad_frame example_loads 10 (Some 1) deep_text
              [ping_text] two_channels) as (_ & _ & Hescapes).
  destruct (Hescapes Hdeep) as (_ & _ & Hgone). exact Hgone.
Defined.

(* ===================================================================== *)
(** ** Claims racing on one conversation *)
(* ===================================================================== *)

Lemma flush_row_unshared loaded current :
  Conversation.id current = Conversation.id loaded ->
  flush_row loaded current loaded = current.
Proof.
  intros Hid. destruct loaded, current. simpl in *. subst.
  unfold flush_row, changed. simpl.
  repeat (destruct (decide _) as [->|?]); reflexivity.
Qed.

(** Served alone, the stepped coroutine is the handler. *)
Lemma assign_alone_is_handler w conversation_id agent_id force now :
  well_keyed (db w) ->
  assign_alone conversation_id agent_id force now w
  = (at_done (assign_conversation conversation_id agent_id force now w).1,
     (assign_conversation conversation_id agent_id force now w).2).
Proof.
  intros Hwk. unfold assign_alone, assign_conversation. run_handler.
  destruct (conversations (db w) !! conversation_id) as [c|] eqn:Hc; simpl;
    [|reflexivity].
  destruct (conflicting_owner c agent_id force) as [o|]; simpl.
  - run_handler. destruct (agents (db w) !! o); reflexivity.
  - run_handler. destruct (agents (db w) !! agent_id) as [a|]; simpl;
      [|reflexivity].
    f_equal. f_equal. unfold flush_conversation, put_conversation. simpl.
    f_equal. apply map_eq. intros k.
    destruct (decide (k = Conversation.id c)) as [->|Hne].
    + rewrite lookup_alter_eq, lookup_insert_eq.
      rewrite (well_keyed_conversation _ _ _ Hwk Hc) in *. rewrite Hc. simpl.
      f_equal. apply flush_row_unshared. reflexivity.
    + rewrite lookup_alter_ne, lookup_insert_ne by congruence. reflexivity.
Qed.

(** C1, as stated, fails: both coroutines load the unowned row before either
    commits; both claims return success, no one receives a Conflict, and the
    later commit overwrites the earlier owner. *)
Lemma claim_is_not_atomic : ¬ claim_is_atomic 1 1 2 5 6 unowned_world.
Proof.
  intros Hatomic. specialize (Hatomic interleaved).
  assert (Hfin : finished (race 1 1 2 5 6 interleaved unowned_world)).
  { split; eexists; vm_compute; reflexivity. }
  destruct (Hatomic Hfin) as [(_ & (a & _ & Hy) & _) | (_ & (a & _ & Hx) & _)].
  - vm_compute in Hy. discriminate Hy.
  - vm_compute in Hx. discriminate Hx.
Qed.

Lemma conflicting_owner_none conversation agent_id force :
  conflicting_owner conversation agent_id force = None ->
  force = false ->
  Conversation.agent_id conversation = None
  ∨ Conversation.agent_id conversation = Some agent_id.
Proof.
  unfold conflicting_owner. intros H ->.
  destruct (Conversation.agent_id conversation) as [o|]; [|left; reflexivity].
  destruct (bool_decide (o = agent_id)) eqn:E; simpl in H; [|discriminate].
  apply bool_decide_eq_true in E. subst. right. reflexivity.
Qed.

(** One transition of the task of [me] keeps what holds of both tasks. *)
Lemma assign_step_keeps conversation_id me other a_me a_other now t t_other w c :
  me ≠ other ->
  agents (db w) !! me = Some a_me ->
  agents (db w) !! other = Some a_other ->
  conversations (db w) !! conversation_id = Some c ->
  Conversation.id c = conversation_id ->
  task_ok conversation_id me other a_me a_other t (committed t_other)
          (Conversation.agent_id c) ->
  task_ok conversation_id other me a_other a_me t_other (committed t)
          (Conversation.agent_id c) ->
  owner_committed me other t t_other (Conversation.agent_id c) ->
  let t' := (assign_step conversation_id me false now t w).1 in
  let w' := (assign_step conversation_id me false now t w).2 in
  agents (db w') = agents (db w)
  ∧ ∃ c', conversations (db w') !! conversation_id = Some c'
          ∧ Conversation.id c' = conversation_id
          ∧ task_ok conversation_id me other a_me a_other t'
                    (committed t_other) (Conversation.agent_id c')
          ∧ task_ok conversation_id other me a_other a_me t_other
                    (committed t') (Conversation.agent_id c')
          ∧ owner_committed me other t' t_other (Conversation.agent_id c').
Proof.
  intros Hne Hme Hother Hc Hid Hok Hok' Hown.
  destruct t as [ | loaded owner | loaded | loaded current agent
                | current agent | r ]; simpl in *.
  - (* the row is loaded and the owner checked *)
    rewrite Hc.
    destruct (conflicting_owner c me false) as [o|] eqn:Hconf; simpl.
    + split; [reflexivity|]. exists c.
      unfold conflicting_owner in Hconf.
      destruct (Conversation.agent_id c) as [a|] eqn:Ha; [|discriminate].
      destruct (Hown a eq_refl) as [[_ ?]|[-> Hcomm]]; [discriminate|].
      rewrite bool_decide_eq_false_2 in Hconf by congruence.
      simpl in Hconf. injection Hconf as <-.
      split_and!; try done.
    + split; [reflexivity|]. exists c.
      destruct (conflicting_owner_none _ _ _ Hconf eq_refl) as [Ho|Ho].
      * split_and!; try done.
      * destruct (Hown me Ho) as [[_ ?]|[? _]]; [discriminate|congruence].
  - (* the owner's name is looked up for the 409 *)
    destruct Hok as (-> & Ho & Hcomm). rewrite Hother.
    split; [reflexivity|]. exists c. split_and!; try done.
  - (* the claimant is looked up *)
    destruct Hok as (Hlid & Hlo). rewrite Hme. simpl.
    split; [reflexivity|]. exists c. split_and!; try done.
  - (* the commit *)
    destruct Hok as (Hlid & Hlo & Hco & ->).
    split; [reflexivity|].
    rewrite Hlid, lookup_alter_eq, Hc. simpl.
    eexists. split; [reflexivity|].
    assert (Hnew : changed (Conversation.agent_id loaded)
                           (Conversation.agent_id current)
                           (Conversation.agent_id c) = Some me).
    { unfold changed. rewrite Hlo, Hco.
      destruct (decide _); [discriminate | reflexivity]. }
    simpl. rewrite Hnew. split_and!; try done.
    + left. reflexivity.
    + destruct t_other as [ | ? ? | ? | ? ? ? | ? ? | [?|?] ]; simpl in *;
        try done.
      * destruct Hok' as (_ & _ & ?). discriminate.
      * destruct Hok' as (? & _). split; [done|]. right. done.
      * destruct Hok' as (? & _). split; [done|]. right. done.
      * destruct Hok' as (_ & _ & ?). discriminate.
    + intros a [= <-]. left. done.
  - (* the broadcast *)
    destruct Hok as (-> & Ho).
    split; [reflexivity|]. exists c. split_and!; try done.
  - (* done: nothing moves *)
    split; [reflexivity|]. exists c. split_and!; try done.
Qed.

Lemma owner_committed_swap me other t t_other o :
  owner_committed me other t t_other o -> owner_committed other me t_other t o.
Proof. intros H a Ha. destruct (H a Ha) as [?|?]; [right|left]; assumption. Qed.

Lemma race_inv_step conversation_id X Y a_X a_Y now_X now_Y s turn :
  X ≠ Y ->
  race_inv conversation_id X Y a_X a_Y s ->
  race_inv conversation_id X Y a_X a_Y
           (race_step conversation_id X Y now_X now_Y s turn).
Proof.
  intros Hne (HX & HY & c & Hc & Hid & HokX & HokY & Hown).
  destruct turn; unfold race_step.
  - pose proof (assign_step_keeps conversation_id X Y a_X a_Y now_X
                  (task_X s) (task_Y s) (world s) c
                  Hne HX HY Hc Hid HokX HokY Hown) as Hstep.
    destruct (assign_step conversation_id X false now_X (task_X s) (world s))
      as [tx w']. simpl in Hstep.
    destruct Hstep as (Hag & c' & Hc' & Hid' & HokX' & HokY' & Hown').
    unfold race_inv. simpl. rewrite Hag.
    split; [exact HX|]. split; [exact HY|]. exists c'. split_and!; assumption.
  - pose proof (assign_step_keeps conversation_id Y X a_Y a_X now_Y
                  (task_Y s) (task_X s) (world s) c
                  (not_eq_sym Hne) HY HX Hc Hid HokY HokX
                  (owner_committed_swap _ _ _ _ _ Hown)) as Hstep.
    destruct (assign_step conversation_id Y false now_Y (task_Y s) (world s))
      as [ty w']. simpl in Hstep.
    destruct Hstep as (Hag & c' & Hc' & Hid' & HokY' & HokX' & Hown').
    unfold race_inv. simpl. rewrite Hag.
    split; [exact HX|]. split; [exact HY|]. exists c'.
    split_and!; try assumption.
    exact (owner_committed_swap _ _ _ _ _ Hown').
Qed.

Lemma race_inv_schedule conversation_id X Y a_X a_Y now_X now_Y schedule s :
  X ≠ Y ->
  race_inv conversation_id X Y a_X a_Y s ->
  race_inv conversation_id X Y a_X a_Y
           (fold_left (race_step conversation_id X Y now_X now_Y) schedule s).
Proof.
  intros Hne. revert s.
  induction schedule as [|turn schedule IH]; intros s Hinv; simpl.
  - exact Hinv.
  - apply IH. apply race_inv_step; assumption.
Qed.

Lemma race_inv_finished conversation_id X Y a_X a_Y s :
  race_inv conversation_id X Y a_X a_Y s ->
  finished s ->
  both_or_one_winner conversation_id X Y s.
Proof.
  intros (HX & HY & c & Hc & Hid & HokX & HokY & Hown) [[rx Hx] [ry Hy]].
  unfold both_or_one_winner, one_winner, succeeded, conflict_naming, owner_of.
  rewrite Hx, Hy in *. rewrite Hc. simpl in *.
  destruct rx as [respx|ex], ry as [respy|ey]; simpl in *.
  - right. destruct HokX as (-> & Hox), HokY as (-> & Hoy).
    split; [eexists; split; reflexivity|].
    split; [eexists; split; reflexivity|].
    destruct Hox as [?|[? _]]; [left|right]; assumption.
  - left. left. destruct HokX as (-> & Hox), HokY as (-> & Ho & _).
    split; [eexists; split; reflexivity|].
    split; [exists a_X; split; [exact HX | reflexivity]|]. exact Ho.
  - left. right. destruct HokX as (-> & Ho & _), HokY as (-> & Hoy).
    split; [eexists; split; reflexivity|].
    split; [exists a_Y; split; [exact HY | reflexivity]|]. exact Ho.
  - destruct HokX as (_ & _ & ?). discriminate.
Qed.

Section RaceOnUnowned.

Variables (w : World) (conversation_id X Y : Z) (now_X now_Y : datetime).
Variables (conversation : Conversation.t) (agent_X agent_Y : Agent.t).
Hypothesis Hwk : well_keyed (db w).
Hypothesis Hrow : conversations (db w) !! conversation_id = Some conversation.
Hypothesis Hfree : Conversation.agent_id conversation = None.
Hypothesis Hne : X ≠ Y.
Hypothesis HX : agents (db w) !! X = Some agent_X.
Hypothesis HY : agents (db w) !! Y = Some agent_Y.

Lemma race_inv_start :
  race_inv conversation_id X Y agent_X agent_Y
           (mkRace at_select_conversation at_select_conversation w).
Proof.
  unfold race_inv. simpl. split; [exact HX|]. split; [exact HY|].
  exists conversation. split; [exact Hrow|].
  split; [exact (well_keyed_conversation _ _ _ Hwk Hrow)|].
  split; [exact I|]. split; [exact I|].
  intros a Ha. rewrite Hfree in Ha. discriminate.
Qed.

Lemma race_any_schedule schedule :
  finished (race conversation_id X Y now_X now_Y schedule w) ->
  both_or_one_winner conversation_id X Y
                     (race conversation_id X Y now_X now_Y schedule w).
Proof.
  apply (race_inv_finished conversation_id X Y agent_X agent_Y).
  apply race_inv_schedule; [exact Hne | exact race_inv_start].
Qed.

End RaceOnUnowned.

Lemma race_turn_X conversation_id X Y now_X now_Y tx ty w tx' w' schedule :
  assign_step conversation_id X false now_X tx w = (tx', w') ->
  fold_left (race_step conversation_id X Y now_X now_Y) (turn_X :: schedule)
            (mkRace tx ty w)
  = fold_left (race_step conversation_id X Y now_X now_Y) schedule
              (mkRace tx' ty w').
Proof. intros H. cbn [fold_left race_step task_X task_Y world]. rewrite H. reflexivity. Qed.

Lemma race_turn_Y conversation_id X Y now_X now_Y tx ty w ty' w' schedule :
  assign_step conversation_id Y false now_Y ty w = (ty', w') ->
  fold_left (race_step conversation_id X Y now_X now_Y) (turn_Y :: schedule)
            (mkRace tx ty w)
  = fold_left (race_step conversation_id X Y now_X now_Y) schedule
              (mkRace tx ty' w').
Proof. intros H. cbn [fold_left race_step task_X task_Y world]. rewrite H. reflexivity. Qed.

Lemma step_load conversation_id agent_id now w c :
  conversations (db w) !! conversation_id = Some c ->
  assign_step conversation_id agent_id false now at_select_conversation w
  = (match conflicting_owner c agent_id false with
     | Some owner => at_select_current_agent c owner
     | None => at_select_agent c
     end, w).
Proof.
  intros H. cbn [assign_step]. rewrite H.
  destruct (conflicting_owner c agent_id false); reflexivity.
Qed.

Lemma step_claimant conversation_id agent_id now w c a :
  agents (db w) !! agent_id = Some a ->
  assign_step conversation_id agent_id false now (at_select_agent c) w
  = (at_commit c (Conversation.with_updated_at now
                    (Conversation.with_agent_id (Some agent_id) c)) a, w).
Proof. intros H. cbn [assign_step]. rewrite H. reflexivity. Qed.

Lemma step_owner_name conversation_id agent_id now w c owner a :
  agents (db w) !! owner = Some a ->
  assign_step conversation_id agent_id false now
              (at_select_current_agent c owner) w
  = (at_done (Raise (HTTPException 409 (conflict_detail (Agent.name a)))), w).
Proof. intros H. cbn [assign_step]. rewrite H. reflexivity. Qed.

Lemma flush_row_agent_id loaded agent_id now stored :
  Conversation.agent_id loaded = None ->
  Conversation.agent_id
    (flush_row loaded
       (Conversation.with_updated_at now
          (Conversation.with_agent_id (Some agent_id) loaded)) stored)
  = Some agent_id.
Proof.
  intros H. unfold flush_row, changed. cbn. rewrite H.
  destruct (decide _); [discriminate | reflexivity].
Qed.

Section RaceSchedules.

Variables (w : World) (conversation_id X Y : Z) (now_X now_Y : datetime).
Variables (conversation : Conversation.t) (agent_X agent_Y : Agent.t).
Hypothesis Hwk : well_keyed (db w).
Hypothesis Hrow : conversations (db w) !! conversation_id = Some conversation.
Hypothesis Hfree : Conversation.agent_id conversation = None.
Hypothesis Hne : X ≠ Y.
Hypothesis HX : agents (db w) !! X = Some agent_X.
Hypothesis HY : agents (db w) !! Y = Some agent_Y.

Lemma race_serial :
  race conversation_id X Y now_X now_Y serial_X_then_Y w
  = mkRace
      (at_done (Return (mkAssignResponse true X (Agent.name agent_X))))
      (at_done (Raise (HTTPException 409
                         (conflict_detail (Agent.name agent_X)))))
      (mkWorld
         (flush_conversation conversation
            (Conversation.with_updated_at now_X
               (Conversation.with_agent_id (Some X) conversation)) (db w))
         (sent w ++ [broadcast_conversation_update
                       conversation_id (Some X) (Some (Agent.name agent_X))])).
Proof.
  pose proof (well_keyed_conversation _ _ _ Hwk Hrow) as Hid.
  unfold race, serial_X_then_Y. cbn [replicate app].
  erewrite race_turn_X by (apply step_load; exact Hrow).
  rewrite (conflicting_owner_unowned _ X false Hfree).
  erewrite race_turn_X by (apply step_claimant; exact HX).
  erewrite race_turn_X by reflexivity.
  erewrite race_turn_X by reflexivity.
  erewrite race_turn_X by reflexivity. cbn [db sent].
  erewrite race_turn_Y.
  2:{ apply step_load. cbn [db flush_conversation conversations].
      rewrite Hid, lookup_alter_eq, Hrow. cbn [fmap option_fmap option_map].
      rewrite flush_row_unshared by reflexivity. reflexivity. }
  rewrite (proj1 (conflicting_owner_other
                    (Conversation.with_updated_at now_X
                       (Conversation.with_agent_id (Some X) conversation))
                    X Y eq_refl Hne)).
  erewrite race_turn_Y by (apply step_owner_name; exact HX).
  erewrite race_turn_Y by reflexivity.
  erewrite race_turn_Y by reflexivity.
  erewrite race_turn_Y by reflexivity.
  cbn [fold_left Conversation.id Conversation.with_updated_at
       Conversation.with_agent_id]. rewrite Hid. reflexivity.
Qed.

Lemma race_interleaved :
  race conversation_id X Y now_X now_Y interleaved w
  = mkRace
      (at_done (Return (mkAssignResponse true X (Agent.name agent_X))))
      (at_done (Return (mkAssignResponse true Y (Agent.name agent_Y))))
      (mkWorld
         (flush_conversation conversation
            (Conversation.with_updated_at now_Y
               (Conversation.with_agent_id (Some Y) conversation))
            (flush_conversation conversation
               (Conversation.with_updated_at now_X
                  (Conversation.with_agent_id (Some X) conversation)) (db w)))
         ((sent w ++ [broadcast_conversation_update
                        conversation_id (Some X) (Some (Agent.name agent_X))])
          ++ [broadcast_conversation_update
                conversation_id (Some Y) (Some (Agent.name agent_Y))])).
Proof.
  pose proof (well_keyed_conversation _ _ _ Hwk Hrow) as Hid.
  unfold race, interleaved.
  erewrite race_turn_X by (apply step_load; exact Hrow).
  rewrite (conflicting_owner_unowned _ X false Hfree).
  erewrite race_turn_Y by (apply step_load; exact Hrow).
  rewrite (conflicting_owner_unowned _ Y false Hfree).
  erewrite race_turn_X by (apply step_claimant; exact HX).
  erewrite race_turn_Y by (apply step_claimant; exact HY).
  erewrite race_turn_X by reflexivity.
  erewrite race_turn_Y by reflexivity.
  erewrite race_turn_X by reflexivity.
  erewrite race_turn_Y by reflexivity.
  cbn [fold_left db sent Conversation.id Conversation.with_updated_at
       Conversation.with_agent_id]. rewrite Hid. reflexivity.
Qed.

Lemma owner_after_flush now agent_id d log :
  (∃ c, conversations d !! conversation_id = Some c) ->
  owner_of conversation_id
    (mkWorld
       (flush_conversation conversation
          (Conversation.with_updated_at now
             (Conversation.with_agent_id (Some agent_id) conversation)) d) log)
  = Some agent_id.
Proof.
  pose proof (well_keyed_conversation _ _ _ Hwk Hrow) as Hid.
  intros [c Hc]. unfold owner_of. cbn [db flush_conversation conversations].
  rewrite Hid, lookup_alter_eq, Hc.
  cbn [fmap option_fmap option_map mbind option_bind].
  apply flush_row_agent_id. exact Hfree.
Qed.

Lemma stored_after_flush loaded current :
  ∃ c, conversations (flush_conversation loaded current (db w))
       !! conversation_id = Some c.
Proof.
  cbn [flush_conversation conversations].
  destruct (decide (Conversation.id loaded = conversation_id)) as [->|Hother].
  - rewrite lookup_alter_eq, Hrow. eexists. reflexivity.
  - rewrite lookup_alter_ne by exact Hother. eexists. exact Hrow.
Qed.

Lemma race_serial_outcome :
  finished (race conversation_id X Y now_X now_Y serial_X_then_Y w)
  ∧ one_winner conversation_id X Y
               (race conversation_id X Y now_X now_Y serial_X_then_Y w)
  ∧ owner_of conversation_id
      (world (race conversation_id X Y now_X now_Y serial_X_then_Y w))
    = Some X.
Proof.
  rewrite race_serial. cbn [task_X task_Y world].
  assert (Howner : owner_of conversation_id
            (mkWorld
               (flush_conversation conversation
                  (Conversation.with_updated_at now_X
                     (Conversation.with_agent_id (Some X) conversation))
                  (db w))
               (sent w ++ [broadcast_conversation_update conversation_id
                             (Some X) (Some (Agent.name agent_X))]))
            = Some X).
  { apply owner_after_flush. exists conversation. exact Hrow. }
  split; [split; eexists; reflexivity|].
  split; [|exact Howner].
  left. split; [eexists; split; reflexivity|].
  split; [|exact Howner].
  exists agent_X. split; [exact HX | reflexivity].
Qed.

Lemma race_interleaved_outcome :
  succeeded (task_X (race conversation_id X Y now_X now_Y interleaved w))
  ∧ succeeded (task_Y (race conversation_id X Y now_X now_Y interleaved w))
  ∧ owner_of conversation_id
      (world (race conversation_id X Y now_X now_Y interleaved w))
    = Some Y.
Proof.
  rewrite race_interleaved. cbn [task_X task_Y world].
  split; [eexists; split; reflexivity|].
  split; [eexists; split; reflexivity|].
  apply owner_after_flush. apply stored_after_flush.
Qed.

End RaceSchedules.

(** C1, as the code has it.  Two claims without force race on an unowned
    conversation.  Whatever the interleaving, once both are done the owner is
    X or Y, and either one claim succeeded while the other received the 409
    naming the winner, who owns the conversation, or both succeeded.  Served
    one after the other, X wins and Y receives the 409.  When both load the
    row before either commits, both succeed and the later commit, Y's, owns
    the conversation: the owner check and the owner write are a read and a
    later unconditional write. *)
Theorem assign_conversation_race
    (w : World) (conversation_id X Y : Z) (now_X now_Y : datetime)
    (conversation : Conversation.t) (agent_X agent_Y : Agent.t) :
  well_keyed (db w) ->
  conversations (db w) !! conversation_id = Some conversation ->
  Conversation.agent_id conversation = None ->
  X ≠ Y ->
  agents (db w) !! X = Some agent_X ->
  agents (db w) !! Y = Some agent_Y ->
  (∀ schedule,
     finished (race conversation_id X Y now_X now_Y schedule w) ->
     both_or_one_winner conversation_id X Y
                        (race conversation_id X Y now_X now_Y schedule w))
  ∧ (finished (race conversation_id X Y now_X now_Y serial_X_then_Y w)
     ∧ one_winner conversation_id X Y
                  (race conversation_id X Y now_X now_Y serial_X_then_Y w)
     ∧ owner_of conversation_id
         (world (race conversation_id X Y now_X now_Y serial_X_then_Y w))
       = Some X)
  ∧ (succeeded (task_X (race conversation_id X Y now_X now_Y interleaved w))
     ∧ succeeded (task_Y (race conversation_id X Y now_X now_Y interleaved w))
     ∧ owner_of conversation_id
         (world (race conversation_id X Y now_X now_Y interleaved w))
       = Some Y).
Proof.
  intros Hwk Hrow Hfree Hne HX HY. split; [|split].
  - intros schedule.
    exact (race_any_schedule w conversation_id X Y now_X now_Y conversation
             agent_X agent_Y Hwk Hrow Hfree Hne HX HY schedule).
  - eapply race_serial_outcome; eassumption.
  - eapply race_interleaved_outcome; eassumption.
Qed.

Lemma assign_conversation_race_witness :
  well_keyed (db unowned_world)
  ∧ conversations (db unowned_world) !! 1 = Some unowned_conversation
  ∧ Conversation.agent_id unowned_conversation = None
  ∧ 1 ≠ 2
  ∧ agents (db unowned_world) !! 1 = Some alice
  ∧ agents (db unowned_world) !! 2 = Some bob
  ∧ one_winner 1 1 2 (race 1 1 2 5 6 serial_X_then_Y unowned_world)
  ∧ owner_of 1 (world (race 1 1 2 5 6 interleaved unowned_world)) = Some 2.
Proof.
  assert (Hwk : well_keyed (db unowned_world)) by by_evaluation.
  assert (Hrow : conversations (db unowned_world) !! 1
                 = Some unowned_conversation) by reflexivity.
  assert (Hfree : Conversation.agent_id unowned_conversation = None)
    by reflexivity.
  assert (Hne : (1 : Z) ≠ 2) by lia.
  assert (HX : agents (db unowned_world) !! 1 = Some alice) by reflexivity.
  assert (HY : agents (db unowned_world) !! 2 = Some bob) by reflexivity.
  split; [exact Hwk|]. split; [exact Hrow|]. split; [exact Hfree|].
  split; [exact Hne|]. split; [exact HX|]. split; [exact HY|].
  destruct (assign_conversation_race unowned_world 1 1 2 5 6
              unowned_conversation alice bob Hwk Hrow Hfree Hne HX HY)
    as (_ & (_ & Hserial & _) & (_ & _ & Hlast)).
  split; [exact Hserial | exact Hlast].
Defined.

(* ===================================================================== *)
(** ** Rows of a table *)
(* ===================================================================== *)

Lemma elem_of_rows {A : Type} (table : gmap Z A) x :
  x ∈ rows table <-> ∃ k, table !! k = Some x.
Proof.
  unfold rows. rewrite list_elem_of_fmap. split.
  - intros ([k y] & -> & Hin). exists k. apply elem_of_map_to_list. exact Hin.
  - intros [k Hk]. exists (k, x). split; [reflexivity|].
    apply elem_of_map_to_list. exact Hk.
Qed.

Lemma rows_insert_fresh {A : Type} (table : gmap Z A) k x :
  table !! k = None -> rows (<[k := x]> table) ≡ₚ x :: rows table.
Proof.
  intros Hk. unfold rows. rewrite (map_to_list_insert table k x Hk).
  reflexivity.
Qed.

Lemma rows_split {A : Type} (table : gmap Z A) k x :
  table !! k = Some x -> rows table ≡ₚ x :: rows (delete k table).
Proof.
  intros Hk. rewrite <- (rows_insert_fresh (delete k table) k x)
    by apply lookup_delete_eq.
  rewrite insert_delete_eq, (insert_id table k x Hk). reflexivity.
Qed.

Lemma rows_replace {A : Type} (table : gmap Z A) k x y :
  table !! k = Some x ->
  rows (<[k := y]> table) ≡ₚ y :: rows (delete k table).
Proof.
  intros Hk. rewrite <- (insert_delete_eq table k y).
  apply rows_insert_fresh. apply lookup_delete_eq.
Qed.

Lemma filter_rows_nil {A : Type} (P : A -> Prop) `{∀ x, Decision (P x)}
    (table : gmap Z A) :
  filter P (rows table) = [] <-> ∀ k x, table !! k = Some x -> ¬ P x.
Proof.
  split.
  - intros Hnil k x Hk HP.
    assert (x ∈ filter P (rows table)) as Hin.
    { apply list_elem_of_filter. split; [exact HP|].
      apply elem_of_rows. exists k. exact Hk. }
    rewrite Hnil in Hin. inversion Hin.
  - intros Hnone.
    destruct (filter P (rows table)) as [|x l] eqn:E; [reflexivity|].
    assert (x ∈ filter P (rows table)) as Hin
      by (rewrite E; apply list_elem_of_here).
    apply list_elem_of_filter in Hin as [HP Hin].
    apply elem_of_rows in Hin as [k Hk]. destruct (Hnone k x Hk HP).
Qed.

(** A condition that holds of the rows of one key only selects one row. *)
Lemma filter_rows_unique {A : Type} (P : A -> Prop) `{∀ x, Decision (P x)}
    (table : gmap Z A) k x :
  (∀ k1 k2 x1 x2,
     table !! k1 = Some x1 -> table !! k2 = Some x2 -> P x1 -> P x2 ->
     k1 = k2) ->
  table !! k = Some x -> P x ->
  filter P (rows table) = [x].
Proof.
  intros Huniq Hk HP.
  apply Permutation_singleton_r.
  rewrite (rows_split table k x Hk), filter_cons_True by exact HP.
  assert (filter P (rows (delete k table)) = []) as ->; [|reflexivity].
  apply filter_rows_nil. intros k' x' Hk' HP'.
  destruct (decide (k' = k)) as [->|Hne].
  - rewrite lookup_delete_eq in Hk'. discriminate.
  - rewrite lookup_delete_ne in Hk' by congruence.
    apply Hne. exact (Huniq k' k x' x Hk' Hk HP' HP).
Qed.

(* ===================================================================== *)
(** ** agents.py *)
(* ===================================================================== *)

Lemma create_agent_created w agent now :
  agents_with_email (ac_email agent) (db w) = [] ->
  let db_agent :=
    Agent.mk (next_id (agents (db w))) (ac_name agent) (Some (ac_email agent))
             (ac_avatar_url agent) false now in
  create_agent agent now w
  = (Return db_agent, mkWorld (put_agent db_agent (db w)) (sent w)).
Proof.
  intros Hnone. unfold create_agent. run_handler. rewrite Hnone. reflexivity.
Qed.

(** X1. create_agent with an email no stored agent has stores a new agent
    under a fresh id, offline, with the given name and email; get_agent on
    that id then returns it, and every agent stored before is still there
    unchanged. *)
Theorem create_agent_then_get
    (w : World) (agent : AgentCreate) (now : datetime) :
  (∀ k a, agents (db w) !! k = Some a -> Agent.email a ≠ Some (ac_email agent)) ->
  ∃ db_agent w',
    create_agent agent now w = (Return db_agent, w')
    ∧ agents (db w) !! Agent.id db_agent = None
    ∧ Agent.name db_agent = ac_name agent
    ∧ Agent.email db_agent = Some (ac_email agent)
    ∧ Agent.is_online db_agent = false
    ∧ get_agent (Agent.id db_agent) w' = (Return db_agent, w')
    ∧ (∀ k a, agents (db w) !! k = Some a -> agents (db w') !! k = Some a)
    ∧ conversations (db w') = conversations (db w)
    ∧ sent w' = sent w.
Proof.
  intros Hnew.
  assert (Hnone : agents_with_email (ac_email agent) (db w) = []).
  { apply filter_rows_nil. exact Hnew. }
  pose proof (create_agent_created w agent now Hnone) as Hrun. simpl in Hrun.
  eexists _, _. split; [exact Hrun|]. simpl.
  split; [apply next_id_fresh|]. split_and!; try reflexivity.
  - unfold get_agent. run_handler. rewrite lookup_insert_eq. reflexivity.
  - intros k a Hk.
    assert (k ≠ next_id (agents (db w))) as Hne.
    { intros ->. rewrite next_id_fresh in Hk. discriminate. }
    rewrite lookup_insert_ne by congruence. exact Hk.
Qed.

Lemma create_agent_then_get_witness :
  (∀ k a, agents (db unowned_world) !! k = Some a ->
          Agent.email a ≠ Some "dora@example.com")
  ∧ ∃ db_agent w',
      create_agent (mkAgentCreate "Dora" "dora@example.com" None) 9
                   unowned_world = (Return db_agent, w')
      ∧ Agent.id db_agent = 3
      ∧ get_agent 3 w' = (Return db_agent, w').
Proof.
  assert (Hnew : ∀ k a, agents (db unowned_world) !! k = Some a ->
                        Agent.email a ≠ Some "dora@example.com").
  { apply (filter_rows_nil (fun a => Agent.email a = Some "dora@example.com")).
    vm_compute. reflexivity. }
  split; [exact Hnew|].
  destruct (create_agent_then_get unowned_world
              (mkAgentCreate "Dora" "dora@example.com" None) 9 Hnew)
    as (a & w' & Hrun & _ & _ & _ & _ & Hget & _).
  assert (Hid : Agent.id a = 3).
  { vm_compute in Hrun. injection Hrun as <- _. reflexivity. }
  exists a, w'. rewrite Hid in Hget.
  split; [exact Hrun|]. split; [exact Hid | exact Hget].
Defined.

(** X2. create_agent with an email a stored agent already has is rejected
    with HTTP 400 and stores nothing, when stored emails are unique; and
    whenever it does store an agent, stored emails stay unique. *)
Theorem create_agent_keeps_emails_unique
    (w : World) (agent : AgentCreate) (now : datetime) :
  agent_emails_unique (db w) ->
  (∀ k a, agents (db w) !! k = Some a ->
          Agent.email a = Some (ac_email agent) ->
          create_agent agent now w
          = (Raise (HTTPException 400 "Agent with this email already exists"),
             w))
  ∧ agent_emails_unique (db (create_agent agent now w).2).
Proof.
  intros Huniq. split.
  - intros k a Hk He.
    assert (Hone : agents_with_email (ac_email agent) (db w) = [a]).
    { apply (filter_rows_unique _ _ k); [|exact Hk|exact He].
      intros k1 k2 a1 a2 H1 H2 E1 E2. exact (Huniq k1 k2 a1 a2 _ H1 H2 E1 E2). }
    unfold create_agent. run_handler. rewrite Hone. reflexivity.
  - destruct (agents_with_email (ac_email agent) (db w)) as [|a [|b l]] eqn:E.
    + rewrite (create_agent_created w agent now E). simpl.
      pose proof (proj1 (filter_rows_nil _ _) E) as Hnew.
      intros k1 k2 a1 a2 email H1 H2 E1 E2. simpl in H1, H2.
      destruct (decide (k1 = next_id (agents (db w)))) as [->|N1];
        destruct (decide (k2 = next_id (agents (db w)))) as [->|N2];
        [reflexivity| | |].
      * rewrite lookup_insert_eq in H1. injection H1 as <-.
        rewrite lookup_insert_ne in H2 by congruence.
        simpl in E1. injection E1 as <-. destruct (Hnew k2 a2 H2 E2).
      * rewrite lookup_insert_eq in H2. injection H2 as <-.
        rewrite lookup_insert_ne in H1 by congruence.
        simpl in E2. injection E2 as <-. destruct (Hnew k1 a1 H1 E1).
      * rewrite lookup_insert_ne in H1, H2 by congruence.
        exact (Huniq k1 k2 a1 a2 email H1 H2 E1 E2).
    + unfold create_agent. run_handler. rewrite E. exact Huniq.
    + unfold create_agent. run_handler. rewrite E. exact Huniq.
Qed.

Lemma small_db_agent_emails_unique c : agent_emails_unique (small_db c).
Proof.
  intros k1 k2 a1 a2 email H1 H2 E1 E2. simpl in H1, H2.
  destruct (decide (k1 = 1)) as [->|N1].
  - rewrite lookup_insert_eq in H1. injection H1 as <-. discriminate E1.
  - rewrite lookup_insert_ne in H1 by congruence.
    destruct (decide (k1 = 2)) as [->|N2].
    + rewrite lookup_singleton_eq in H1. injection H1 as <-. discriminate E1.
    + rewrite lookup_singleton_ne in H1 by congruence. discriminate H1.
Qed.

Lemma create_agent_keeps_emails_unique_witness :
  let w1 :=
    (create_agent (mkAgentCreate "Dora" "dora@example.com" None) 9
                  unowned_world).2 in
  agent_emails_unique (db w1)
  ∧ create_agent (mkAgentCreate "Dora again" "dora@example.com" None) 10 w1
    = (Raise (HTTPException 400 "Agent with this email already exists"), w1).
Proof.
  intros w1.
  assert (Huniq : agent_emails_unique (db w1)).
  { apply (create_agent_keeps_emails_unique unowned_world).
    apply small_db_agent_emails_unique. }
  split; [exact Huniq|].
  destruct (create_agent_keeps_emails_unique w1
              (mkAgentCreate "Dora again" "dora@example.com" None) 10 Huniq)
    as [Hdup _].
  apply (Hdup 3 (Agent.mk 3 "Dora" (Some "dora@example.com") None false 9));
    reflexivity.
Defined.

Lemma set_agent_is_online_run w flag agent_id agent :
  agents (db w) !! agent_id = Some agent ->
  set_agent_is_online flag agent_id w
  = (Return (agent_with_is_online flag agent),
     mkWorld (put_agent (agent_with_is_online flag agent) (db w)) (sent w)).
Proof.
  intros Ha. unfold set_agent_is_online. run_handler. rewrite Ha. reflexivity.
Qed.

Lemma well_keyed_agent d k a :
  well_keyed d -> agents d !! k = Some a -> Agent.id a = k.
Proof. intros (_ & Hk & _) Hl. exact (keyed_lookup _ _ _ _ Hk Hl). Qed.

(** X3. For an agent_id the database can bind, set_agent_online and
    set_agent_offline answer 404 for an unknown agent and store nothing; for
    a stored agent they change the is_online column of that agent and
    nothing else, and going online and then offline again leaves the store
    of an agent that was offline exactly as it was. *)
Theorem set_agent_online_offline
    (w : World) (agent_id : Z) :
  well_keyed (db w) ->
  sqlite_integer agent_id ->
  (agents (db w) !! agent_id = None ->
   set_agent_online agent_id w
   = (Raise (HTTPException 404 "Agent not found"), w)
   ∧ set_agent_offline agent_id w
     = (Raise (HTTPException 404 "Agent not found"), w))
  ∧ (∀ agent,
       agents (db w) !! agent_id = Some agent ->
       ∃ w1 w2,
         set_agent_online agent_id w
         = (Return (agent_with_is_online true agent), w1)
         ∧ agents (db w1) !! agent_id = Some (agent_with_is_online true agent)
         ∧ (∀ k, k ≠ agent_id -> agents (db w1) !! k = agents (db w) !! k)
         ∧ conversations (db w1) = conversations (db w)
         ∧ messages (db w1) = messages (db w)
         ∧ customers (db w1) = customers (db w)
         ∧ sent w1 = sent w
         ∧ set_agent_offline agent_id w1
           = (Return (agent_with_is_online false agent), w2)
         ∧ (Agent.is_online agent = false -> w2 = w)).
Proof.
  intros Hwk _. split.
  - intros Hnone. unfold set_agent_online, set_agent_offline,
      set_agent_is_online. run_handler. rewrite Hnone. split; reflexivity.
  - intros agent Ha.
    pose proof (well_keyed_agent _ _ _ Hwk Ha) as Hid.
    unfold set_agent_online, set_agent_offline.
    rewrite (set_agent_is_online_run w true agent_id agent Ha).
    exists (mkWorld (put_agent (agent_with_is_online true agent) (db w))
                    (sent w)),
           (mkWorld (put_agent (agent_with_is_online false agent)
                       (put_agent (agent_with_is_online true agent) (db w)))
                    (sent w)).
    split; [reflexivity|]. simpl. rewrite Hid.
    split; [apply lookup_insert_eq|].
    split; [intros k Hk; rewrite lookup_insert_ne by congruence; reflexivity|].
    split_and!; try reflexivity.
    + erewrite set_agent_is_online_run
        by (simpl; rewrite Hid; apply lookup_insert_eq).
      reflexivity.
    + intros Hoff. destruct w as [d s]. simpl in *. f_equal.
      destruct d as [cu ag co me]. unfold put_agent. simpl in *. f_equal.
      rewrite Hid, insert_insert_eq.
      apply insert_id. rewrite Ha. f_equal.
      destruct agent; simpl in *. subst. reflexivity.
Qed.

Lemma set_agent_online_offline_witness :
  well_keyed (db unowned_world)
  ∧ sqlite_integer 2 ∧ sqlite_integer 5
  ∧ agents (db unowned_world) !! 2 = Some bob
  ∧ (∃ w1,
       set_agent_online 2 unowned_world
       = (Return (agent_with_is_online true bob), w1)
       ∧ set_agent_offline 2 w1 = (Return bob, unowned_world))
  ∧ set_agent_online 5 unowned_world
    = (Raise (HTTPException 404 "Agent not found"), unowned_world).
Proof.
  assert (Hwk : well_keyed (db unowned_world)) by by_evaluation.
  assert (H2 : sqlite_integer 2) by by_evaluation.
  assert (H5 : sqlite_integer 5) by by_evaluation.
  split; [exact Hwk|]. split; [exact H2|]. split; [exact H5|].
  split; [reflexivity|]. split.
  - destruct (set_agent_online_offline unowned_world 2 Hwk H2) as [_ Hset].
    destruct (Hset bob eq_refl)
      as (w1 & w2 & Hon & _ & _ & _ & _ & _ & _ & Hoff & Hback).
    exists w1. split; [exact Hon|].
    rewrite <- (Hback eq_refl). exact Hoff.
  - destruct (set_agent_online_offline unowned_world 5 Hwk H5) as [Hnone _].
    exact (proj1 (Hnone eq_refl)).
Defined.

(** X4. Going offline releases nothing: after set_agent_offline of the owner,
    the conversation is still owned by that agent, another agent's claim
    without force still gets the 409 naming the owner, and another agent's
    message still gets the 403. *)
Theorem offline_owner_keeps_conversation
    (w : World) (conversation_id A B : Z) (now : datetime)
    (message : AgentMessageSend)
    (conversation : Conversation.t) (agent_A : Agent.t) :
  well_keyed (db w) ->
  conversations (db w) !! conversation_id = Some conversation ->
  Conversation.agent_id conversation = Some A ->
  A ≠ B ->
  ams_agent_id message = B ->
  agents (db w) !! A = Some agent_A ->
  ∃ w1,
    set_agent_offline A w = (Return (agent_with_is_online false agent_A), w1)
    ∧ owner_of conversation_id w1 = Some A
    ∧ assign_conversation conversation_id B false now w1
      = (Raise (HTTPException 409 (conflict_detail (Agent.name agent_A))), w1)
    ∧ send_agent_message conversation_id message now w1
      = (Raise (HTTPException 403
           "This conversation is assigned to another agent. You cannot send messages here."),
         w1).
Proof.
  intros Hwk Hc Ho Hne HB HA.
  pose proof (well_keyed_agent _ _ _ Hwk HA) as Hid.
  unfold set_agent_offline.
  rewrite (set_agent_is_online_run w false A agent_A HA).
  set (w1 := mkWorld (put_agent (agent_with_is_online false agent_A) (db w))
                     (sent w)).
  assert (Hc1 : conversations (db w1) !! conversation_id = Some conversation)
    by exact Hc.
  exists w1. split; [reflexivity|].
  split; [unfold owner_of; rewrite Hc1; exact Ho|].
  split.
  - destruct (conflicting_owner_other _ _ _ Ho Hne) as [Hconf _].
    rewrite (assign_conversation_conflict w1 conversation_id B false now
               conversation A Hc1 Hconf).
    simpl. rewrite Hid, lookup_insert_eq. reflexivity.
  - apply (send_agent_message_rejected w1 conversation_id message now
             conversation Hc1).
    apply assigned_to_another_true. exists A. split; [exact Ho|]. congruence.
Qed.

Lemma offline_owner_keeps_conversation_witness :
  well_keyed (db claimed_once)
  ∧ conversations (db claimed_once) !! 1
    = Some (Conversation.mk 1 7 (Some 1) OPEN LOW (Some "hello") 0 4)
  ∧ agents (db claimed_once) !! 1 = Some alice
  ∧ ∃ w1,
      set_agent_offline 1 claimed_once
      = (Return (agent_with_is_online false alice), w1)
      ∧ assign_conversation 1 2 false 5 w1
        = (Raise (HTTPException 409 (conflict_detail "Alice")), w1).
Proof.
  assert (Hwk : well_keyed (db claimed_once)) by by_evaluation.
  assert (Hc : conversations (db claimed_once) !! 1
               = Some (Conversation.mk 1 7 (Some 1) OPEN LOW (Some "hello") 0 4))
    by (vm_compute; reflexivity).
  assert (HA : agents (db claimed_once) !! 1 = Some alice)
    by (vm_compute; reflexivity).
  split; [exact Hwk|]. split; [exact Hc|]. split; [exact HA|].
  destruct (offline_owner_keeps_conversation claimed_once 1 1 2 5
              (mkAgentMessageSend "mine now" 1 2) _ alice
              Hwk Hc eq_refl ltac:(lia) eq_refl HA)
    as (w1 & Hoff & _ & Hclaim & _).
  exists w1. split; [exact Hoff | exact Hclaim].
Defined.

(* ===================================================================== *)
(** ** conversations.py: marking read, reading, listing *)
(* ===================================================================== *)

Lemma well_keyed_message d k m :
  well_keyed d -> messages d !! k = Some m -> Message.id m = k.
Proof. intros (_ & _ & _ & Hk) Hl. exact (keyed_lookup _ _ _ _ Hk Hl). Qed.

Lemma mark_all_tables now found d :
  customers (mark_all now found d) = customers d
  ∧ agents (mark_all now found d) = agents d
  ∧ conversations (mark_all now found d) = conversations d.
Proof.
  induction found as [|m found IH]; simpl; [split_and!; reflexivity|].
  exact IH.
Qed.

Lemma mark_all_elsewhere now found d k :
  (∀ m, m ∈ found -> Message.id m ≠ k) ->
  messages (mark_all now found d) !! k = messages d !! k.
Proof.
  induction found as [|m found IH]; intros Hk; simpl; [reflexivity|].
  rewrite lookup_insert_ne.
  - apply IH. intros m' Hin. apply Hk. apply list_elem_of_further. exact Hin.
  - simpl. apply Hk. apply list_elem_of_here.
Qed.

Lemma mark_all_here now found d m :
  m ∈ found ->
  (∀ m', m' ∈ found -> Message.id m' = Message.id m -> m' = m) ->
  messages (mark_all now found d) !! Message.id m
  = Some (message_with_read_at (Some now) m).
Proof.
  induction found as [|m0 found IH]; intros Hin Huniq; [inversion Hin|].
  simpl. destruct (decide (Message.id m0 = Message.id m)) as [E|N].
  - rewrite (Huniq m0 (list_elem_of_here _ _) E).
    apply lookup_insert_eq.
  - rewrite lookup_insert_ne by exact N.
    apply IH.
    + apply elem_of_cons in Hin as [->|Hin]; [contradiction|exact Hin].
    + intros m' Hin' E. apply Huniq; [apply list_elem_of_further|]; assumption.
Qed.

Lemma unread_found d conversation_id m :
  m ∈ filter (unread_in conversation_id) (rows (messages d)) <->
  unread_in conversation_id m ∧ ∃ k, messages d !! k = Some m.
Proof. rewrite list_elem_of_filter, elem_of_rows. reflexivity. Qed.

(** The count mark_messages_read returns is the unread count of listings. *)
Lemma unread_found_count d conversation_id :
  Z.of_nat (length (filter (unread_in conversation_id) (rows (messages d))))
  = unread_count (messages_of conversation_id d).
Proof.
  unfold unread_count, messages_of. f_equal.
  rewrite (merge_sort_Permutation created_at_asc), list_filter_filter.
  f_equal. apply list_filter_iff. intros m. unfold unread_in, is_unread.
  tauto.
Qed.

(** What one run of mark_messages_read returns and stores. *)
Lemma mark_messages_read_marks
    (w : World) (conversation_id : Z) (now : datetime) :
  well_keyed (db w) ->
  ∃ w',
    mark_messages_read conversation_id now w
    = (Return (mkMarkReadResponse
                 (unread_count (messages_of conversation_id (db w)))), w')
    ∧ (∀ k m,
         messages (db w) !! k = Some m ->
         messages (db w') !! k
         = Some (if decide (unread_in conversation_id m)
                 then message_with_read_at (Some now) m else m))
    ∧ (∀ k, messages (db w) !! k = None -> messages (db w') !! k = None)
    ∧ conversations (db w') = conversations (db w)
    ∧ sent w' = sent w.
Proof.
  intros Hwk.
  set (found := filter (unread_in conversation_id) (rows (messages (db w)))).
  exists (mkWorld (mark_all now found (db w)) (sent w)).
  assert (Hstored : ∀ m, m ∈ found -> messages (db w) !! Message.id m = Some m).
  { intros m Hin. apply unread_found in Hin as [_ [k Hk]].
    rewrite (well_keyed_message _ _ _ Hwk Hk). exact Hk. }
  split.
  { unfold mark_messages_read. run_handler. fold found.
    rewrite <- unread_found_count. reflexivity. }
  simpl. split; [|split; [|split; [apply mark_all_tables | reflexivity]]].
  - intros k m Hk.
    pose proof (well_keyed_message _ _ _ Hwk Hk) as Hid.
    destruct (decide (unread_in conversation_id m)) as [Hun|Hread].
    + rewrite <- Hid. apply mark_all_here.
      * apply unread_found. split; [exact Hun|]. exists k. exact Hk.
      * intros m' Hin' E. specialize (Hstored m' Hin').
        rewrite E, Hid, Hk in Hstored. congruence.
    + rewrite mark_all_elsewhere; [exact Hk|].
      intros m' Hin' E. pose proof (Hstored m' Hin') as Hm'.
      rewrite E, Hk in Hm'. injection Hm' as ->.
      apply unread_found in Hin' as [Hun _]. contradiction.
  - intros k Hk. rewrite mark_all_elsewhere; [exact Hk|].
    intros m' Hin' E. pose proof (Hstored m' Hin') as Hm'.
    rewrite E, Hk in Hm'. discriminate.
Qed.

(** X5. For a conversation_id the database can bind, stored or not,
    mark_messages_read does not answer 404.  It returns the number of unread
    customer messages of the conversation, the unread count that listings
    report; it sets read_at to now on exactly those messages and leaves
    every other stored message, every conversation and the broadcast log as
    they were, adding no message. *)
Theorem mark_messages_read_effect
    (w : World) (conversation_id : Z) (now : datetime) :
  well_keyed (db w) ->
  sqlite_integer conversation_id ->
  ∃ w',
    mark_messages_read conversation_id now w
    = (Return (mkMarkReadResponse
                 (unread_count (messages_of conversation_id (db w)))), w')
    ∧ (∀ k m,
         messages (db w) !! k = Some m ->
         messages (db w') !! k
         = Some (if decide (unread_in conversation_id m)
                 then message_with_read_at (Some now) m else m))
    ∧ (∀ k, messages (db w) !! k = None -> messages (db w') !! k = None)
    ∧ conversations (db w') = conversations (db w)
    ∧ sent w' = sent w.
Proof. intros Hwk _. exact (mark_messages_read_marks w conversation_id now Hwk). Qed.

Lemma busy_world_well_keyed : well_keyed (db busy_world).
Proof. by_evaluation. Qed.

Lemma mark_messages_read_effect_witness :
  well_keyed (db busy_world)
  ∧ sqlite_integer 1
  ∧ ∃ w',
      mark_messages_read 1 9 busy_world = (Return (mkMarkReadResponse 1), w')
      ∧ (Message.read_at <$> messages (db w') !! 3) = Some (Some 9)
      ∧ (Message.read_at <$> messages (db w') !! 2) = Some None
      ∧ (Message.read_at <$> messages (db w') !! 4) = Some None.
Proof.
  assert (Hwk : well_keyed (db busy_world)) by by_evaluation.
  assert (H1 : sqlite_integer 1) by by_evaluation.
  split; [exact Hwk|]. split; [exact H1|].
  destruct (mark_messages_read_effect busy_world 1 9 Hwk H1)
    as (w' & Hrun & Hmsg & _).
  exists w'. split; [exact Hrun|].
  rewrite (Hmsg 3 (Message.mk 3 1 (Some 7) None "any news?" true LOW 5 None)
             eq_refl).
  rewrite (Hmsg 2 (Message.mk 2 1 None (Some 1) "hi Carol" false MEDIUM 3 None)
             eq_refl).
  rewrite (Hmsg 4 (Message.mk 4 2 (Some 8) None "fire" true URGENT 2 None)
             eq_refl).
  split_and!; reflexivity.
Defined.

(** X6. For a conversation_id the database can bind: after
    mark_messages_read the conversation has no unread customer message, its
    unread count is 0, and marking again (at any later time) returns 0 and
    changes nothing. *)
Theorem mark_messages_read_twice
    (w : World) (conversation_id : Z) (now later : datetime) :
  well_keyed (db w) ->
  sqlite_integer conversation_id ->
  let w' := (mark_messages_read conversation_id now w).2 in
  unread_count (messages_of conversation_id (db w')) = 0
  ∧ mark_messages_read conversation_id later w'
    = (Return (mkMarkReadResponse 0), w').
Proof.
  intros Hwk _ w'.
  destruct (mark_messages_read_marks w conversation_id now Hwk)
    as (w1 & Hrun & Hmsg & Hnone & _).
  assert (w' = w1) as -> by (unfold w'; rewrite Hrun; reflexivity).
  assert (Hclean : filter (unread_in conversation_id)
                          (rows (messages (db w1))) = []).
  { apply filter_rows_nil. intros k m Hk Hun.
    destruct (messages (db w) !! k) as [m0|] eqn:Hk0.
    - rewrite (Hmsg k m0 Hk0) in Hk. injection Hk as <-.
      destruct (decide (unread_in conversation_id m0)) as [H0|H0].
      + destruct Hun as (_ & _ & Hr). discriminate Hr.
      + contradiction.
    - rewrite (Hnone k Hk0) in Hk. discriminate. }
  split.
  - rewrite <- unread_found_count, Hclean. reflexivity.
  - unfold mark_messages_read. run_handler. rewrite Hclean. simpl.
    destruct w1. reflexivity.
Qed.

Lemma mark_messages_read_twice_witness :
  well_keyed (db busy_world)
  ∧ sqlite_integer 1
  ∧ unread_count (messages_of 1 (db busy_world)) = 1
  ∧ unread_count (messages_of 1 (db (mark_messages_read 1 9 busy_world).2)) = 0
  ∧ mark_messages_read 1 12 (mark_messages_read 1 9 busy_world).2
    = (Return (mkMarkReadResponse 0), (mark_messages_read 1 9 busy_world).2).
Proof.
  assert (Hwk : well_keyed (db busy_world)) by by_evaluation.
  assert (H1 : sqlite_integer 1) by by_evaluation.
  split; [exact Hwk|]. split; [exact H1|]. split; [vm_compute; reflexivity|].
  exact (mark_messages_read_twice busy_world 1 9 12 Hwk H1).
Defined.

Lemma StronglySorted_lookup {A : Type} (R : relation A) (l : list A) i j a b :
  StronglySorted R l -> (i < j)%nat ->
  l !! i = Some a -> l !! j = Some b -> R a b.
Proof.
  intros Hs. revert i j. induction Hs as [|x l Hs IH Hall]; intros i j Hij Hi Hj.
  - rewrite lookup_nil in Hi. discriminate.
  - destruct j as [|j]; [lia|]. simpl in Hj. destruct i as [|i].
    + simpl in Hi. injection Hi as <-.
      rewrite List.Forall_forall in Hall. apply Hall.
      apply list_elem_of_In. apply list_elem_of_lookup. exists j. exact Hj.
    + simpl in Hi. apply (IH i j); [lia | exact Hi | exact Hj].
Qed.

Lemma sql_window_lookup {A : Type} (skip limit : Z) (l : list A) i x :
  sql_limit limit (sql_offset skip l) !! i = Some x ->
  l !! (Z.to_nat skip + i)%nat = Some x.
Proof.
  unfold sql_limit, sql_offset. destruct (decide (limit < 0)).
  - rewrite lookup_drop. intros H; exact H.
  - rewrite lookup_take. destruct (decide (i < Z.to_nat limit)%nat);
      [|discriminate].
    rewrite lookup_drop. intros H; exact H.
Qed.

Lemma sql_window_elem {A : Type} (skip limit : Z) (l : list A) x :
  x ∈ sql_limit limit (sql_offset skip l) -> x ∈ l.
Proof.
  intros Hin. apply list_elem_of_lookup in Hin as [i Hi].
  apply list_elem_of_lookup. eexists. exact (sql_window_lookup _ _ _ _ _ Hi).
Qed.

(** The ORDER BY of get_conversations is the order of priority_order, the
    most urgent first, and within a level the most recently updated first. *)
Lemma listed_before_spec a b :
  listed_before a b <->
  priority_order (Conversation.priority b)
  < priority_order (Conversation.priority a)
  ∨ (Conversation.priority a = Conversation.priority b
     ∧ Conversation.updated_at b ≤ Conversation.updated_at a).
Proof.
  unfold listed_before, listing_key.
  destruct (Conversation.priority a), (Conversation.priority b); simpl;
    repeat (destruct (decide _); simpl);
    split; intros H; try discriminate H; try reflexivity; try lia;
    try (right; split; [reflexivity | lia]);
    try (left; lia);
    try (destruct H as [H|[H1 H2]]; [lia | first [discriminate H1 | lia]]).
Qed.

Lemma listed_before_total : Total listed_before.
Proof.
  intros a b. rewrite !listed_before_spec.
  destruct (Conversation.priority a), (Conversation.priority b); simpl;
    try (left; left; lia); try (right; left; lia);
    destruct (decide (Conversation.updated_at b ≤ Conversation.updated_at a));
    [left|right|left|right|left|right|left|right]; right;
    (split; [reflexivity | lia]).
Qed.

Lemma listed_before_trans : Transitive listed_before.
Proof.
  intros a b c. rewrite !listed_before_spec.
  intros [H1|[E1 H1]] [H2|[E2 H2]].
  - left. lia.
  - left. rewrite <- E2. exact H1.
  - left. rewrite E1. exact H2.
  - right. split; [congruence | lia].
Qed.

Lemma item_validates_spec d c :
  item_validates (list_item d c) = true <-> related_emails d c.
Proof.
  unfold item_validates, list_item, related_emails. simpl.
  rewrite andb_true_iff. split.
  - intros [Hcu Hag]. split.
    + intros customer Hl. rewrite Hl in Hcu.
      apply bool_decide_eq_true in Hcu. exact Hcu.
    + intros a agent Ha Hl. rewrite Ha in Hag. simpl in Hag.
      rewrite Hl in Hag. apply bool_decide_eq_true in Hag. exact Hag.
  - intros [Hcu Hag]. split.
    + destruct (customers d !! Conversation.customer_id c) as [customer|];
        [|reflexivity].
      apply bool_decide_eq_true. apply Hcu. reflexivity.
    + destruct (Conversation.agent_id c) as [a|]; [|reflexivity]. simpl.
      destruct (agents d !! a) as [agent|] eqn:Hl; [|reflexivity].
      apply bool_decide_eq_true. exact (Hag a agent eq_refl Hl).
Qed.

Lemma related_emails_checked d listed :
  forallb item_validates (list_item d <$> listed) = true <->
  ∀ c, c ∈ listed -> related_emails d c.
Proof.
  rewrite forallb_forall. split.
  - intros H c Hin. apply item_validates_spec. apply H.
    apply list_elem_of_In. apply list_elem_of_fmap. exists c.
    split; [reflexivity | exact Hin].
  - intros H item Hin. apply list_elem_of_In in Hin.
    apply list_elem_of_fmap in Hin as (c & -> & Hin).
    apply item_validates_spec. exact (H c Hin).
Qed.

Lemma list_items_valid d listed w :
  (∀ c, c ∈ listed -> related_emails d c) ->
  list_items d listed w = (Return (list_item d <$> listed), w).
Proof.
  intros H. apply related_emails_checked in H.
  unfold list_items. rewrite H. reflexivity.
Qed.

Lemma list_items_refused d listed w c :
  c ∈ listed -> ¬ related_emails d c ->
  list_items d listed w = (Raise ValidationError, w).
Proof.
  intros Hin Hbad. unfold list_items.
  destruct (forallb item_validates (list_item d <$> listed)) eqn:E;
    [|reflexivity].
  exfalso. apply Hbad.
  exact (proj1 (related_emails_checked d listed) E c Hin).
Qed.

Lemma get_conversations_run w skip limit status priority agent_id unassigned :
  get_conversations skip limit status priority agent_id unassigned w
  = list_items (db w)
      (listed_conversations skip limit status priority agent_id unassigned
                            (db w)) w.
Proof. reflexivity. Qed.

Lemma tidy_db_well_keyed : well_keyed tidy_db.
Proof. by_evaluation. Qed.

(** X7. For skip, limit and agent_id the database can bind.  When the
    related customer and agent of every selected conversation have an
    email, get_conversations returns the selected page; when one of them
    has none, it raises ValidationError.  The page lists the most urgent
    conversations first, in the order URGENT, HIGH, MEDIUM, LOW, and within
    one level the most recently updated first, whatever the filters. *)
Theorem get_conversations_order
    (w : World) (skip limit : Z) (status : option MessageStatus)
    (priority : option MessagePriority) (agent_id : option Z)
    (unassigned : bool) :
  sqlite_integer skip -> sqlite_integer limit ->
  (∀ a, agent_id = Some a -> sqlite_integer a) ->
  let listed :=
    listed_conversations skip limit status priority agent_id unassigned (db w)
  in
  ((∀ c, c ∈ listed -> related_emails (db w) c) ->
   get_conversations skip limit status priority agent_id unassigned w
   = (Return (list_item (db w) <$> listed), w))
  ∧ (∀ c, c ∈ listed -> ¬ related_emails (db w) c ->
          get_conversations skip limit status priority agent_id unassigned w
          = (Raise ValidationError, w))
  ∧ ∀ (i j : nat) a b,
      (i < j)%nat -> listed !! i = Some a -> listed !! j = Some b ->
      at_most (Conversation.priority b) (Conversation.priority a)
      ∧ (Conversation.priority a = Conversation.priority b ->
         Conversation.updated_at b ≤ Conversation.updated_at a).
Proof.
  intros _ _ _ listed. rewrite get_conversations_run. fold listed.
  split; [apply list_items_valid|].
  split; [intros c; apply list_items_refused|].
  intros i j a b Hij Hi Hj.
  assert (Hbefore : listed_before a b).
  { unfold listed, listed_conversations in Hi, Hj.
    apply sql_window_lookup in Hi, Hj.
    eapply (StronglySorted_lookup listed_before); [| |exact Hi|exact Hj].
    - exact (@StronglySorted_merge_sort _ listed_before _
               listed_before_trans listed_before_total _).
    - lia. }
  apply listed_before_spec in Hbefore.
  rewrite at_most_priority_order.
  destruct Hbefore as [Hlt | [Heq Hup]].
  - split; [lia|]. intros E. rewrite E in Hlt. lia.
  - split; [rewrite Heq; lia|]. intros _. exact Hup.
Qed.

Lemma get_conversations_order_witness :
  sqlite_integer 0 ∧ sqlite_integer 50
  ∧ (∀ c, c ∈ listed_conversations 0 50 None None None false tidy_db ->
          related_emails tidy_db c)
  ∧ Conversation.id <$> listed_conversations 0 50 None None None false tidy_db
    = [2; 3; 1]
  ∧ get_conversations 0 50 None None None false tidy_world
    = (Return (list_item tidy_db
                 <$> listed_conversations 0 50 None None None false tidy_db),
       tidy_world).
Proof.
  assert (H0 : sqlite_integer 0) by by_evaluation.
  assert (H50 : sqlite_integer 50) by by_evaluation.
  assert (Hemails :
            ∀ c, c ∈ listed_conversations 0 50 None None None false tidy_db ->
                 related_emails tidy_db c).
  { apply related_emails_checked. vm_compute. reflexivity. }
  split; [exact H0|]. split; [exact H50|]. split; [exact Hemails|].
  split; [vm_compute; reflexivity|].
  destruct (get_conversations_order tidy_world 0 50 None None None false
              H0 H50 ltac:(intros a Ha; discriminate Ha)) as (Hret & _ & _).
  exact (Hret Hemails).
Defined.

Lemma listed_conversations_elem skip limit status priority agent_id unassigned
    d c :
  c ∈ listed_conversations skip limit status priority agent_id unassigned d ->
  (∃ k, conversations d !! k = Some c)
  ∧ listing_filter status priority agent_id unassigned c.
Proof.
  unfold listed_conversations. intros Hin. apply sql_window_elem in Hin.
  rewrite merge_sort_Permutation in Hin.
  apply list_elem_of_filter in Hin as [Hf Hin].
  apply elem_of_rows in Hin. split; assumption.
Qed.

(** X8. For skip, limit and agent_id the database can bind, and related
    customers and agents that have an email, get_conversations returns the
    selected page.  Every conversation on it is a stored one that passes
    each filter given; a non-negative limit bounds the length of the page;
    without offset, and with a limit that is at least the number of stored
    conversations (or negative, which the default engine SQLite takes as no
    limit), every stored conversation that passes the filters is listed.
    agent_id=0 filters nothing, and an agent filter together with
    unassigned=true lists nothing. *)
Theorem get_conversations_filters
    (w : World) (skip limit : Z) (status : option MessageStatus)
    (priority : option MessagePriority) (agent_id : option Z)
    (unassigned : bool) :
  sqlite_integer skip -> sqlite_integer limit ->
  (∀ a, agent_id = Some a -> sqlite_integer a) ->
  let listed :=
    listed_conversations skip limit status priority agent_id unassigned (db w)
  in
  ((∀ c, c ∈ listed -> related_emails (db w) c) ->
   get_conversations skip limit status priority agent_id unassigned w
   = (Return (list_item (db w) <$> listed), w))
  ∧ (∀ c, c ∈ listed ->
          (∃ k, conversations (db w) !! k = Some c)
          ∧ (∀ s, status = Some s -> Conversation.status c = s)
          ∧ (∀ p, priority = Some p -> Conversation.priority c = p)
          ∧ (∀ a, agent_id = Some a -> a ≠ 0 ->
                  Conversation.agent_id c = Some a)
          ∧ (unassigned = true -> Conversation.agent_id c = None))
  ∧ (0 ≤ limit -> Z.of_nat (length listed) ≤ limit)
  ∧ (skip ≤ 0 ->
     limit < 0 ∨ Z.of_nat (size (conversations (db w))) ≤ limit ->
     ∀ k c, conversations (db w) !! k = Some c ->
            listing_filter status priority agent_id unassigned c ->
            c ∈ listed)
  ∧ (agent_id = Some 0 ->
     listed = listed_conversations skip limit status priority None unassigned
                                   (db w))
  ∧ (∀ a, agent_id = Some a -> a ≠ 0 -> unassigned = true -> listed = []).
Proof.
  intros _ _ _ listed.
  split; [rewrite get_conversations_run; apply list_items_valid|].
  assert (Hsound : ∀ c, c ∈ listed ->
          (∃ k, conversations (db w) !! k = Some c)
          ∧ (∀ s, status = Some s -> Conversation.status c = s)
          ∧ (∀ p, priority = Some p -> Conversation.priority c = p)
          ∧ (∀ a, agent_id = Some a -> a ≠ 0 ->
                  Conversation.agent_id c = Some a)
          ∧ (unassigned = true -> Conversation.agent_id c = None)).
  { intros c Hin.
    apply listed_conversations_elem in Hin as [Hk (Hs & Hp & Ha & Hu)].
    split_and!; try assumption.
    intros a -> Hnz. apply Ha. simpl.
    destruct (decide (a = 0)); [contradiction | reflexivity]. }
  split; [exact Hsound|]. split_and!.
  - intros Hlim. unfold listed, listed_conversations, sql_limit.
    destruct (decide (limit < 0)); [lia|].
    rewrite length_take. lia.
  - intros Hskip Hlim k c Hk Hf.
    assert (Hin : c ∈ merge_sort listed_before
                        (filter (listing_filter status priority agent_id
                                                unassigned)
                                (rows (conversations (db w))))).
    { rewrite merge_sort_Permutation. apply list_elem_of_filter.
      split; [exact Hf|]. apply elem_of_rows. exists k. exact Hk. }
    unfold listed, listed_conversations, sql_limit, sql_offset.
    replace (Z.to_nat skip) with 0%nat by lia. rewrite drop_0.
    destruct (decide (limit < 0)); [exact Hin|].
    rewrite take_ge; [exact Hin|].
    rewrite merge_sort_Permutation.
    pose proof (length_filter (listing_filter status priority agent_id
                                              unassigned)
                              (rows (conversations (db w)))) as Hlen.
    unfold rows in Hlen at 2. rewrite length_fmap, length_map_to_list in Hlen.
    lia.
  - intros ->. reflexivity.
  - intros a Ha Hnz Hu.
    destruct listed as [|c l] eqn:E; [reflexivity|].
    destruct (Hsound c (list_elem_of_here _ _)) as (_ & _ & _ & Hag & Hun).
    rewrite (Hag a Ha Hnz) in Hun. discriminate (Hun Hu).
Qed.

Lemma get_conversations_filters_witness :
  sqlite_integer 0 ∧ sqlite_integer 50 ∧ sqlite_integer 1
  ∧ (∀ c, c ∈ listed_conversations 0 50 None (Some HIGH) (Some 1) false
                                   tidy_db ->
          related_emails tidy_db c)
  ∧ Conversation.id
      <$> listed_conversations 0 50 None (Some HIGH) (Some 1) false tidy_db
    = [1]
  ∧ get_conversations 0 50 None (Some HIGH) (Some 1) false tidy_world
    = (Return (list_item tidy_db
                 <$> listed_conversations 0 50 None (Some HIGH) (Some 1) false
                                          tidy_db),
       tidy_world).
Proof.
  assert (H0 : sqlite_integer 0) by by_evaluation.
  assert (H50 : sqlite_integer 50) by by_evaluation.
  assert (H1 : sqlite_integer 1) by by_evaluation.
  assert (Hemails :
            ∀ c, c ∈ listed_conversations 0 50 None (Some HIGH) (Some 1) false
                                          tidy_db ->
                 related_emails tidy_db c).
  { apply related_emails_checked. vm_compute. reflexivity. }
  split; [exact H0|]. split; [exact H50|]. split; [exact H1|].
  split; [exact Hemails|]. split; [vm_compute; reflexivity|].
  destruct (get_conversations_filters tidy_world 0 50 None (Some HIGH)
              (Some 1) false H0 H50 ltac:(intros a [= <-]; exact H1))
    as (Hret & _).
  exact (Hret Hemails).
Defined.

Lemma messages_of_elem d conversation_id m :
  m ∈ messages_of conversation_id d <->
  Message.conversation_id m = conversation_id ∧ ∃ k, messages d !! k = Some m.
Proof.
  unfold messages_of.
  rewrite merge_sort_Permutation, list_elem_of_filter, elem_of_rows.
  reflexivity.
Qed.

Lemma get_conversation_run w conversation_id conversation :
  conversations (db w) !! conversation_id = Some conversation ->
  get_conversation conversation_id w
  = (Return (mkConversationResponse
               conversation
               (customers (db w) !! Conversation.customer_id conversation)
               (a ← Conversation.agent_id conversation; agents (db w) !! a)
               (messages_of (Conversation.id conversation) (db w))), w).
Proof.
  intros Hc. unfold get_conversation. run_handler. rewrite Hc. reflexivity.
Qed.

Ltac exists_message msg :=
  eexists _, msg; split;
  [ apply get_conversation_run; cbn [db conversations put_customer
      put_conversation put_message Conversation.id
      Conversation.with_updated_at Conversation.with_priority
      er_conversation_id];
    apply lookup_insert_eq
  | cbn [cr_conversation cr_messages er_conversation_id er_customer_id
         er_message_id Conversation.id Conversation.customer_id
         Conversation.updated_at Conversation.with_updated_at
         Conversation.with_priority Message.id Message.content
         Message.is_from_customer Message.read_at];
    split_and!; try reflexivity; try assumption;
    apply messages_of_elem;
    cbn [Message.conversation_id db messages put_customer put_conversation
         put_message Message.id];
    split; [reflexivity|]; eexists; apply lookup_insert_eq ].

(** X9. A customer message that receive_external_message accepted can be
    read back: get_conversation on the conversation id of the answer returns
    that conversation, updated at the time of the request, and its messages
    contain the stored message, with the id of the answer, the content sent,
    marked as from the customer and unread.  An id that is not stored, and
    that the database can bind, gets the 404. *)
Theorem external_message_can_be_read
    {Confidence : Type}
    (detect_priority : string -> MessagePriority * Confidence)
    (message : MessageSend) (now : datetime) (w w' : World)
    (resp : ExternalResponse) :
  receive_external_message detect_priority message now w = (Return resp, w') ->
  (∃ r m,
     get_conversation (er_conversation_id resp) w' = (Return r, w')
     ∧ Conversation.id (cr_conversation r) = er_conversation_id resp
     ∧ Conversation.customer_id (cr_conversation r) = er_customer_id resp
     ∧ Conversation.updated_at (cr_conversation r) = now
     ∧ m ∈ cr_messages r
     ∧ Message.id m = er_message_id resp
     ∧ Message.content m = ms_content message
     ∧ Message.is_from_customer m = true
     ∧ Message.read_at m = None)
  ∧ (∀ k, sqlite_integer k -> conversations (db w') !! k = None ->
          get_conversation k w'
          = (Raise (HTTPException 404 "Conversation not found"), w')).
Proof.
  intros Hrun. split.
  2:{ intros k _ Hk. unfold get_conversation. run_handler. rewrite Hk.
      reflexivity. }
  destruct (find_or_create_customer_cases message now w)
    as [[e He] | (customer & w1 & Hcust & _)].
  { rewrite (receive_external_message_raised _ _ _ _ _ _ He) in Hrun.
    discriminate Hrun. }
  destruct (open_conversations_of (Customer.id customer) (db w1))
    as [|found [|another more]] eqn:Hopen.
  - rewrite (receive_external_message_none_open _ _ _ _ _ _ Hcust Hopen)
      in Hrun.
    injection Hrun as <- <-.
    match goal with |- context [put_message ?msg _] => exists_message msg end.
  - destruct (receive_external_message_one_open detect_priority _ now _ _ _ _
                Hcust Hopen) as [log Hrun'].
    rewrite Hrun' in Hrun. injection Hrun as <- <-.
    assert (Hcid : Conversation.customer_id found = Customer.id customer).
    { assert (Hin : found ∈ open_conversations_of (Customer.id customer)
                                                   (db w1))
        by (rewrite Hopen; apply list_elem_of_here).
      apply open_conversations_elem in Hin as [_ [Hcid _]]. exact Hcid. }
    destruct (decide (priority_order (Conversation.priority found)
                      < priority_order
                          (detect_priority (ms_content message)).1));
      match goal with |- context [put_message ?msg _] => exists_message msg end.
  - rewrite (receive_external_message_many_open _ _ _ _ _ _ _ _ _
               Hcust Hopen) in Hrun.
    discriminate Hrun.
Qed.

Lemma external_message_can_be_read_witness :
  ∃ resp w' r m,
    receive_external_message (constant_classifier HIGH)
      (mkMessageSend "it broke again" None None (Some 7)) 9 resolved_world
    = (Return resp, w')
    ∧ get_conversation (er_conversation_id resp) w' = (Return r, w')
    ∧ m ∈ cr_messages r
    ∧ Message.content m = "it broke again".
Proof.
  destruct (receive_external_message (constant_classifier HIGH)
              (mkMessageSend "it broke again" None None (Some 7)) 9
              resolved_world) as [[resp|e] w'] eqn:Hrun;
    [|vm_compute in Hrun; discriminate Hrun].
  destruct (external_message_can_be_read _ _ _ _ _ _ Hrun)
    as [(r & m & Hget & _ & _ & _ & Hin & _ & Hcontent & _) _].
  exists resp, w', r, m. split_and!; [reflexivity | exact Hget | exact Hin
                                     | exact Hcontent].
Defined.

(** One dictionary entry per group that occurs, with its count. *)
Lemma group_counts_lookup {K : Type} `{EqDecision K} (value : K -> string)
    (all : list K) (col : Conversation.t -> K) (l : list Conversation.t) g :
  NoDup (value <$> all) -> g ∈ all ->
  group_counts value all col l !! value g
  = if decide (count_rows (fun c => col c = g) l ≠ 0)
    then Some (count_rows (fun c => col c = g) l) else None.
Proof.
  unfold group_counts. induction all as [|a all IH]; intros Hnd Hin.
  - inversion Hin.
  - rewrite fmap_cons in Hnd. apply NoDup_cons in Hnd as [Hfresh Hnd].
    destruct (decide (a = g)) as [->|Hne].
    + destruct (decide (count_rows (fun c => col c = g) l ≠ 0)) as [Hnz|Hz].
      * rewrite filter_cons_True by exact Hnz. simpl.
        apply lookup_insert_eq.
      * rewrite filter_cons_False by exact Hz.
        apply not_elem_of_list_to_map_1. intros Hk.
        apply list_elem_of_fmap in Hk as ([k n] & Hkey & Hk). simpl in Hkey.
        apply list_elem_of_fmap in Hk as (g' & [= -> ->] & Hg').
        apply list_elem_of_filter in Hg' as [_ Hg'].
        apply Hfresh. rewrite Hkey. apply list_elem_of_fmap_2. exact Hg'.
    + apply elem_of_cons in Hin as [->|Hin]; [contradiction|].
      assert (value a ≠ value g) as Hv.
      { intros E. apply Hfresh. rewrite E. apply list_elem_of_fmap_2.
        exact Hin. }
      destruct (decide (count_rows (fun c => col c = a) l ≠ 0)) as [Hnz|Hz].
      * rewrite filter_cons_True by exact Hnz. rewrite fmap_cons. simpl.
        rewrite lookup_insert_ne by exact Hv. exact (IH Hnd Hin).
      * rewrite filter_cons_False by exact Hz. exact (IH Hnd Hin).
Qed.

Lemma group_counts_positive {K : Type} `{EqDecision K} (value : K -> string)
    (all : list K) (col : Conversation.t -> K) (l : list Conversation.t) key n :
  group_counts value all col l !! key = Some n -> 0 < n.
Proof.
  unfold group_counts. intros Hk. apply elem_of_list_to_map_2 in Hk.
  apply list_elem_of_fmap in Hk as (g & [= -> ->] & Hg).
  apply list_elem_of_filter in Hg as [Hnz _].
  unfold count_rows in *. lia.
Qed.

Lemma count_status_total (l : list Conversation.t) :
  count_rows (fun c => Conversation.status c = OPEN) l
  + count_rows (fun c => Conversation.status c = IN_PROGRESS) l
  + count_rows (fun c => Conversation.status c = RESOLVED) l
  + count_rows (fun c => Conversation.status c = CLOSED) l
  = Z.of_nat (length l).
Proof.
  unfold count_rows. induction l as [|c l IH]; [reflexivity|].
  rewrite !filter_cons.
  destruct (Conversation.status c); simpl;
    repeat (destruct (decide _); try discriminate; try contradiction);
    simpl; lia.
Qed.

Lemma count_priority_total (l : list Conversation.t) :
  count_rows (fun c => Conversation.priority c = LOW) l
  + count_rows (fun c => Conversation.priority c = MEDIUM) l
  + count_rows (fun c => Conversation.priority c = HIGH) l
  + count_rows (fun c => Conversation.priority c = URGENT) l
  = Z.of_nat (length l).
Proof.
  unfold count_rows. induction l as [|c l IH]; [reflexivity|].
  rewrite !filter_cons.
  destruct (Conversation.priority c); simpl;
    repeat (destruct (decide _); try discriminate; try contradiction);
    simpl; lia.
Qed.

Lemma count_unassigned_bound (l : list Conversation.t) :
  count_rows is_unassigned_open l
  ≤ count_rows (fun c => Conversation.status c = OPEN) l
    + count_rows (fun c => Conversation.status c = IN_PROGRESS) l.
Proof.
  unfold count_rows. induction l as [|c l IH]; [reflexivity|].
  rewrite !filter_cons.
  destruct (decide (is_unassigned_open c)) as [[_ Hst]|Hno].
  - apply list_elem_of_In in Hst. simpl in Hst.
    destruct Hst as [<-|[<-|[]]];
      repeat (destruct (decide _); try discriminate; try contradiction);
      simpl; lia.
  - repeat (destruct (decide _)); simpl; lia.
Qed.

Lemma length_rows {A : Type} (table : gmap Z A) :
  length (rows table) = size table.
Proof. unfold rows. rewrite length_fmap. apply length_map_to_list. Qed.

(** X10. get_conversation_stats: the counts by status add up to the number
    of stored conversations, and so do the counts by priority, a missing
    entry counting for 0; no entry is 0 or negative; and the unassigned count
    is at most the open and in-progress counts together. *)
Theorem get_conversation_stats_totals (w : World) :
  ∃ stats,
    get_conversation_stats w = (Return stats, w)
    ∧ default 0 (st_by_status stats !! "open")
      + default 0 (st_by_status stats !! "in_progress")
      + default 0 (st_by_status stats !! "resolved")
      + default 0 (st_by_status stats !! "closed")
      = Z.of_nat (size (conversations (db w)))
    ∧ default 0 (st_by_priority stats !! "low")
      + default 0 (st_by_priority stats !! "medium")
      + default 0 (st_by_priority stats !! "high")
      + default 0 (st_by_priority stats !! "urgent")
      = Z.of_nat (size (conversations (db w)))
    ∧ (∀ key n, st_by_status stats !! key = Some n -> 0 < n)
    ∧ (∀ key n, st_by_priority stats !! key = Some n -> 0 < n)
    ∧ 0 ≤ st_unassigned stats
      ≤ default 0 (st_by_status stats !! "open")
        + default 0 (st_by_status stats !! "in_progress").
Proof.
  eexists. split; [reflexivity|]. simpl.
  set (l := rows (conversations (db w))).
  assert (Hs : ∀ s,
    default 0 (group_counts status_value [OPEN; IN_PROGRESS; RESOLVED; CLOSED]
                            Conversation.status l !! status_value s)
    = count_rows (fun c => Conversation.status c = s) l).
  { intros s. rewrite group_counts_lookup.
    - destruct (decide _) as [|Hz]; simpl; [reflexivity|].
      destruct (decide (count_rows (fun c => Conversation.status c = s) l = 0));
        [congruence | contradiction].
    - apply (bool_decide_unpack _). vm_compute. exact I.
    - destruct s; apply list_elem_of_In; simpl; tauto. }
  assert (Hp : ∀ p,
    default 0 (group_counts priority_value [LOW; MEDIUM; HIGH; URGENT]
                            Conversation.priority l !! priority_value p)
    = count_rows (fun c => Conversation.priority c = p) l).
  { intros p. rewrite group_counts_lookup.
    - destruct (decide _) as [|Hz]; simpl; [reflexivity|].
      destruct (decide (count_rows (fun c => Conversation.priority c = p) l
                        = 0)); [congruence | contradiction].
    - apply (bool_decide_unpack _). vm_compute. exact I.
    - destruct p; apply list_elem_of_In; simpl; tauto. }
  pose proof (Hs OPEN) as Ho. pose proof (Hs IN_PROGRESS) as Hi.
  pose proof (Hs RESOLVED) as Hr. pose proof (Hs CLOSED) as Hc.
  pose proof (Hp LOW) as Hl. pose proof (Hp MEDIUM) as Hm.
  pose proof (Hp HIGH) as Hh. pose proof (Hp URGENT) as Hu.
  simpl in Ho, Hi, Hr, Hc, Hl, Hm, Hh, Hu.
  rewrite Ho, Hi, Hr, Hc, Hl, Hm, Hh, Hu.
  rewrite <- (length_rows (conversations (db w))). fold l.
  split; [apply count_status_total|].
  split; [apply count_priority_total|].
  split; [intros key n; apply group_counts_positive|].
  split; [intros key n; apply group_counts_positive|].
  split; [unfold count_rows; lia | apply count_unassigned_bound].
Qed.

(* ===================================================================== *)
(** ** conversations.py: update_conversation *)
(* ===================================================================== *)

Ltac run_route :=
  repeat first
    [ rewrite select_by_id_run
    | progress (unfold mbind, HandlerOf_bind, mret, HandlerOf_ret, on_db, emit,
                raise, query, commit; simpl) ].

Lemma update_conversation_run d log conversation_id update now conversation
    updated :
  conversations d !! conversation_id = Some conversation ->
  apply_update update conversation = Some updated ->
  let stored := Conversation.with_updated_at now updated in
  update_conversation conversation_id update now (d, log)
  = Some (Return stored,
          (put_conversation stored d,
           log ++ [update_payload (Conversation.id stored)
                     (status_value (Conversation.status stored))
                     (priority_value (Conversation.priority stored))
                     (Conversation.agent_id stored)])).
Proof.
  intros Hc Hu. unfold update_conversation. run_route. rewrite Hc. simpl.
  rewrite Hu. reflexivity.
Qed.

Lemma update_conversation_unknown d log conversation_id update now :
  conversations d !! conversation_id = None ->
  update_conversation conversation_id update now (d, log)
  = Some (Raise (HTTPException 404 "Conversation not found"), (d, log)).
Proof.
  intros Hc. unfold update_conversation. run_route. rewrite Hc. reflexivity.
Qed.

Lemma apply_update_columns update c :
  cu_status update ≠ Some None -> cu_priority update ≠ Some None ->
  ∃ c',
    apply_update update c = Some c'
    ∧ Conversation.id c' = Conversation.id c
    ∧ Conversation.customer_id c' = Conversation.customer_id c
    ∧ Conversation.subject c' = Conversation.subject c
    ∧ Conversation.created_at c' = Conversation.created_at c
    ∧ (∀ s, cu_status update = Some (Some s) -> Conversation.status c' = s)
    ∧ (cu_status update = None ->
       Conversation.status c' = Conversation.status c)
    ∧ (∀ p, cu_priority update = Some (Some p) ->
            Conversation.priority c' = p)
    ∧ (cu_priority update = None ->
       Conversation.priority c' = Conversation.priority c)
    ∧ Conversation.agent_id c'
      = default (Conversation.agent_id c) (cu_agent_id update).
Proof.
  destruct update as [[[s|]|] [[p|]|] [a|]]; simpl; intros Hs Hp;
    try congruence;
    (eexists; split; [reflexivity|]; simpl; split_and!;
     try reflexivity; intros; congruence).
Qed.

(** What one run of update_conversation returns, stores and broadcasts. *)
Lemma update_conversation_stores
    (d : Database) (log : list UpdateBroadcast) (conversation_id : Z)
    (update : ConversationUpdate) (now : datetime)
    (conversation : Conversation.t) :
  well_keyed d ->
  conversations d !! conversation_id = Some conversation ->
  cu_status update ≠ Some None -> cu_priority update ≠ Some None ->
  ∃ updated d',
    update_conversation conversation_id update now (d, log)
    = Some (Return updated,
            (d', log ++ [update_payload conversation_id
                           (status_value (Conversation.status updated))
                           (priority_value (Conversation.priority updated))
                           (Conversation.agent_id updated)]))
    ∧ conversations d' !! conversation_id = Some updated
    ∧ (∀ s, cu_status update = Some (Some s) ->
            Conversation.status updated = s)
    ∧ (cu_status update = None ->
       Conversation.status updated = Conversation.status conversation)
    ∧ (∀ p, cu_priority update = Some (Some p) ->
            Conversation.priority updated = p)
    ∧ (cu_priority update = None ->
       Conversation.priority updated = Conversation.priority conversation)
    ∧ Conversation.agent_id updated
      = default (Conversation.agent_id conversation) (cu_agent_id update)
    ∧ Conversation.updated_at updated = now
    ∧ Conversation.id updated = conversation_id
    ∧ Conversation.customer_id updated
      = Conversation.customer_id conversation
    ∧ Conversation.subject updated = Conversation.subject conversation
    ∧ Conversation.created_at updated
      = Conversation.created_at conversation
    ∧ (∀ k, k ≠ conversation_id ->
            conversations d' !! k = conversations d !! k)
    ∧ agents d' = agents d
    ∧ customers d' = customers d
    ∧ messages d' = messages d.
Proof.
  intros Hwk Hc Hs Hp.
  pose proof (well_keyed_conversation _ _ _ Hwk Hc) as Hid.
  destruct (apply_update_columns update conversation Hs Hp)
    as (c' & Hu & Ei & Ecu & Esu & Ecr & Est & Est' & Epr & Epr' & Eag).
  pose proof (update_conversation_run d log conversation_id update now
                conversation c' Hc Hu) as Hrun.
  simpl in Hrun.
  exists (Conversation.with_updated_at now c'),
         (put_conversation (Conversation.with_updated_at now c') d).
  split.
  { rewrite Hrun. simpl. rewrite Ei, Hid. reflexivity. }
  simpl. rewrite Ei, Hid.
  split; [apply lookup_insert_eq|].
  split_and!; try assumption; try reflexivity.
  intros k Hk. rewrite lookup_insert_ne by congruence. reflexivity.
Qed.

(** X11. For ids the database can bind.  update_conversation answers 404
    for an unknown conversation and then stores and broadcasts nothing.  For
    a stored one, and an update that sets neither status nor priority to
    null, it succeeds whoever owns it: each of status, priority and agent_id
    becomes the value given, or stays when the field is absent, so it may
    lower the priority, hand the conversation to any id or unassign it
    without any ownership check; updated_at becomes now, the other columns
    and all other rows are kept, and one update payload with the new values
    is broadcast. *)
Theorem update_conversation_effect
    (d : Database) (log : list UpdateBroadcast) (conversation_id : Z)
    (update : ConversationUpdate) (now : datetime) :
  well_keyed d ->
  sqlite_integer conversation_id ->
  (∀ a, cu_agent_id update = Some (Some a) -> sqlite_integer a) ->
  (conversations d !! conversation_id = None ->
   update_conversation conversation_id update now (d, log)
   = Some (Raise (HTTPException 404 "Conversation not found"), (d, log)))
  ∧ (∀ conversation,
       conversations d !! conversation_id = Some conversation ->
       cu_status update ≠ Some None -> cu_priority update ≠ Some None ->
       ∃ updated d',
         update_conversation conversation_id update now (d, log)
         = Some (Return updated,
                 (d', log ++ [update_payload conversation_id
                                (status_value (Conversation.status updated))
                                (priority_value
                                   (Conversation.priority updated))
                                (Conversation.agent_id updated)]))
         ∧ conversations d' !! conversation_id = Some updated
         ∧ (∀ s, cu_status update = Some (Some s) ->
                 Conversation.status updated = s)
         ∧ (cu_status update = None ->
            Conversation.status updated = Conversation.status conversation)
         ∧ (∀ p, cu_priority update = Some (Some p) ->
                 Conversation.priority updated = p)
         ∧ (cu_priority update = None ->
            Conversation.priority updated
            = Conversation.priority conversation)
         ∧ Conversation.agent_id updated
           = default (Conversation.agent_id conversation) (cu_agent_id update)
         ∧ Conversation.updated_at updated = now
         ∧ Conversation.id updated = conversation_id
         ∧ Conversation.customer_id updated
           = Conversation.customer_id conversation
         ∧ Conversation.subject updated = Conversation.subject conversation
         ∧ Conversation.created_at updated
           = Conversation.created_at conversation
         ∧ (∀ k, k ≠ conversation_id ->
                 conversations d' !! k = conversations d !! k)
         ∧ agents d' = agents d
         ∧ customers d' = customers d
         ∧ messages d' = messages d).
Proof.
  intros Hwk _ _. split.
  - apply update_conversation_unknown.
  - intros conversation Hc Hs Hp.
    exact (update_conversation_stores d log conversation_id update now
             conversation Hwk Hc Hs Hp).
Qed.

Lemma update_conversation_effect_witness :
  well_keyed busy_db
  ∧ sqlite_integer 1 ∧ sqlite_integer 2 ∧ sqlite_integer 5
  ∧ conversations busy_db !! 1
    = Some (Conversation.mk 1 7 (Some 1) IN_PROGRESS HIGH (Some "hello") 0 6)
  ∧ (∃ updated d',
       update_conversation 1
         (mkConversationUpdate None (Some (Some LOW)) (Some (Some 2)))
         9 (busy_db, [])
       = Some (Return updated,
               (d', [update_payload 1 "in_progress" "low" (Some 2)]))
       ∧ conversations d' !! 1 = Some updated
       ∧ Conversation.status updated = IN_PROGRESS
       ∧ Conversation.priority updated = LOW
       ∧ Conversation.agent_id updated = Some 2)
  ∧ update_conversation 5
      (mkConversationUpdate None (Some (Some LOW)) (Some (Some 2)))
      9 (busy_db, [])
    = Some (Raise (HTTPException 404 "Conversation not found"), (busy_db, [])).
Proof.
  assert (Hwk : well_keyed busy_db) by by_evaluation.
  assert (H1 : sqlite_integer 1) by by_evaluation.
  assert (H2 : sqlite_integer 2) by by_evaluation.
  assert (H5 : sqlite_integer 5) by by_evaluation.
  assert (Hagent : ∀ a,
            cu_agent_id
              (mkConversationUpdate None (Some (Some LOW)) (Some (Some 2)))
            = Some (Some a) -> sqlite_integer a)
    by (intros a [= <-]; exact H2).
  split; [exact Hwk|]. split; [exact H1|]. split; [exact H2|].
  split; [exact H5|]. split; [reflexivity|]. split.
  - destruct (update_conversation_effect busy_db [] 1
                (mkConversationUpdate None (Some (Some LOW)) (Some (Some 2)))
                9 Hwk H1 Hagent)
      as [_ Hupd].
    destruct (Hupd _ eq_refl ltac:(discriminate) ltac:(discriminate))
      as (c' & d' & Hrun & Hc' & _ & Hst & Hpr & _ & Hag & _).
    exists c', d'.
    pose proof (Hst eq_refl) as Hst'. pose proof (Hpr LOW eq_refl) as Hpr'.
    simpl in Hst', Hpr', Hag.
    rewrite Hst', Hpr', Hag in Hrun.
    split; [exact Hrun|]. split; [exact Hc'|].
    split; [exact Hst'|]. split; [exact Hpr' | exact Hag].
  - destruct (update_conversation_effect busy_db [] 5
                (mkConversationUpdate None (Some (Some LOW)) (Some (Some 2)))
                9 Hwk H5 Hagent)
      as [Hnone _].
    exact (Hnone eq_refl).
Defined.

(** X12. update_conversation does not look the agent up: it can leave a
    conversation owned by an id that is no agent.  A later claim by another
    agent without force is then refused with the 409 whose detail reads
    "This conversation is already assigned to another agent. Use force=true
    to reassign.", and with force it succeeds. *)
Theorem update_conversation_dangling_owner
    (d : Database) (log : list UpdateBroadcast) (conversation_id ghost B : Z)
    (update : ConversationUpdate) (now later : datetime)
    (conversation : Conversation.t) (agent_B : Agent.t) :
  well_keyed d ->
  sqlite_integer conversation_id -> sqlite_integer ghost ->
  conversations d !! conversation_id = Some conversation ->
  cu_status update ≠ Some None -> cu_priority update ≠ Some None ->
  cu_agent_id update = Some (Some ghost) ->
  agents d !! ghost = None ->
  agents d !! B = Some agent_B ->
  ∃ updated d' log',
    update_conversation conversation_id update now (d, log)
    = Some (Return updated, (d', log'))
    ∧ owner_of conversation_id (mkWorld d' []) = Some ghost
    ∧ assign_conversation conversation_id B false later (mkWorld d' [])
      = (Raise (HTTPException 409
           "This conversation is already assigned to another agent. Use force=true to reassign."),
         mkWorld d' [])
    ∧ ∃ w'', assign_conversation conversation_id B true later (mkWorld d' [])
             = (Return (mkAssignResponse true B (Agent.name agent_B)), w'')
             ∧ owner_of conversation_id w'' = Some B.
Proof.
  intros Hwk _ _ Hc Hs Hp Hset Hghost HB.
  assert (Hne : ghost ≠ B) by congruence.
  destruct (update_conversation_stores d log conversation_id update now
              conversation Hwk Hc Hs Hp)
    as (c' & d' & Hrun & Hc' & _ & _ & _ & _ & Hag & _ & Hid & _ & _ & _
        & Hothers & Hagents & Hcust & Hmsg).
  rewrite Hset in Hag. simpl in Hag.
  exists c', d'. eexists. split; [exact Hrun|].
  split; [unfold owner_of; simpl; rewrite Hc'; exact Hag|].
  destruct (conflicting_owner_other c' ghost B Hag Hne) as [Hconf Hfree].
  split.
  - rewrite (assign_conversation_conflict (mkWorld d' []) conversation_id B
               false later c' ghost Hc' Hconf).
    simpl. rewrite Hagents, Hghost. reflexivity.
  - eexists. split.
    + apply (assign_conversation_granted (mkWorld d' []) conversation_id B
               true later c' agent_B Hc' Hfree).
      simpl. rewrite Hagents. exact HB.
    + simpl. rewrite <- Hid at 1.
      exact (owner_of_put (mkWorld d' []) _
               (Conversation.with_updated_at later
                  (Conversation.with_agent_id (Some B) c'))).
Qed.

Lemma update_conversation_dangling_owner_witness :
  well_keyed busy_db
  ∧ sqlite_integer 1 ∧ sqlite_integer 99
  ∧ agents busy_db !! 99 = None
  ∧ agents busy_db !! 2 = Some bob
  ∧ ∃ updated d' log',
      update_conversation 1
        (mkConversationUpdate None None (Some (Some 99))) 9 (busy_db, [])
      = Some (Return updated, (d', log'))
      ∧ assign_conversation 1 2 false 10 (mkWorld d' [])
        = (Raise (HTTPException 409
             "This conversation is already assigned to another agent. Use force=true to reassign."),
           mkWorld d' []).
Proof.
  assert (Hwk : well_keyed busy_db) by by_evaluation.
  assert (H1 : sqlite_integer 1) by by_evaluation.
  assert (H99 : sqlite_integer 99) by by_evaluation.
  split; [exact Hwk|]. split; [exact H1|]. split; [exact H99|].
  split; [reflexivity|]. split; [reflexivity|].
  destruct (update_conversation_dangling_owner busy_db [] 1 99 2
              (mkConversationUpdate None None (Some (Some 99))) 9 10 _ bob
              Hwk H1 H99 eq_refl ltac:(discriminate) ltac:(discriminate)
              eq_refl eq_refl eq_refl)
    as (c' & d' & log' & Hrun & _ & Hrefused & _).
  exists c', d', log'. split; [exact Hrun | exact Hrefused].
Defined.

(* ===================================================================== *)
(** ** customers.py: send_customer_message *)
(* ===================================================================== *)

(** Comparing the value strings orders the levels by their names. *)
Lemma value_greater_spec priority current :
  value_greater priority current = true
  <-> value_rank current < value_rank priority.
Proof.
  destruct priority, current; vm_compute; split; intros H;
    first [reflexivity | discriminate H].
Qed.

Section CustomerRouteFacts.

Context {Confidence : Type}.
Variable detect_priority : string -> MessagePriority * Confidence.

Lemma send_customer_message_one_open d log customer_id message now customer
    conversation :
  customers d !! customer_id = Some customer ->
  open_conversations_of customer_id d = [conversation] ->
  let priority := (detect_priority (ms_content message)).1 in
  let kept :=
    if value_greater priority (Conversation.priority conversation)
    then Conversation.with_priority priority conversation
    else conversation in
  let db_message :=
    Message.mk (next_id (messages d)) (Conversation.id conversation)
               (Some customer_id) None (ms_content message) true priority now
               None in
  send_customer_message detect_priority customer_id message now (d, log)
  = (Return db_message,
     (put_customer (Customer.with_last_activity now customer)
        (put_conversation (Conversation.with_updated_at now kept)
           (put_message db_message d)),
      log ++ [route_new_message
                (Message.id db_message) (Conversation.id conversation)
                customer_id (ms_content message) (priority_value priority) now
                (Customer.name customer)])).
Proof.
  intros Hcust Hopen. unfold send_customer_message. run_route.
  rewrite Hcust. simpl.
  destruct (detect_priority (ms_content message)) as [p conf].
  run_route. rewrite Hopen. simpl.
  destruct (value_greater p (Conversation.priority conversation)); reflexivity.
Qed.

(** X13. send_customer_message compares the two levels as strings.  On the
    customer's open conversation the stored priority afterwards is the
    greater of the stored and the classified level in the order of their
    names, high < low < medium < urgent: a message classified LOW or MEDIUM
    lowers a HIGH conversation to that level, and a message classified HIGH
    leaves a LOW or MEDIUM conversation where it is. *)
Theorem send_customer_message_orders_by_name
    (d : Database) (log : list CustomerRouteBroadcast) (customer_id : Z)
    (message : MessageSend) (now : datetime)
    (customer : Customer.t) (conversation : Conversation.t) :
  well_keyed d ->
  customers d !! customer_id = Some customer ->
  open_conversations_of customer_id d = [conversation] ->
  let classified := (detect_priority (ms_content message)).1 in
  let current := Conversation.priority conversation in
  ∃ db_message d' log' conversation',
    send_customer_message detect_priority customer_id message now (d, log)
    = (Return db_message, (d', log'))
    ∧ conversations d !! Conversation.id conversation = Some conversation
    ∧ conversations d' !! Conversation.id conversation = Some conversation'
    ∧ value_rank (Conversation.priority conversation')
      = Z.max (value_rank current) (value_rank classified)
    ∧ (current = HIGH -> classified = LOW ∨ classified = MEDIUM ->
       Conversation.priority conversation' = classified)
    ∧ (classified = HIGH -> Conversation.priority conversation' = current).
Proof.
  intros Hwk Hcust Hopen classified current.
  pose proof (send_customer_message_one_open d log customer_id message now
                customer conversation Hcust Hopen) as Hrun.
  simpl in Hrun. fold classified current in Hrun.
  assert (Hin : conversation ∈ open_conversations_of customer_id d)
    by (rewrite Hopen; apply list_elem_of_here).
  pose proof (open_conversation_stored _ _ _ Hwk Hin) as Hstored.
  pose proof (value_greater_spec classified current) as Hspec.
  destruct (value_greater classified current) eqn:Hgt.
  - eexists _, _, _, (Conversation.with_updated_at now
                        (Conversation.with_priority classified conversation)).
    split; [exact Hrun|]. split; [exact Hstored|]. simpl.
    split; [apply lookup_insert_eq|].
    pose proof (proj1 Hspec eq_refl) as Hlt.
    split; [lia|]. split; [intros _ _; reflexivity|].
    intros Hc. rewrite Hc in Hlt. destruct current; simpl in Hlt; lia.
  - eexists _, _, _, (Conversation.with_updated_at now conversation).
    split; [exact Hrun|]. split; [exact Hstored|]. simpl.
    split; [apply lookup_insert_eq|].
    assert (Hge : ¬ value_rank current < value_rank classified).
    { intros Hlt. apply Hspec in Hlt. discriminate Hlt. }
    split; [fold current; lia|]. split; [|intros _; reflexivity].
    intros Hc [Hl|Hm]; rewrite Hc in Hge; [rewrite Hl in Hge|rewrite Hm in Hge];
      simpl in Hge; lia.
Qed.

(** X14. For a customer_id the database can bind, send_customer_message
    answers 404 for an unknown customer, and fails with MultipleResultsFound
    when the customer has more than one OPEN or IN_PROGRESS conversation; in
    both cases nothing is stored and nothing is broadcast. *)
Theorem send_customer_message_refused
    (d : Database) (log : list CustomerRouteBroadcast) (customer_id : Z)
    (message : MessageSend) (now : datetime) :
  sqlite_integer customer_id ->
  (customers d !! customer_id = None ->
   send_customer_message detect_priority customer_id message now (d, log)
   = (Raise (HTTPException 404 "Customer not found"), (d, log)))
  ∧ (∀ customer c1 c2 more,
       customers d !! customer_id = Some customer ->
       open_conversations_of customer_id d = c1 :: c2 :: more ->
       send_customer_message detect_priority customer_id message now (d, log)
       = (Raise MultipleResultsFound, (d, log))).
Proof.
  intros _. split.
  - intros Hnone. unfold send_customer_message. run_route. rewrite Hnone.
    reflexivity.
  - intros customer c1 c2 more Hcust Hopen.
    unfold send_customer_message. run_route. rewrite Hcust. simpl.
    destruct (detect_priority (ms_content message)) as [p conf].
    run_route. rewrite Hopen. reflexivity.
Qed.

End CustomerRouteFacts.

Lemma send_customer_message_orders_by_name_witness :
  well_keyed busy_db
  ∧ customers busy_db !! 7 = Some carol
  ∧ open_conversations_of 7 busy_db
    = [Conversation.mk 1 7 (Some 1) IN_PROGRESS HIGH (Some "hello") 0 6]
  ∧ ∃ db_message d' log' conversation',
      send_customer_message (constant_classifier LOW) 7
        (mkMessageSend "thanks" None None None) 9 (busy_db, [])
      = (Return db_message, (d', log'))
      ∧ conversations d' !! 1 = Some conversation'
      ∧ Conversation.priority conversation' = LOW.
Proof.
  assert (Hwk : well_keyed busy_db) by by_evaluation.
  assert (Hopen : open_conversations_of 7 busy_db
    = [Conversation.mk 1 7 (Some 1) IN_PROGRESS HIGH (Some "hello") 0 6])
    by (vm_compute; reflexivity).
  split; [exact Hwk|]. split; [reflexivity|]. split; [exact Hopen|].
  destruct (send_customer_message_orders_by_name (constant_classifier LOW)
              busy_db [] 7 (mkMessageSend "thanks" None None None) 9 carol _
              Hwk eq_refl Hopen)
    as (m & d' & log' & c' & Hrun & _ & Hc' & _ & Hlow & _).
  exists m, d', log', c'. split; [exact Hrun|]. split; [exact Hc'|].
  apply Hlow; [reflexivity | left; reflexivity].
Defined.

Lemma send_customer_message_refused_witness :
  sqlite_integer 7 ∧ sqlite_integer 8
  ∧ customers (db two_open_world) !! 7 = Some carol
  ∧ send_customer_message (constant_classifier HIGH) 7
      (mkMessageSend "any news?" None None None) 9 (db two_open_world, [])
    = (Raise MultipleResultsFound, (db two_open_world, []))
  ∧ send_customer_message (constant_classifier HIGH) 8
      (mkMessageSend "any news?" None None None) 9 (db two_open_world, [])
    = (Raise (HTTPException 404 "Customer not found"), (db two_open_world, [])).
Proof.
  assert (H7 : sqlite_integer 7) by by_evaluation.
  assert (H8 : sqlite_integer 8) by by_evaluation.
  split; [exact H7|]. split; [exact H8|]. split; [reflexivity|].
  destruct (send_customer_message_refused (constant_classifier HIGH)
              (db two_open_world) [] 7
              (mkMessageSend "any news?" None None None) 9 H7) as [_ Hmany].
  destruct (send_customer_message_refused (constant_classifier HIGH)
              (db two_open_world) [] 8
              (mkMessageSend "any news?" None None None) 9 H8) as [Hnone _].
  split.
  - eapply (Hmany carol); [reflexivity | vm_compute; reflexivity].
  - apply Hnone. reflexivity.
Defined.

(* ===================================================================== *)
(** ** external.py: subjects, customers, the message log *)
(* ===================================================================== *)

Lemma py_len_slice_to n s :
  py_len (py_slice_to n s) = Nat.min n (py_len s).
Proof.
  revert n. induction s as [|a s IH]; intros n; simpl.
  - destruct n; reflexivity.
  - destruct (is_continuation a) eqn:Ea; simpl.
    + rewrite Ea. apply IH.
    + destruct n as [|n]; simpl; [reflexivity|].
      rewrite Ea, IH. reflexivity.
Qed.

Lemma prefix_same s : String.prefix s s = true.
Proof.
  induction s as [|a s IH]; simpl; [reflexivity|].
  destruct (Ascii.ascii_dec a a) as [_|N]; [exact IH | contradiction].
Qed.

Lemma prefix_slice_to n s : String.prefix (py_slice_to n s) s = true.
Proof.
  revert n. induction s as [|a s IH]; intros n; simpl; [reflexivity|].
  destruct (is_continuation a); simpl.
  - destruct (Ascii.ascii_dec a a) as [_|N]; [apply IH | contradiction].
  - destruct n as [|n]; simpl; [reflexivity|].
    destruct (Ascii.ascii_dec a a) as [_|N]; [apply IH | contradiction].
Qed.

(** A slice ends where a code point ends: what follows it is empty or
    starts with a byte that is not a continuation byte. *)
Lemma slice_to_boundary n s :
  ∃ rest,
    s = py_slice_to n s +:+ rest
    ∧ match rest with
      | EmptyString => True
      | String a _ => is_continuation a = false
      end.
Proof.
  revert n. induction s as [|a s IH]; intros n; simpl.
  - exists EmptyString. split; [reflexivity | exact I].
  - destruct (is_continuation a) eqn:Ea.
    + destruct (IH n) as (rest & Hs & Hb). exists rest.
      split; [rewrite Hs at 1; reflexivity | exact Hb].
    + destruct n as [|n].
      * exists (String a s). split; [reflexivity | exact Ea].
      * destruct (IH n) as (rest & Hs & Hb). exists rest.
        split; [rewrite Hs at 1; reflexivity | exact Hb].
Qed.

(** X15. The subject a new conversation gets is the content when it has at
    most 100 code points and its first 100 code points otherwise: a prefix
    of the content that has min(100, len(content)) code points and does not
    end inside a code point. *)
Theorem subject_of_bounds (content : string) :
  String.prefix (subject_of content) content = true
  ∧ py_len (subject_of content) = Nat.min 100 (py_len content)
  ∧ ((py_len content ≤ 100)%nat -> subject_of content = content)
  ∧ ∃ rest,
      content = subject_of content +:+ rest
      ∧ match rest with
        | EmptyString => True
        | String a _ => is_continuation a = false
        end.
Proof.
  unfold subject_of.
  destruct (decide (100 < py_len content)%nat) as [Hlong|Hshort].
  - split; [apply prefix_slice_to|].
    split; [apply py_len_slice_to|].
    split; [intros; lia | apply slice_to_boundary].
  - split; [apply prefix_same|].
    split; [lia|]. split; [reflexivity|].
    exists EmptyString. split; [|exact I].
    clear. induction content as [|a s IH]; [reflexivity|].
    rewrite IH at 1. reflexivity.
Qed.

Lemma well_keyed_customer d k c :
  well_keyed d -> customers d !! k = Some c -> Customer.id c = k.
Proof. intros (Hk & _) Hl. exact (keyed_lookup _ _ _ _ Hk Hl). Qed.

(** When no customer is found by id or by email. *)
Lemma find_customer_none message w :
  (∀ cid, truthy_int (ms_customer_id message) = Some cid ->
          customers (db w) !! cid = None) ->
  (∀ email, truthy_str (ms_customer_email message) = Some email ->
            customers_with_email email (db w) = []) ->
  find_customer message w = (Return None, w).
Proof.
  intros Hid Hemail. unfold find_customer. run_handler.
  destruct (truthy_int (ms_customer_id message)) as [cid|]; run_handler.
  - rewrite (Hid cid eq_refl). simpl.
    destruct (truthy_str (ms_customer_email message)) as [email|];
      [|reflexivity].
    run_handler. rewrite (Hemail email eq_refl). reflexivity.
  - destruct (truthy_str (ms_customer_email message)) as [email|];
      [|reflexivity].
    run_handler. rewrite (Hemail email eq_refl). reflexivity.
Qed.

(** A customer that is found is a stored one; when none is found, none is
    stored under the id given or with the email given. *)
Lemma find_customer_cases message w :
  (∃ customer k,
     find_customer message w = (Return (Some customer), w)
     ∧ customers (db w) !! k = Some customer)
  ∨ (find_customer message w = (Return None, w)
     ∧ ∀ email, truthy_str (ms_customer_email message) = Some email ->
                customers_with_email email (db w) = [])
  ∨ find_customer message w = (Raise MultipleResultsFound, w).
Proof.
  unfold find_customer. run_handler.
  assert (Hby_email : ∀ email,
    truthy_str (ms_customer_email message) = Some email ->
    (∃ customer k,
       scalar_one_or_none (customers_with_email email (db w)) w
       = (Return (Some customer), w)
       ∧ customers (db w) !! k = Some customer)
    ∨ (scalar_one_or_none (customers_with_email email (db w)) w
       = (Return None, w)
       ∧ customers_with_email email (db w) = [])
    ∨ scalar_one_or_none (customers_with_email email (db w)) w
      = (Raise MultipleResultsFound, w)).
  { intros email _.
    destruct (customers_with_email email (db w)) as [|c [|c' l]] eqn:E.
    - right. left. split; reflexivity.
    - left. assert (c ∈ customers_with_email email (db w)) as Hin
        by (rewrite E; apply list_elem_of_here).
      apply list_elem_of_filter in Hin as [_ Hin].
      apply elem_of_rows in Hin as [k Hk].
      exists c, k. split; [reflexivity | exact Hk].
    - right. right. reflexivity. }
  destruct (truthy_int (ms_customer_id message)) as [cid|]; run_handler.
  - destruct (customers (db w) !! cid) as [c|] eqn:Hc; simpl.
    + left. exists c, cid. split; [reflexivity | exact Hc].
    + destruct (truthy_str (ms_customer_email message)) as [email|] eqn:He.
      * run_handler.
        destruct (Hby_email email eq_refl)
          as [(c & k & Hrun & Hk) | [[Hrun Hnil] | Hrun]].
        -- left. exists c, k. split; assumption.
        -- right. left. split; [exact Hrun|]. intros ? [= <-]. exact Hnil.
        -- right. right. exact Hrun.
      * right. left. split; [reflexivity|]. intros ? [=].
  - destruct (truthy_str (ms_customer_email message)) as [email|] eqn:He.
    + run_handler.
      destruct (Hby_email email eq_refl)
        as [(c & k & Hrun & Hk) | [[Hrun Hnil] | Hrun]].
      * left. exists c, k. split; assumption.
      * right. left. split; [exact Hrun|]. intros ? [= <-]. exact Hnil.
      * right. right. exact Hrun.
    + right. left. split; [reflexivity|]. intros ? [=].
Qed.

Lemma find_or_create_customer_created message now w email :
  find_customer message w = (Return None, w) ->
  truthy_str (ms_customer_email message) = Some email ->
  let customer :=
    Customer.mk (next_id (customers (db w)))
      (default "Unknown Customer" (truthy_str (ms_customer_name message)))
      (Some email) None "active" None now now None in
  find_or_create_customer message now w
  = (Return customer, mkWorld (put_customer customer (db w)) (sent w)).
Proof.
  intros Hnone He. unfold find_or_create_customer.
  rewrite (bind_run _ _ _ _ _ Hnone). rewrite He. reflexivity.
Qed.

(** X16. receive_external_message answers 400 when the message carries no
    usable email (none, or the empty string) and no customer is stored under
    the customer_id it carries (none, 0, or an unknown id that the database
    can bind); nothing is stored and nothing is broadcast. *)
Theorem receive_external_message_needs_customer
    {Confidence : Type}
    (detect_priority : string -> MessagePriority * Confidence)
    (message : MessageSend) (now : datetime) (w : World) :
  truthy_str (ms_customer_email message) = None ->
  (∀ cid, ms_customer_id message = Some cid -> sqlite_integer cid) ->
  (∀ cid, ms_customer_id message = Some cid -> cid ≠ 0 ->
          customers (db w) !! cid = None) ->
  receive_external_message detect_priority message now w
  = (Raise (HTTPException 400
       "Either customer_id or customer_email is required"), w).
Proof.
  intros He _ Hid.
  apply receive_external_message_raised.
  assert (Hnone : find_customer message w = (Return None, w)).
  { apply find_customer_none.
    - intros cid Hc. destruct (ms_customer_id message) as [n|]; [|discriminate].
      simpl in Hc. destruct (decide (n = 0)); [discriminate|].
      injection Hc as <-. apply Hid; [reflexivity | assumption].
    - intros email Hs. rewrite He in Hs. discriminate. }
  unfold find_or_create_customer.
  rewrite (bind_run _ _ _ _ _ Hnone). rewrite He. reflexivity.
Qed.

Lemma receive_external_message_needs_customer_witness :
  truthy_str (ms_customer_email (mkMessageSend "hi" (Some "") None (Some 99)))
  = None
  ∧ sqlite_integer 99
  ∧ customers (db unowned_world) !! 99 = None
  ∧ receive_external_message (constant_classifier LOW)
      (mkMessageSend "hi" (Some "") None (Some 99)) 9 unowned_world
    = (Raise (HTTPException 400
         "Either customer_id or customer_email is required"), unowned_world).
Proof.
  assert (H99 : sqlite_integer 99) by by_evaluation.
  split; [reflexivity|]. split; [exact H99|]. split; [reflexivity|].
  apply receive_external_message_needs_customer; [reflexivity| |].
  - intros cid [= <-]. exact H99.
  - intros cid [= <-] Hnz. reflexivity.
Defined.

(** Every conversation belongs to a stored customer (the foreign key). *)
Lemma no_conversation_of_unknown_customer d customer_id :
  (∀ k c, conversations d !! k = Some c ->
          is_Some (customers d !! Conversation.customer_id c)) ->
  customers d !! customer_id = None ->
  filter (is_open_for customer_id) (rows (conversations d)) = [].
Proof.
  intros Hfk Hnone. apply filter_rows_nil. intros k c Hk [Hcid _].
  destruct (Hfk k c Hk) as [x Hx]. rewrite Hcid, Hnone in Hx. discriminate.
Qed.

(** X17. First contact.  When the message names no stored customer by id
    and carries an email no stored customer has, receive_external_message
    stores a new customer under a fresh id, with that email, the name given
    (or "Unknown Customer"), account status "active"; opens a conversation
    for that customer with the classified priority; stores the message in
    it; and broadcasts the new conversation and then the new message. *)
Theorem receive_external_message_first_contact
    {Confidence : Type}
    (detect_priority : string -> MessagePriority * Confidence)
    (message : MessageSend) (now : datetime) (w : World) (email : string) :
  (∀ k c, conversations (db w) !! k = Some c ->
          is_Some (customers (db w) !! Conversation.customer_id c)) ->
  ms_customer_email message = Some email -> email ≠ "" ->
  (∀ cid, ms_customer_id message = Some cid -> sqlite_integer cid) ->
  (∀ cid, ms_customer_id message = Some cid -> cid ≠ 0 ->
          customers (db w) !! cid = None) ->
  (∀ k c, customers (db w) !! k = Some c -> Customer.email c ≠ Some email) ->
  ∃ resp w' customer conversation db_message,
    receive_external_message detect_priority message now w = (Return resp, w')
    ∧ customers (db w) !! er_customer_id resp = None
    ∧ customers (db w') !! er_customer_id resp = Some customer
    ∧ Customer.email customer = Some email
    ∧ Customer.name customer
      = default "Unknown Customer" (truthy_str (ms_customer_name message))
    ∧ Customer.account_status customer = "active"
    ∧ conversations (db w) !! er_conversation_id resp = None
    ∧ conversations (db w') !! er_conversation_id resp = Some conversation
    ∧ Conversation.customer_id conversation = er_customer_id resp
    ∧ Conversation.status conversation = OPEN
    ∧ Conversation.agent_id conversation = None
    ∧ Conversation.priority conversation
      = (detect_priority (ms_content message)).1
    ∧ Conversation.subject conversation
      = Some (subject_of (ms_content message))
    ∧ messages (db w') !! er_message_id resp = Some db_message
    ∧ Message.conversation_id db_message = er_conversation_id resp
    ∧ Message.content db_message = ms_content message
    ∧ sent w'
      = sent w
        ++ [broadcast_new_conversation
              (er_conversation_id resp) (er_customer_id resp)
              (er_priority resp) "open"
              (Some (subject_of (ms_content message)))
              (Customer.name customer) (Some email);
            broadcast_new_message_customer
              (er_message_id resp) (er_conversation_id resp)
              (er_customer_id resp) (ms_content message) (er_priority resp)
              now (Customer.name customer) (Some email)].
Proof.
  intros Hfk He Hne _ Hid Hnew.
  assert (Hts : truthy_str (ms_customer_email message) = Some email).
  { rewrite He. simpl. destruct (decide (email = "")); [contradiction|].
    reflexivity. }
  assert (Hnone : find_customer message w = (Return None, w)).
  { apply find_customer_none.
    - intros cid Hc. destruct (ms_customer_id message) as [n|]; [|discriminate].
      simpl in Hc. destruct (decide (n = 0)); [discriminate|].
      injection Hc as <-. apply Hid; [reflexivity | assumption].
    - intros email' Hs. rewrite Hts in Hs. injection Hs as <-.
      apply filter_rows_nil. exact Hnew. }
  pose proof (find_or_create_customer_created message now w email Hnone Hts)
    as Hcust. simpl in Hcust.
  match type of Hcust with
  | _ = (Return ?c, ?w1) =>
    assert (Hopen : open_conversations_of (Customer.id c) (db w1) = [])
  end.
  { unfold open_conversations_of. simpl.
    rewrite (no_conversation_of_unknown_customer (db w) _ Hfk
               (next_id_fresh (customers (db w)))).
    reflexivity. }
  pose proof (receive_external_message_none_open detect_priority _ _ _ _ _
                Hcust Hopen) as Hrun.
  cbn [db sent conversations messages customers put_customer Customer.id
       Customer.name Customer.email Conversation.id Message.id] in Hrun.
  eexists _, _, _, _, _. split; [exact Hrun|].
  cbn [er_customer_id er_conversation_id er_message_id er_priority db sent
       customers conversations messages put_customer put_conversation
       put_message Customer.id Conversation.id Message.id
       Customer.with_last_activity Conversation.with_updated_at].
  split; [apply next_id_fresh|].
  split; [apply lookup_insert_eq|].
  split; [reflexivity|]. split; [reflexivity|]. split; [reflexivity|].
  split; [apply next_id_fresh|].
  split; [apply lookup_insert_eq|].
  split; [reflexivity|]. split; [reflexivity|]. split; [reflexivity|].
  split; [reflexivity|]. split; [reflexivity|].
  split; [apply lookup_insert_eq|].
  split; [reflexivity|]. split; [reflexivity|]. reflexivity.
Qed.

Lemma receive_external_message_first_contact_witness :
  (∀ k c, conversations (db unowned_world) !! k = Some c ->
          is_Some (customers (db unowned_world) !! Conversation.customer_id c))
  ∧ (∀ k c, customers (db unowned_world) !! k = Some c ->
            Customer.email c ≠ Some "erin@example.com")
  ∧ ∃ resp w',
      receive_external_message (constant_classifier URGENT)
        (mkMessageSend "help" (Some "erin@example.com") None None) 9
        unowned_world = (Return resp, w')
      ∧ er_customer_id resp = 8
      ∧ er_conversation_id resp = 2
      ∧ (Customer.name <$> customers (db w') !! 8) = Some "Unknown Customer"
      ∧ length (sent w') = 2%nat.
Proof.
  assert (Hfk : ∀ k c, conversations (db unowned_world) !! k = Some c ->
          is_Some (customers (db unowned_world) !! Conversation.customer_id c)).
  { intros k c Hk. simpl in Hk.
    destruct (decide (k = 1)) as [->|N].
    - rewrite lookup_singleton_eq in Hk. injection Hk as <-.
      eexists. reflexivity.
    - rewrite lookup_singleton_ne in Hk by congruence. discriminate. }
  assert (Hnew : ∀ k c, customers (db unowned_world) !! k = Some c ->
                        Customer.email c ≠ Some "erin@example.com").
  { apply (filter_rows_nil
             (fun c => Customer.email c = Some "erin@example.com")).
    vm_compute. reflexivity. }
  split; [exact Hfk|]. split; [exact Hnew|].
  destruct (receive_external_message_first_contact (constant_classifier URGENT)
              (mkMessageSend "help" (Some "erin@example.com") None None) 9
              unowned_world "erin@example.com" Hfk eq_refl
              ltac:(discriminate) ltac:(intros ? [=]) ltac:(intros ? [=])
              Hnew)
    as (resp & w' & cu & co & m & Hrun & _ & Hcu & _ & Hname & _ & _ & _ & _
        & _ & _ & _ & _ & _ & _ & _ & Hsent).
  exists resp, w'. split; [exact Hrun|].
  assert (Hids : er_customer_id resp = 8 ∧ er_conversation_id resp = 2).
  { vm_compute in Hrun. injection Hrun as <- _. split; reflexivity. }
  destruct Hids as [Hc8 Hc2]. rewrite Hc8 in Hcu.
  split; [exact Hc8|]. split; [exact Hc2|].
  split; [rewrite Hcu; simpl; rewrite Hname; reflexivity|].
  rewrite Hsent. reflexivity.
Defined.

Lemma put_customer_same_email_unique d c old :
  customer_emails_unique d ->
  customers d !! Customer.id c = Some old ->
  Customer.email c = Customer.email old ->
  customer_emails_unique (put_customer c d).
Proof.
  intros Huniq Hold He k1 k2 c1 c2 email H1 H2 E1 E2. simpl in H1, H2.
  destruct (decide (k1 = Customer.id c)) as [->|N1];
    destruct (decide (k2 = Customer.id c)) as [->|N2]; [reflexivity| | |].
  - rewrite lookup_insert_eq in H1. injection H1 as <-.
    rewrite lookup_insert_ne in H2 by congruence.
    rewrite He in E1. exact (Huniq _ _ _ _ _ Hold H2 E1 E2).
  - rewrite lookup_insert_eq in H2. injection H2 as <-.
    rewrite lookup_insert_ne in H1 by congruence.
    rewrite He in E2. exact (Huniq _ _ _ _ _ H1 Hold E1 E2).
  - rewrite lookup_insert_ne in H1, H2 by congruence.
    exact (Huniq _ _ _ _ _ H1 H2 E1 E2).
Qed.

Lemma put_customer_new_email_unique d c email :
  customer_emails_unique d ->
  customers d !! Customer.id c = None ->
  Customer.email c = Some email ->
  (∀ k c', customers d !! k = Some c' -> Customer.email c' ≠ Some email) ->
  customer_emails_unique (put_customer c d).
Proof.
  intros Huniq Hfresh He Hnew k1 k2 c1 c2 email' H1 H2 E1 E2. simpl in H1, H2.
  destruct (decide (k1 = Customer.id c)) as [->|N1];
    destruct (decide (k2 = Customer.id c)) as [->|N2]; [reflexivity| | |].
  - rewrite lookup_insert_eq in H1. injection H1 as <-.
    rewrite lookup_insert_ne in H2 by congruence.
    rewrite He in E1. injection E1 as <-. destruct (Hnew k2 c2 H2 E2).
  - rewrite lookup_insert_eq in H2. injection H2 as <-.
    rewrite lookup_insert_ne in H1 by congruence.
    rewrite He in E2. injection E2 as <-. destruct (Hnew k1 c1 H1 E1).
  - rewrite lookup_insert_ne in H1, H2 by congruence.
    exact (Huniq _ _ _ _ _ H1 H2 E1 E2).
Qed.

(** The customer that is found or created is stored under its id, and
    creating it keeps stored emails unique. *)
Lemma find_or_create_customer_stored message now w customer w1 :
  well_keyed (db w) ->
  customer_emails_unique (db w) ->
  find_or_create_customer message now w = (Return customer, w1) ->
  customers (db w1) !! Customer.id customer = Some customer
  ∧ customer_emails_unique (db w1).
Proof.
  intros Hwk Huniq Hrun.
  destruct (find_customer_cases message w)
    as [(c & k & Hfind & Hk) | [[Hfind Hnil] | Hfind]].
  - rewrite (find_or_create_customer_found message now w c Hfind) in Hrun.
    injection Hrun as <- <-.
    rewrite (well_keyed_customer _ _ _ Hwk Hk). split; assumption.
  - destruct (truthy_str (ms_customer_email message)) as [email|] eqn:He.
    + rewrite (find_or_create_customer_created message now w email Hfind He)
        in Hrun.
      injection Hrun as <- <-. simpl.
      split; [apply lookup_insert_eq|].
      apply (put_customer_new_email_unique _ _ email Huniq);
        [apply next_id_fresh | reflexivity|].
      exact (proj1 (filter_rows_nil
                      (fun c => Customer.email c = Some email) _)
                   (Hnil email eq_refl)).
    + unfold find_or_create_customer in Hrun.
      rewrite (bind_run _ _ _ _ _ Hfind), He in Hrun. discriminate Hrun.
  - unfold find_or_create_customer in Hrun.
    unfold mbind, Handler_bind in Hrun. rewrite Hfind in Hrun.
    discriminate Hrun.
Qed.

(** X18. receive_external_message never stores two customers with one
    email: if stored emails are unique before the request they are unique
    after it, whether it returns or raises. *)
Theorem receive_external_message_keeps_emails_unique
    {Confidence : Type}
    (detect_priority : string -> MessagePriority * Confidence)
    (message : MessageSend) (now : datetime) (w : World) :
  well_keyed (db w) ->
  customer_emails_unique (db w) ->
  customer_emails_unique
    (db (receive_external_message detect_priority message now w).2).
Proof.
  intros Hwk Huniq.
  destruct (find_or_create_customer_cases message now w)
    as [[e He] | (customer & w1 & Hcust & _)].
  { rewrite (receive_external_message_raised _ _ _ _ _ _ He). exact Huniq. }
  destruct (find_or_create_customer_stored message now w customer w1
              Hwk Huniq Hcust) as [Hstored Huniq1].
  assert (Hfinal : ∀ d,
            customers d = customers (db w1) ->
            customer_emails_unique
              (put_customer (Customer.with_last_activity now customer) d)).
  { intros d Hd.
    apply (put_customer_same_email_unique d _ customer).
    - intros k1 k2 c1 c2 email H1 H2. rewrite Hd in H1, H2.
      exact (Huniq1 k1 k2 c1 c2 email H1 H2).
    - simpl. rewrite Hd. exact Hstored.
    - reflexivity. }
  destruct (open_conversations_of (Customer.id customer) (db w1))
    as [|found [|another more]] eqn:Hopen.
  - rewrite (receive_external_message_none_open _ _ _ _ _ _ Hcust Hopen).
    apply Hfinal. reflexivity.
  - destruct (receive_external_message_one_open detect_priority _ now _ _ _ _
                Hcust Hopen) as [log Hrun].
    rewrite Hrun. apply Hfinal. reflexivity.
  - rewrite (receive_external_message_many_open _ _ _ _ _ _ _ _ _
               Hcust Hopen).
    exact Huniq1.
Qed.

Lemma small_db_customer_emails_unique c : customer_emails_unique (small_db c).
Proof.
  intros k1 k2 c1 c2 email H1 H2 _ _. simpl in H1, H2.
  destruct (decide (k1 = 7)) as [->|N1];
    [|rewrite lookup_singleton_ne in H1 by congruence; discriminate].
  destruct (decide (k2 = 7)) as [->|N2];
    [reflexivity
    |rewrite lookup_singleton_ne in H2 by congruence; discriminate].
Qed.

Lemma receive_external_message_keeps_emails_unique_witness :
  well_keyed (db unowned_world)
  ∧ customer_emails_unique (db unowned_world)
  ∧ customer_emails_unique
      (db (receive_external_message (constant_classifier LOW)
             (mkMessageSend "hello" (Some "carol@example.com") (Some "Caro")
                            None) 9 unowned_world).2)
  ∧ size (customers
            (db (receive_external_message (constant_classifier LOW)
                   (mkMessageSend "hello" (Some "carol@example.com")
                                  (Some "Caro") None) 9 unowned_world).2))
    = 1%nat.
Proof.
  assert (Hwk : well_keyed (db unowned_world)) by by_evaluation.
  pose proof (small_db_customer_emails_unique unowned_conversation) as Hu.
  split; [exact Hwk|]. split; [exact Hu|].
  split.
  - exact (receive_external_message_keeps_emails_unique _ _ 9 _ Hwk Hu).
  - vm_compute. reflexivity.
Defined.

(* ===================================================================== *)
(** ** How the ownership operations compose *)
(* ===================================================================== *)

(** Either send_agent_message raises and the world is as before, or it has
    stored one message under a fresh id. *)
Lemma send_agent_message_cases w conversation_id message now :
  (∃ e, send_agent_message conversation_id message now w = (Raise e, w))
  ∨ (∃ db_message w',
       send_agent_message conversation_id message now w = (Return db_message, w')
       ∧ messages (db w) !! Message.id db_message = None
       ∧ messages (db w')
         = <[Message.id db_message := db_message]> (messages (db w))).
Proof.
  destruct (conversations (db w) !! conversation_id) as [c|] eqn:Hc.
  - destruct (assigned_to_another c (ams_agent_id message)) eqn:Ha.
    + left. eexists. exact (send_agent_message_rejected _ _ _ _ _ Hc Ha).
    + destruct (agents (db w) !! ams_agent_id message) as [a|] eqn:Hg.
      * right. pose proof (send_agent_message_accepted _ _ _ now _ _ Hc Ha Hg)
          as Hrun. simpl in Hrun.
        eexists _, _. split; [exact Hrun|]. simpl.
        split; [apply next_id_fresh | reflexivity].
      * left. unfold send_agent_message. run_handler. rewrite Hc. simpl.
        rewrite Ha. run_handler. rewrite Hg. eexists. reflexivity.
  - left. unfold send_agent_message. run_handler. rewrite Hc.
    eexists. reflexivity.
Qed.

Ltac stored_message msg :=
  right; eexists _, msg; split; [reflexivity|];
  cbn [snd db messages put_customer put_conversation put_message Message.id
       er_message_id];
  match goal with H : messages _ = messages _ |- _ => rewrite H end;
  split; [reflexivity|]; split; [apply next_id_fresh | reflexivity].

(** X19. The message log only grows.  Neither receive_external_message nor
    send_agent_message alters or drops a stored message, whether it returns
    or raises; and each one that returns has stored exactly one message,
    under an id that was free. *)
Theorem message_log_only_grows
    {Confidence : Type}
    (detect_priority : string -> MessagePriority * Confidence)
    (message : MessageSend) (conversation_id : Z) (reply : AgentMessageSend)
    (now : datetime) (w : World) :
  let after_customer := receive_external_message detect_priority message now w in
  let after_agent := send_agent_message conversation_id reply now w in
  (∀ k m, messages (db w) !! k = Some m ->
          messages (db after_customer.2) !! k = Some m
          ∧ messages (db after_agent.2) !! k = Some m)
  ∧ (∀ resp, after_customer.1 = Return resp ->
             messages (db w) !! er_message_id resp = None
             ∧ size (messages (db after_customer.2))
               = S (size (messages (db w))))
  ∧ (∀ db_message, after_agent.1 = Return db_message ->
                   messages (db w) !! Message.id db_message = None
                   ∧ size (messages (db after_agent.2))
                     = S (size (messages (db w)))).
Proof.
  intros after_customer after_agent.
  assert (Hcustomer :
    (∃ e, after_customer = (Raise e, after_customer.2)
          ∧ messages (db after_customer.2) = messages (db w))
    ∨ (∃ resp m, after_customer = (Return resp, after_customer.2)
         ∧ Message.id m = er_message_id resp
         ∧ messages (db w) !! Message.id m = None
         ∧ messages (db after_customer.2)
           = <[Message.id m := m]> (messages (db w)))).
  { unfold after_customer.
    destruct (find_or_create_customer_cases message now w)
      as [[e He] | (customer & w1 & Hcust & _ & Hmsg & _)].
    { rewrite (receive_external_message_raised _ _ _ _ _ _ He).
      left. eexists. split; reflexivity. }
    destruct (open_conversations_of (Customer.id customer) (db w1))
      as [|found [|another more]] eqn:Hopen.
    - rewrite (receive_external_message_none_open _ _ _ _ _ _ Hcust Hopen).
      match goal with |- context [put_message ?msg _] => stored_message msg end.
    - destruct (receive_external_message_one_open detect_priority _ now _ _ _
                  _ Hcust Hopen) as [log Hrun].
      rewrite Hrun.
      match goal with |- context [put_message ?msg _] => stored_message msg end.
    - rewrite (receive_external_message_many_open _ _ _ _ _ _ _ _ _
                 Hcust Hopen).
      left. eexists. split; [reflexivity | exact Hmsg]. }
  pose proof (send_agent_message_cases w conversation_id reply now) as Hagent.
  fold after_agent in Hagent.
  split; [|split].
  - intros k m Hk. split.
    + destruct Hcustomer as [(e & _ & ->) | (resp & m' & _ & _ & Hfresh & ->)];
        [exact Hk|].
      rewrite lookup_insert_ne; [exact Hk|]. intros E.
      rewrite E, Hk in Hfresh. discriminate.
    + destruct Hagent as [[e ->] | (m' & w' & -> & Hfresh & Hmsg)];
        [exact Hk|].
      simpl. rewrite Hmsg, lookup_insert_ne; [exact Hk|]. intros E.
      rewrite E, Hk in Hfresh. discriminate.
  - intros resp Hret.
    destruct Hcustomer as [(e & He & _) | (resp' & m' & Hr & Hid & Hfresh & Hm)].
    + rewrite He in Hret. discriminate Hret.
    + rewrite Hr in Hret. injection Hret as ->.
      rewrite <- Hid. split; [exact Hfresh|].
      rewrite Hm. apply map_size_insert_None. exact Hfresh.
  - intros db_message Hret.
    destruct Hagent as [[e He] | (m' & w' & Hr & Hfresh & Hmsg)].
    + rewrite He in Hret. discriminate Hret.
    + rewrite Hr in Hret. injection Hret as ->. rewrite Hr. simpl.
      split; [exact Hfresh|].
      rewrite Hmsg. apply map_size_insert_None. exact Hfresh.
Qed.

(** X20. An id that is no agent never acts on a conversation, for ids the
    database can bind: whatever the conversation and the force flag,
    assign_conversation and send_agent_message in its name raise and leave
    the store as it was; on a stored, unowned conversation both answer 404
    "Agent not found". *)
Theorem unknown_agent_changes_nothing
    (w : World) (conversation_id ghost : Z) (force : bool) (now : datetime)
    (message : AgentMessageSend) :
  sqlite_integer conversation_id -> sqlite_integer ghost ->
  agents (db w) !! ghost = None ->
  ams_agent_id message = ghost ->
  (∃ e, assign_conversation conversation_id ghost force now w = (Raise e, w))
  ∧ (∃ e, send_agent_message conversation_id message now w = (Raise e, w))
  ∧ (∀ conversation,
       conversations (db w) !! conversation_id = Some conversation ->
       Conversation.agent_id conversation = None ->
       assign_conversation conversation_id ghost force now w
       = (Raise (HTTPException 404 "Agent not found"), w)
       ∧ send_agent_message conversation_id message now w
         = (Raise (HTTPException 404 "Agent not found"), w)).
Proof.
  intros _ _ Hghost Hsender.
  assert (Hassign : ∀ c, conversations (db w) !! conversation_id = Some c ->
            conflicting_owner c ghost force = None ->
            assign_conversation conversation_id ghost force now w
            = (Raise (HTTPException 404 "Agent not found"), w)).
  { intros c Hc Hfree. unfold assign_conversation. run_handler.
    rewrite Hc. simpl. rewrite Hfree. run_handler. rewrite Hghost.
    reflexivity. }
  assert (Hsend : ∀ c, conversations (db w) !! conversation_id = Some c ->
            assigned_to_another c ghost = false ->
            send_agent_message conversation_id message now w
            = (Raise (HTTPException 404 "Agent not found"), w)).
  { intros c Hc Hmine. unfold send_agent_message. run_handler.
    rewrite Hc. simpl. rewrite Hsender, Hmine. run_handler. rewrite Hghost.
    reflexivity. }
  split; [|split].
  - destruct (conversations (db w) !! conversation_id) as [c|] eqn:Hc.
    + destruct (conflicting_owner c ghost force) as [o|] eqn:Hconf.
      * eexists. exact (assign_conversation_conflict _ _ _ _ now _ _ Hc Hconf).
      * eexists. exact (Hassign c eq_refl Hconf).
    + unfold assign_conversation. run_handler. rewrite Hc.
      eexists. reflexivity.
  - destruct (conversations (db w) !! conversation_id) as [c|] eqn:Hc.
    + destruct (assigned_to_another c ghost) eqn:Ha.
      * eexists. apply (send_agent_message_rejected _ _ _ _ _ Hc).
        rewrite Hsender. exact Ha.
      * eexists. exact (Hsend c eq_refl Ha).
    + unfold send_agent_message. run_handler. rewrite Hc.
      eexists. reflexivity.
  - intros c Hc Hfree. split.
    + apply (Hassign c Hc). apply conflicting_owner_unowned. exact Hfree.
    + apply (Hsend c Hc). apply assigned_to_another_false. left. exact Hfree.
Qed.

Lemma unknown_agent_changes_nothing_witness :
  sqlite_integer 1 ∧ sqlite_integer 99
  ∧ agents (db unowned_world) !! 99 = None
  ∧ assign_conversation 1 99 true 5 unowned_world
    = (Raise (HTTPException 404 "Agent not found"), unowned_world)
  ∧ send_agent_message 1 (mkAgentMessageSend "hi" 1 99) 5 unowned_world
    = (Raise (HTTPException 404 "Agent not found"), unowned_world).
Proof.
  assert (H1 : sqlite_integer 1) by by_evaluation.
  assert (H99 : sqlite_integer 99) by by_evaluation.
  split; [exact H1|]. split; [exact H99|]. split; [reflexivity|].
  destruct (unknown_agent_changes_nothing unowned_world 1 99 true 5
              (mkAgentMessageSend "hi" 1 99) H1 H99 eq_refl eq_refl)
    as (_ & _ & Hboth).
  exact (Hboth unowned_conversation eq_refl eq_refl).
Defined.

Lemma release_conversation_run w conversation_id agent_id now conversation :
  conversations (db w) !! conversation_id = Some conversation ->
  Conversation.agent_id conversation = Some agent_id ->
  release_conversation conversation_id agent_id now w
  = (Return (mkReleaseResponse true "Conversation released"),
     mkWorld
       (put_conversation
          (Conversation.with_updated_at now
             (Conversation.with_agent_id None conversation)) (db w))
       (sent w ++ [broadcast_conversation_update
                     (Conversation.id conversation) None None])).
Proof.
  intros Hc Ho. unfold release_conversation. run_handler. rewrite Hc. simpl.
  destruct (decide _) as [Hne|_]; [contradiction | reflexivity].
Qed.

Lemma release_conversation_refused w conversation_id agent_id now conversation :
  conversations (db w) !! conversation_id = Some conversation ->
  Conversation.agent_id conversation ≠ Some agent_id ->
  release_conversation conversation_id agent_id now w
  = (Raise (HTTPException 403
       "You can only release conversations assigned to you"), w).
Proof.
  intros Hc Ho. unfold release_conversation. run_handler. rewrite Hc. simpl.
  destruct (decide _); [reflexivity | contradiction].
Qed.

(** X21. Release hands the conversation back to the queue: after the owner's
    release the conversation is unowned with its status and priority as
    before, any agent (the former owner included) can claim it without
    force, and the two steps broadcast the release and then the claim. *)
Theorem release_then_claim
    (w : World) (conversation_id A B : Z) (now later : datetime)
    (conversation : Conversation.t) (agent_B : Agent.t) :
  well_keyed (db w) ->
  conversations (db w) !! conversation_id = Some conversation ->
  Conversation.agent_id conversation = Some A ->
  agents (db w) !! B = Some agent_B ->
  ∃ w1 w2 claimed,
    release_conversation conversation_id A now w
    = (Return (mkReleaseResponse true "Conversation released"), w1)
    ∧ owner_of conversation_id w1 = None
    ∧ assign_conversation conversation_id B false later w1
      = (Return (mkAssignResponse true B (Agent.name agent_B)), w2)
    ∧ conversations (db w2) !! conversation_id = Some claimed
    ∧ Conversation.agent_id claimed = Some B
    ∧ Conversation.status claimed = Conversation.status conversation
    ∧ Conversation.priority claimed = Conversation.priority conversation
    ∧ sent w2
      = sent w ++ [broadcast_conversation_update conversation_id None None;
                   broadcast_conversation_update conversation_id (Some B)
                     (Some (Agent.name agent_B))].
Proof.
  intros Hwk Hc Ho HB.
  pose proof (well_keyed_conversation _ _ _ Hwk Hc) as Hid.
  rewrite (release_conversation_run w conversation_id A now conversation Hc Ho).
  set (released := Conversation.with_updated_at now
                     (Conversation.with_agent_id None conversation)).
  set (w1 := mkWorld (put_conversation released (db w))
                     (sent w ++ [broadcast_conversation_update
                                   (Conversation.id conversation) None None])).
  assert (Hc1 : conversations (db w1) !! conversation_id = Some released).
  { simpl. rewrite Hid. apply lookup_insert_eq. }
  pose proof (assign_conversation_granted w1 conversation_id B false later
                released agent_B Hc1
                (conflicting_owner_unowned released B false eq_refl) HB)
    as Hclaim.
  eexists w1, _, (Conversation.with_updated_at later
                    (Conversation.with_agent_id (Some B) released)).
  split; [reflexivity|].
  split; [unfold owner_of; rewrite Hc1; reflexivity|].
  split; [exact Hclaim|]. simpl. rewrite Hid.
  split; [apply lookup_insert_eq|].
  split_and!; try reflexivity.
  rewrite <- app_assoc. reflexivity.
Qed.

Lemma release_then_claim_witness :
  well_keyed (db claimed_once)
  ∧ conversations (db claimed_once) !! 1
    = Some (Conversation.mk 1 7 (Some 1) OPEN LOW (Some "hello") 0 4)
  ∧ agents (db claimed_once) !! 2 = Some bob
  ∧ ∃ w1 w2,
      release_conversation 1 1 5 claimed_once
      = (Return (mkReleaseResponse true "Conversation released"), w1)
      ∧ assign_conversation 1 2 false 6 w1
        = (Return (mkAssignResponse true 2 "Bob"), w2)
      ∧ length (sent w2) = 3%nat.
Proof.
  assert (Hwk : well_keyed (db claimed_once)) by by_evaluation.
  assert (Hc : conversations (db claimed_once) !! 1
               = Some (Conversation.mk 1 7 (Some 1) OPEN LOW (Some "hello") 0 4))
    by (vm_compute; reflexivity).
  assert (HB : agents (db claimed_once) !! 2 = Some bob)
    by (vm_compute; reflexivity).
  split; [exact Hwk|]. split; [exact Hc|]. split; [exact HB|].
  destruct (release_then_claim claimed_once 1 1 2 5 6 _ bob Hwk Hc eq_refl HB)
    as (w1 & w2 & c & Hrel & _ & Hclaim & _ & _ & _ & _ & Hsent).
  exists w1, w2. split; [exact Hrel|]. split; [exact Hclaim|].
  rewrite Hsent. reflexivity.
Defined.

(** X22. The first responder holds the conversation: once an agent's message
    on an unowned conversation is accepted, another agent's claim without
    force gets the 409 naming the sender, another agent's message gets the
    403, and another agent's release gets the 403. *)
Theorem first_responder_holds
    (w : World) (conversation_id A B : Z) (now later : datetime)
    (message reply : AgentMessageSend)
    (conversation : Conversation.t) (agent_A : Agent.t) :
  well_keyed (db w) ->
  conversations (db w) !! conversation_id = Some conversation ->
  Conversation.agent_id conversation = None ->
  ams_agent_id message = A -> ams_agent_id reply = B -> A ≠ B ->
  agents (db w) !! A = Some agent_A ->
  ∃ db_message w1,
    send_agent_message conversation_id message now w = (Return db_message, w1)
    ∧ owner_of conversation_id w1 = Some A
    ∧ assign_conversation conversation_id B false later w1
      = (Raise (HTTPException 409 (conflict_detail (Agent.name agent_A))), w1)
    ∧ send_agent_message conversation_id reply later w1
      = (Raise (HTTPException 403
           "This conversation is assigned to another agent. You cannot send messages here."),
         w1)
    ∧ release_conversation conversation_id B later w1
      = (Raise (HTTPException 403
           "You can only release conversations assigned to you"), w1).
Proof.
  intros Hwk Hc Hfree HA HB Hne Hagent. subst A.
  pose proof (well_keyed_conversation _ _ _ Hwk Hc) as Hid.
  assert (Hmine : assigned_to_another conversation (ams_agent_id message)
                  = false)
    by (apply assigned_to_another_false; left; exact Hfree).
  pose proof (send_agent_message_accepted w conversation_id message now
                conversation agent_A Hc Hmine Hagent) as Hrun.
  simpl in Hrun.
  match type of Hrun with
  | _ = (Return ?m, mkWorld (put_conversation ?c ?d) ?s) =>
    set (held := c) in *;
    set (w1 := mkWorld (put_conversation held d) s) in *;
    exists m, w1
  end.
  assert (Hc1 : conversations (db w1) !! conversation_id = Some held).
  { unfold w1. simpl. rewrite Hid. apply lookup_insert_eq. }
  assert (Ho1 : Conversation.agent_id held = Some (ams_agent_id message))
    by reflexivity.
  split; [exact Hrun|].
  split; [unfold owner_of; rewrite Hc1; exact Ho1|].
  split; [|split].
  - destruct (conflicting_owner_other held _ B Ho1 Hne) as [Hconf _].
    rewrite (assign_conversation_conflict w1 conversation_id B false later
               held _ Hc1 Hconf).
    unfold w1. simpl. rewrite Hagent. reflexivity.
  - apply (send_agent_message_rejected w1 conversation_id reply later held Hc1).
    apply assigned_to_another_true. eexists. split; [exact Ho1|]. congruence.
  - apply (release_conversation_refused w1 conversation_id B later held Hc1).
    rewrite Ho1. congruence.
Qed.

Lemma first_responder_holds_witness :
  well_keyed (db unowned_world)
  ∧ conversations (db unowned_world) !! 1 = Some unowned_conversation
  ∧ agents (db unowned_world) !! 1 = Some alice
  ∧ ∃ db_message w1,
      send_agent_message 1 (mkAgentMessageSend "on it" 1 1) 5 unowned_world
      = (Return db_message, w1)
      ∧ assign_conversation 1 2 false 6 w1
        = (Raise (HTTPException 409 (conflict_detail "Alice")), w1).
Proof.
  assert (Hwk : well_keyed (db unowned_world)) by by_evaluation.
  split; [exact Hwk|]. split; [reflexivity|]. split; [reflexivity|].
  destruct (first_responder_holds unowned_world 1 1 2 5 6
              (mkAgentMessageSend "on it" 1 1) (mkAgentMessageSend "me too" 1 2)
              unowned_conversation alice Hwk eq_refl eq_refl eq_refl eq_refl
              ltac:(lia) eq_refl)
    as (m & w1 & Hrun & _ & Hclaim & _).
  exists m, w1. split; [exact Hrun | exact Hclaim].
Defined.

(** X23. A forced claim locks the former owner out: after B's claim with
    force on A's conversation, A's message and A's release get the 403 and
    A's claim without force gets the 409 naming B. *)
Theorem forced_claim_locks_out
    (w : World) (conversation_id A B : Z) (now later : datetime)
    (message : AgentMessageSend)
    (conversation : Conversation.t) (agent_B : Agent.t) :
  well_keyed (db w) ->
  conversations (db w) !! conversation_id = Some conversation ->
  Conversation.agent_id conversation = Some A ->
  ams_agent_id message = A -> A ≠ B ->
  agents (db w) !! B = Some agent_B ->
  ∃ w1,
    assign_conversation conversation_id B true now w
    = (Return (mkAssignResponse true B (Agent.name agent_B)), w1)
    ∧ owner_of conversation_id w1 = Some B
    ∧ send_agent_message conversation_id message later w1
      = (Raise (HTTPException 403
           "This conversation is assigned to another agent. You cannot send messages here."),
         w1)
    ∧ release_conversation conversation_id A later w1
      = (Raise (HTTPException 403
           "You can only release conversations assigned to you"), w1)
    ∧ assign_conversation conversation_id A false later w1
      = (Raise (HTTPException 409 (conflict_detail (Agent.name agent_B))), w1).
Proof.
  intros Hwk Hc Ho HA Hne HB.
  pose proof (well_keyed_conversation _ _ _ Hwk Hc) as Hid.
  destruct (conflicting_owner_other _ _ _ Ho Hne) as [_ Hfree].
  pose proof (assign_conversation_granted w conversation_id B true now
                conversation agent_B Hc Hfree HB) as Hrun.
  match type of Hrun with
  | _ = (_, ?w') => exists w'; set (w1 := w') in *
  end.
  set (taken := Conversation.with_updated_at now
                  (Conversation.with_agent_id (Some B) conversation)) in *.
  assert (Hc1 : conversations (db w1) !! conversation_id = Some taken).
  { unfold w1. simpl. rewrite Hid. apply lookup_insert_eq. }
  assert (Ho1 : Conversation.agent_id taken = Some B) by reflexivity.
  split; [exact Hrun|].
  split; [unfold owner_of; rewrite Hc1; exact Ho1|].
  split; [|split].
  - apply (send_agent_message_rejected w1 conversation_id message later taken
             Hc1).
    apply assigned_to_another_true. exists B. split; [exact Ho1|]. congruence.
  - apply (release_conversation_refused w1 conversation_id A later taken Hc1).
    rewrite Ho1. congruence.
  - destruct (conflicting_owner_other taken B A Ho1 (not_eq_sym Hne))
      as [Hconf _].
    rewrite (assign_conversation_conflict w1 conversation_id A false later
               taken B Hc1 Hconf).
    unfold w1. simpl. rewrite HB. reflexivity.
Qed.

Lemma forced_claim_locks_out_witness :
  well_keyed (db claimed_once)
  ∧ conversations (db claimed_once) !! 1
    = Some (Conversation.mk 1 7 (Some 1) OPEN LOW (Some "hello") 0 4)
  ∧ agents (db claimed_once) !! 2 = Some bob
  ∧ ∃ w1,
      assign_conversation 1 2 true 5 claimed_once
      = (Return (mkAssignResponse true 2 "Bob"), w1)
      ∧ release_conversation 1 1 6 w1
        = (Raise (HTTPException 403
             "You can only release conversations assigned to you"), w1)
      ∧ assign_conversation 1 1 false 6 w1
        = (Raise (HTTPException 409 (conflict_detail "Bob")), w1).
Proof.
  assert (Hwk : well_keyed (db claimed_once)) by by_evaluation.
  assert (Hc : conversations (db claimed_once) !! 1
               = Some (Conversation.mk 1 7 (Some 1) OPEN LOW (Some "hello") 0 4))
    by (vm_compute; reflexivity).
  assert (HB : agents (db claimed_once) !! 2 = Some bob)
    by (vm_compute; reflexivity).
  split; [exact Hwk|]. split; [exact Hc|]. split; [exact HB|].
  destruct (forced_claim_locks_out claimed_once 1 1 2 5 6
              (mkAgentMessageSend "still here" 1 1) _ bob
              Hwk Hc eq_refl eq_refl ltac:(lia) HB)
    as (w1 & Hrun & _ & _ & Hrel & Hclaim).
  exists w1. split; [exact Hrun|]. split; [exact Hrel | exact Hclaim].
Defined.

(* ===================================================================== *)
(** ** websocket.py: presence frames *)
(* ===================================================================== *)

Section WebsocketPresence.

Variable json_loads : string -> Loads.

(** X24. A typing, viewing or stop_viewing frame changes nothing when the
    connection was opened without an agent_id (or with agent_id 0), and also
    when its conversation_id is missing or falsy (null, 0, the empty
    string): the endpoint goes on to the next frame without calling the
    manager. *)
Theorem websocket_presence_ignored
    (websocket : WebSocket) (agent_id : option Z) (data kind : string)
    (members fields : list (string * JSON)) (m : Manager) :
  json_loads data = parsed (JObject members) ->
  member "type" members = Some (JString kind) ->
  presence_kind kind ->
  default (JObject []) (member "data" members) = JObject fields ->
  truthy_int agent_id = None
  ∨ truthy (default JNull (member "conversation_id" fields)) = false ->
  on_text json_loads websocket agent_id data m = next_frame m.
Proof.
  intros Hobj Htype Hkind Hdata Hskip.
  unfold on_text. rewrite Hobj. simpl. rewrite Htype. simpl.
  unfold data_get. simpl. rewrite Hdata. simpl.
  destruct Hkind as [-> | [-> | ->]]; simpl;
    destruct Hskip as [Hanon|Hfalsy];
    try rewrite Hanon; try rewrite Hfalsy;
    destruct (truthy (default JNull (member "conversation_id" fields)));
    try reflexivity; destruct (truthy_int agent_id); reflexivity.
Qed.

(** X25. A frame of the wrong shape ends the connection: a JSON text that
    is not an object, or a typing, viewing or stop_viewing frame whose data
    is present and not an object, raises inside the loop; the endpoint
    disconnects the sender and the texts that follow are never processed. *)
Theorem websocket_wrong_shape_disconnects
    (websocket : WebSocket) (agent_id : option Z) (data : string)
    (later : list string) (m : Manager) (v : JSON) :
  json_loads data = parsed v ->
  (∀ members, v ≠ JObject members)
  ∨ (∃ members kind bad,
       v = JObject members
       ∧ member "type" members = Some (JString kind)
       ∧ presence_kind kind
       ∧ member "data" members = Some bad
       ∧ ∀ fields, bad ≠ JObject fields) ->
  receive_loop json_loads websocket agent_id (data :: later) m
  = disconnect websocket agent_id m.
Proof.
  intros Hv [Hnot | (members & kind & bad & -> & Htype & Hkind & Hdata & Hbad)].
  - exact (websocket_non_object_disconnects json_loads websocket agent_id data
             later m v Hv Hnot).
  - unfold receive_loop. f_equal.
    simpl. unfold on_text. rewrite Hv. simpl. rewrite Htype. simpl.
    unfold data_get. simpl. rewrite Hdata. simpl.
    destruct Hkind as [-> | [-> | ->]]; simpl;
      destruct bad; simpl; try reflexivity; destruct (Hbad _ eq_refl).
Qed.

End WebsocketPresence.

Lemma websocket_presence_ignored_witness :
  three_texts_loads viewing_text
  = parsed (JObject [("type", JString "viewing")])
  ∧ presence_kind "viewing"
  ∧ on_text three_texts_loads 10 (Some 1) viewing_text two_channels
    = next_frame two_channels.
Proof.
  assert (Hk : presence_kind "viewing") by (right; left; reflexivity).
  split; [reflexivity|]. split; [exact Hk|].
  apply (websocket_presence_ignored three_texts_loads 10 (Some 1) viewing_text
           "viewing" [("type", JString "viewing")] []);
    [reflexivity | reflexivity | exact Hk | reflexivity | right; reflexivity].
Defined.

Lemma websocket_wrong_shape_disconnects_witness :
  three_texts_loads "42" = parsed (JNumber 42)
  ∧ receive_loop three_texts_loads 10 (Some 1) ["42"; viewing_text] two_channels
    = disconnect 10 (Some 1) two_channels.
Proof.
  split; [reflexivity|].
  apply (websocket_wrong_shape_disconnects three_texts_loads 10 (Some 1) "42"
           [viewing_text] two_channels (JNumber 42)); [reflexivity|].
  left. intros members. discriminate.
Defined.

(* ===================================================================== *)
(** ** Listing items and the conversations of a customer *)
(* ===================================================================== *)

Lemma updated_at_desc_total : Total updated_at_desc.
Proof. intros a b. unfold updated_at_desc. lia. Qed.

Lemma updated_at_desc_trans : Transitive updated_at_desc.
Proof. intros a b c. unfold updated_at_desc. lia. Qed.

Lemma created_at_asc_total : Total created_at_asc.
Proof. intros a b. unfold created_at_asc. lia. Qed.

Lemma created_at_asc_trans : Transitive created_at_asc.
Proof. intros a b c. unfold created_at_asc. lia. Qed.

Lemma StronglySorted_last {A : Type} (R : relation A) (l : list A) x y :
  StronglySorted R l -> last l = Some x -> y ∈ l -> y = x ∨ R y x.
Proof.
  intros Hs. revert x y. induction Hs as [|a l Hs IH Hall]; intros x y Hl Hin.
  - inversion Hin.
  - destruct l as [|b l].
    + simpl in Hl. injection Hl as <-.
      apply elem_of_cons in Hin as [->|Hin]; [left; reflexivity|inversion Hin].
    + change (last (a :: b :: l)) with (last (b :: l)) in Hl.
      apply elem_of_cons in Hin as [->|Hin].
      * right. rewrite List.Forall_forall in Hall. apply Hall.
        apply list_elem_of_In. apply list_elem_of_lookup.
        apply last_Some in Hl as [l' Hl']. rewrite Hl'.
        exists (length l'). apply list_lookup_middle. reflexivity.
      * exact (IH x y Hl Hin).
Qed.

Lemma conversations_of_elem customer_id d c :
  c ∈ conversations_of customer_id d <->
  (∃ k, conversations d !! k = Some c)
  ∧ Conversation.customer_id c = customer_id.
Proof.
  unfold conversations_of.
  rewrite merge_sort_Permutation, list_elem_of_filter, elem_of_rows. tauto.
Qed.

(** X26. For a customer_id the database can bind, and related customers
    and agents that have an email, get_customer_conversations returns one
    item for each stored conversation of the customer and for no other,
    whatever their status, the most recently updated first; for a customer
    with no conversation, a customer id that is not stored included, the
    answer is the empty list and not a 404.  When a related customer or
    agent has no email it raises ValidationError. *)
Theorem get_customer_conversations_lists_all (w : World) (customer_id : Z) :
  sqlite_integer customer_id ->
  let listed := conversations_of customer_id (db w) in
  ((∀ c, c ∈ listed -> related_emails (db w) c) ->
   get_customer_conversations customer_id w
   = (Return (list_item (db w) <$> listed), w))
  ∧ (∀ c, c ∈ listed -> ¬ related_emails (db w) c ->
          get_customer_conversations customer_id w
          = (Raise ValidationError, w))
  ∧ (∀ c, c ∈ listed <->
          (∃ k, conversations (db w) !! k = Some c)
          ∧ Conversation.customer_id c = customer_id)
  ∧ (∀ (i j : nat) a b,
       (i < j)%nat -> listed !! i = Some a -> listed !! j = Some b ->
       Conversation.updated_at b ≤ Conversation.updated_at a)
  ∧ ((∀ k c, conversations (db w) !! k = Some c ->
             Conversation.customer_id c ≠ customer_id) ->
     get_customer_conversations customer_id w = (Return [], w)).
Proof.
  intros _ listed.
  assert (Hrun : get_customer_conversations customer_id w
                 = list_items (db w) listed w) by reflexivity.
  rewrite Hrun.
  split; [apply list_items_valid|].
  split; [intros c; apply list_items_refused|].
  split; [intros c; apply conversations_of_elem|].
  split.
  - intros i j a b Hij Hi Hj.
    eapply (StronglySorted_lookup updated_at_desc); [|exact Hij|exact Hi|exact Hj].
    exact (@StronglySorted_merge_sort _ updated_at_desc _
             updated_at_desc_trans updated_at_desc_total _).
  - intros Hnone.
    assert (Hnil : listed = []).
    { unfold listed, conversations_of.
      assert (Hf : filter (fun c => Conversation.customer_id c = customer_id)
                          (rows (conversations (db w))) = []).
      { apply filter_rows_nil. exact Hnone. }
      rewrite Hf. reflexivity. }
    rewrite Hnil. reflexivity.
Qed.

Lemma get_customer_conversations_lists_all_witness :
  sqlite_integer 7 ∧ sqlite_integer 8
  ∧ (∀ c, c ∈ conversations_of 7 tidy_db -> related_emails tidy_db c)
  ∧ Conversation.id <$> conversations_of 7 tidy_db = [3; 1; 2]
  ∧ get_customer_conversations 7 tidy_world
    = (Return (list_item tidy_db <$> conversations_of 7 tidy_db), tidy_world)
  ∧ get_customer_conversations 8 tidy_world = (Return [], tidy_world).
Proof.
  assert (H7 : sqlite_integer 7) by by_evaluation.
  assert (H8 : sqlite_integer 8) by by_evaluation.
  assert (Hemails : ∀ c, c ∈ conversations_of 7 tidy_db ->
                         related_emails tidy_db c).
  { apply related_emails_checked. vm_compute. reflexivity. }
  split; [exact H7|]. split; [exact H8|]. split; [exact Hemails|].
  split; [vm_compute; reflexivity|]. split.
  - destruct (get_customer_conversations_lists_all tidy_world 7 H7)
      as (Hret & _).
    exact (Hret Hemails).
  - destruct (get_customer_conversations_lists_all tidy_world 8 H8)
      as (_ & _ & _ & _ & Hempty).
    apply Hempty.
    apply (filter_rows_nil (fun c => Conversation.customer_id c = 8)).
    vm_compute. reflexivity.
Defined.

(** X27. In an item of a listing, unread_count is the number of stored
    messages of the conversation that come from the customer and have no
    read_at, and last_message is a message of the conversation created no
    earlier than any other of its messages, or None when it has none. *)
Theorem list_item_summary (d : Database) (conv : Conversation.t) :
  clr_conversation (list_item d conv) = conv
  ∧ clr_unread_count (list_item d conv)
    = Z.of_nat (length (filter (unread_in (Conversation.id conv))
                               (rows (messages d))))
  ∧ (clr_last_message (list_item d conv) = None <->
     ∀ k m, messages d !! k = Some m ->
            Message.conversation_id m ≠ Conversation.id conv)
  ∧ (∀ latest,
       clr_last_message (list_item d conv) = Some latest ->
       Message.conversation_id latest = Conversation.id conv
       ∧ (∃ k, messages d !! k = Some latest)
       ∧ ∀ k m, messages d !! k = Some m ->
                Message.conversation_id m = Conversation.id conv ->
                Message.created_at m ≤ Message.created_at latest).
Proof.
  unfold list_item. simpl. split; [reflexivity|].
  split; [symmetry; apply unread_found_count|]. split.
  - rewrite last_None. split.
    + intros Hnil k m Hk Hc.
      assert (m ∈ messages_of (Conversation.id conv) d) as Hin
        by (apply messages_of_elem; split; [exact Hc | exists k; exact Hk]).
      rewrite Hnil in Hin. inversion Hin.
    + intros Hnone.
      destruct (messages_of (Conversation.id conv) d) as [|m l] eqn:E;
        [reflexivity|].
      assert (m ∈ messages_of (Conversation.id conv) d) as Hin
        by (rewrite E; apply list_elem_of_here).
      apply messages_of_elem in Hin as [Hc [k Hk]].
      destruct (Hnone k m Hk Hc).
  - intros latest Hlast.
    assert (Hin : latest ∈ messages_of (Conversation.id conv) d).
    { apply last_Some in Hlast as [l' ->].
      apply elem_of_app. right. apply list_elem_of_here. }
    apply messages_of_elem in Hin as [Hc Hk].
    split; [exact Hc|]. split; [exact Hk|].
    intros k m Hm Hcm.
    assert (Hsorted : StronglySorted created_at_asc
                        (messages_of (Conversation.id conv) d)).
    { exact (@StronglySorted_merge_sort _ created_at_asc _
               created_at_asc_trans created_at_asc_total _). }
    destruct (StronglySorted_last created_at_asc _ latest m Hsorted Hlast)
      as [->|Hle].
    + apply messages_of_elem. split; [exact Hcm | exists k; exact Hm].
    + lia.
    + exact Hle.
Qed.
